(** * Cubist: move algebra, cubie state, validators, scrambles and IDA* search

    A shallow embedding of the Python sources under [cubist/core] and
    [cubist/solvers], followed by the properties of the
    design specification that are settled against it.

    Conventions.
    - Python [int] and the entries of the [int8] arrays are [Z]; list
      positions that the source writes as literals are [nat].
    - Python [str] is [string]; a character is one code point below 256.
    - A Python call that may raise returns [Py.result]: [Py.Ok v] for a
      normal return, [Py.Raise e] for an exception [e] that escapes. *)

From Stdlib Require Import ZArith List String Ascii Bool Arith Lia QArith.
From Stdlib Require Import DecimalString Permutation.
Import ListNotations.
Close Scope Q_scope.

Set Implicit Arguments.

(* ===================================================================== *)
(** * The fragment of the Python runtime the sources rely on *)
(* ===================================================================== *)

Module Py.

(** Exceptions: the built-in classes the code can raise, each with its
    message. *)
Inductive exn : Type :=
| ValueError (msg : string)
| IndexError (msg : string)
| KeyError (msg : string).

Inductive exn_class : Type := ValueErrorClass | IndexErrorClass | KeyErrorClass.

(** [type(e)] *)
Definition class_of (e : exn) : exn_class :=
  match e with
  | ValueError _ => ValueErrorClass
  | IndexError _ => IndexErrorClass
  | KeyError _ => KeyErrorClass
  end.


Inductive result (A : Type) : Type :=
| Ok (a : A)
| Raise (e : exn).
Arguments Ok {A} a.
Arguments Raise {A} e.

Definition bind {A B} (c : result A) (k : A -> result B) : result B :=
  match c with
  | Ok a => k a
  | Raise e => Raise e
  end.

(** A [for] loop whose body may raise: the loop variable ranges over
    [xs], the loop state is threaded through. *)
Fixpoint for_each {A S} (xs : list A) (body : A -> S -> result S) (s : S)
  : result S :=
  match xs with
  | [] => Ok s
  | x :: xs' => bind (body x s) (for_each xs' body)
  end.

(** A list comprehension / append loop whose element expression may
    raise. *)
Fixpoint map_m {A B} (f : A -> result B) (xs : list A) : result (list B) :=
  match xs with
  | [] => Ok []
  | x :: xs' =>
      bind (f x) (fun y => bind (map_m f xs') (fun ys => Ok (y :: ys)))
  end.

(** [a[i]] and [a[i] = v] on a one-dimensional [numpy] array, for a
    literal non-negative [i]. *)
Definition array_get (a : list Z) (i : nat) : result Z :=
  match nth_error a i with
  | Some x => Ok x
  | None => Raise (IndexError "index out of bounds for axis 0")
  end.

Fixpoint array_set (a : list Z) (i : nat) (v : Z) : result (list Z) :=
  match a, i with
  | [], _ => Raise (IndexError "index out of bounds for axis 0")
  | _ :: t, O => Ok (v :: t)
  | h :: t, S i' => bind (array_set t i' v) (fun t' => Ok (h :: t'))
  end.

(** [xs[i]] and [xs[i] = v] on a Python list where the index is a
    computed integer: a negative index counts from the end, an index
    outside [-len, len) raises [IndexError].  Where the sources index a
    [numpy] array this way, the same index was accepted by a list of
    the same length just before. *)
Definition position (len : nat) (i : Z) : result nat :=
  let n := Z.of_nat len in
  let j := if (i <? 0)%Z then (i + n)%Z else i in
  if ((0 <=? j) && (j <? n))%Z then Ok (Z.to_nat j)
  else Raise (IndexError "list index out of range").

Definition get_at {A} (xs : list A) (i : Z) : result A :=
  bind (position (List.length xs) i)
       (fun k => match nth_error xs k with
                 | Some x => Ok x
                 | None => Raise (IndexError "list index out of range")
                 end).

Fixpoint replace_nth {A} (xs : list A) (k : nat) (v : A) : list A :=
  match xs, k with
  | [], _ => []
  | _ :: t, O => v :: t
  | h :: t, S k' => h :: replace_nth t k' v
  end.

Definition set_at {A} (xs : list A) (i : Z) (v : A) : result (list A) :=
  match position (List.length xs) i with
  | Ok k => Ok (replace_nth xs k v)
  | Raise _ => Raise (IndexError "list assignment index out of range")
  end.

(** Builtin [sum] over integers. *)
Definition sum (xs : list Z) : Z := fold_left Z.add xs 0%Z.

(** [str(n)] for an integer: of a length or a count, and of any
    integer. *)
Definition str_nat (n : nat) : string :=
  NilZero.string_of_uint (Nat.to_uint n).

Definition str_int (z : Z) : string :=
  NilZero.string_of_int (Z.to_int z).

(** ** Strings *)

(** [c.isspace()], which is also what [str.strip()] removes and what
    [\s] matches in a [str] pattern, on code points below 256. *)
Definition isspace (c : ascii) : bool :=
  let n := nat_of_ascii c in
  ((9 <=? n) && (n <=? 13) || (28 <=? n) && (n <=? 32)
   || (n =? 133) || (n =? 160))%nat.

Definition is_empty (s : string) : bool :=
  match s with EmptyString => true | _ => false end.

Fixpoint lstrip (s : string) : string :=
  match s with
  | EmptyString => EmptyString
  | String c s' => if isspace c then lstrip s' else s
  end.

Fixpoint rstrip (s : string) : string :=
  match s with
  | EmptyString => EmptyString
  | String c s' =>
      let t := rstrip s' in
      if is_empty t && isspace c then EmptyString else String c t
  end.

Definition strip (s : string) : string := rstrip (lstrip s).

(** [re.split(r'\s+', s)]: the pieces between the maximal runs of
    white space; a run at either end leaves an empty piece there.
    [piece] is the piece being read, [in_run] tells that the previous
    character belonged to a separator. *)
Fixpoint re_split_ws_from (in_run : bool) (piece s : string) : list string :=
  match s with
  | EmptyString => [piece]
  | String c s' =>
      if isspace c then
        if in_run then re_split_ws_from true EmptyString s'
        else piece :: re_split_ws_from true EmptyString s'
      else re_split_ws_from false (piece ++ String c EmptyString)%string s'
  end.

Definition re_split_ws (s : string) : list string :=
  re_split_ws_from false EmptyString s.

(** [sep.join(parts)] *)
Fixpoint join (sep : string) (parts : list string) : string :=
  match parts with
  | [] => EmptyString
  | [p] => p
  | p :: rest => (p ++ sep ++ join sep rest)%string
  end.

(** [c in s] for a one-character [c]. *)
Fixpoint contains_char (c : ascii) (s : string) : bool :=
  match s with
  | EmptyString => false
  | String d s' => Ascii.eqb c d || contains_char c s'
  end.

(** [s[0]], a one-character string. *)
Definition first_char (s : string) : result string :=
  match s with
  | EmptyString => Raise (IndexError "string index out of range")
  | String c _ => Ok (String c EmptyString)
  end.

(** [list(range(n))] for an integer [n]; empty when [n] is not
    positive. *)
Definition range (n : Z) : list Z := map Z.of_nat (seq 0 (Z.to_nat n)).

(** [xs[start:stop]] for non-negative [start] and [stop]: the elements
    at the positions from [start] up to, not including, [stop] that the
    list has. *)
Definition slice {A} (xs : list A) (start stop : Z) : list A :=
  firstn (Z.to_nat (stop - start)) (skipn (Z.to_nat start) xs).

(** [s.split()]: the maximal runs of characters that are not white
    space. *)
Definition split (s : string) : list string :=
  filter (fun piece => negb (is_empty piece)) (re_split_ws s).

(** [c.lower()] on code points below 256: the letters A to Z and the
    accented capitals 192 to 222, the multiplication sign 215 apart, move
    up by 32. *)
Definition lower_char (c : ascii) : ascii :=
  let n := nat_of_ascii c in
  if ((65 <=? n) && (n <=? 90)
      || (192 <=? n) && (n <=? 222) && negb (n =? 215))%nat
  then ascii_of_nat (n + 32) else c.

(** [s.lower()] *)
Fixpoint lower (s : string) : string :=
  match s with
  | EmptyString => EmptyString
  | String c s' => String (lower_char c) (lower s')
  end.

End Py.

Notation "x <- c ;; k" := (Py.bind c (fun x => k))
  (at level 61, c at next level, right associativity).
Notation "' pat <- c ;; k" := (Py.bind c (fun x => match x with pat => k end))
  (at level 61, pat pattern, c at next level, right associativity).

(* ===================================================================== *)
(** * cubist/core/moves.py *)
(* ===================================================================== *)

(** ** class Move(Enum) *)
Module Move.

Inductive t : Type :=
| R | Rp | R2 | L | Lp | L2 | U | Up | U2
| D | Dp | D2 | F | Fp | F2 | B | Bp | B2
| r | rp | r2 | l | lp | l2 | u | up | u2
| d | dp | d2 | f | fp | f2 | b | bp | b2.

Definition eq_dec (x y : t) : {x = y} + {x <> y}.
Proof. decide equality. Defined.

Definition eqb (x y : t) : bool := if eq_dec x y then true else false.

(** The 36 members in declaration order. *)
Definition catalogue : list t :=
  [R; Rp; R2; L; Lp; L2; U; Up; U2; D; Dp; D2; F; Fp; F2; B; Bp; B2;
   r; rp; r2; l; lp; l2; u; up; u2; d; dp; d2; f; fp; f2; b; bp; b2].

(** [Move.__str__] *)
Definition str (self : t) : string :=
  match self with
  | R => "R" | Rp => "R'" | R2 => "R2"
  | L => "L" | Lp => "L'" | L2 => "L2"
  | U => "U" | Up => "U'" | U2 => "U2"
  | D => "D" | Dp => "D'" | D2 => "D2"
  | F => "F" | Fp => "F'" | F2 => "F2"
  | B => "B" | Bp => "B'" | B2 => "B2"
  | r => "r" | rp => "r'" | r2 => "r2"
  | l => "l" | lp => "l'" | l2 => "l2"
  | u => "u" | up => "u'" | u2 => "u2"
  | d => "d" | dp => "d'" | d2 => "d2"
  | f => "f" | fp => "f'" | f2 => "f2"
  | b => "b" | bp => "b'" | b2 => "b2"
  end%string.

(** [Move.inverse] *)
Definition inverse (self : t) : t :=
  match self with
  | R => Rp | Rp => R | R2 => R2
  | L => Lp | Lp => L | L2 => L2
  | U => Up | Up => U | U2 => U2
  | D => Dp | Dp => D | D2 => D2
  | F => Fp | Fp => F | F2 => F2
  | B => Bp | Bp => B | B2 => B2
  | r => rp | rp => r | r2 => r2
  | l => lp | lp => l | l2 => l2
  | u => up | up => u | u2 => u2
  | d => dp | dp => d | d2 => d2
  | f => fp | fp => f | f2 => f2
  | b => bp | bp => b | b2 => b2
  end.

(** The [string_map] dictionary of [Move.from_string], as the list of
    its items. *)
Definition string_map : list (string * t) :=
  map (fun m => (str m, m)) catalogue.

Fixpoint lookup (key : string) (items : list (string * t)) : option t :=
  match items with
  | [] => None
  | (k, v) :: rest => if String.eqb key k then Some v else lookup key rest
  end.

(** [Move.from_string] *)
Definition from_string (move_str : string) : Py.result t :=
  let move_str := Py.strip move_str in
  match lookup move_str string_map with
  | None => Py.Raise (Py.ValueError ("Invalid move notation: " ++ move_str)%string)
  | Some m => Py.Ok m
  end.

End Move.


(** ** class MoveSequence *)
Module MoveSequence.

(** The object holds one attribute, the list [moves]. *)
Definition t : Type := list Move.t.

(** [MoveSequence.__str__] *)
Definition str (self : t) : string := Py.join " " (map Move.str self).

(** [MoveSequence.parse] *)
Definition parse (move_string : string) : Py.result t :=
  if Py.is_empty (Py.strip move_string) then Py.Ok []
  else
    let move_tokens :=
      map Py.strip
          (filter (fun token => negb (Py.is_empty (Py.strip token)))
                  (Py.re_split_ws (Py.strip move_string))) in
    Py.map_m
      (fun token =>
         match Move.from_string token with
         | Py.Ok m => Py.Ok m
         | Py.Raise (Py.ValueError e) =>
             Py.Raise (Py.ValueError ("Invalid move sequence: " ++ e)%string)
         | Py.Raise e => Py.Raise e
         end)
      move_tokens.

(** [MoveSequence.inverse] *)
Definition inverse (self : t) : t := map Move.inverse (rev self).

(** [MoveSequence._get_face] *)
Definition _get_face (move : Move.t) : Py.result string :=
  Py.first_char (Move.str move).

(** [MoveSequence._get_turn_count] *)
Definition _get_turn_count (move : Move.t) : Z :=
  let move_str := Move.str move in
  if Py.contains_char "'"%char move_str then (-1)%Z
  else if Py.contains_char "2"%char move_str then 2%Z
  else 1%Z.

(** [MoveSequence._create_move] *)
Definition _create_move (face : string) (count : Z) : Py.result Move.t :=
  suffix <- (if (count =? 1)%Z then Py.Ok ""%string
             else if (count =? -1)%Z then Py.Ok "'"%string
             else if (count =? 2)%Z then Py.Ok "2"%string
             else Py.Raise (Py.ValueError
                    ("Invalid turn count: " ++ Py.str_int count)%string)) ;;
  Move.from_string (face ++ suffix)%string.

(** The inner [while] of [simplify]: from position [j] on, add up the turn
    counts of the moves whose face is [face]; returns the total and the
    moves from the final [j] on. *)
Fixpoint look_ahead (face : string) (count : Z) (from_j : list Move.t)
  : Py.result (Z * list Move.t) :=
  match from_j with
  | [] => Py.Ok (count, [])
  | mj :: after =>
      face_j <- _get_face mj ;;
      if String.eqb face_j face
      then look_ahead face (count + _get_turn_count mj)%Z after
      else Py.Ok (count, from_j)
  end.

(** The outer [while i < len(self.moves)] of [simplify]; [from_i] holds
    the moves from position [i] on.  Every iteration moves [i] forward,
    so [len(self.moves)] iterations always reach the end of the list;
    [iterations] counts them down. *)
Fixpoint simplify_loop (iterations : nat) (from_i simplified : list Move.t)
  : Py.result (list Move.t) :=
  match iterations, from_i with
  | _, [] => Py.Ok simplified
  | O, _ => Py.Ok simplified
  | S iterations', current_move :: after =>
      face <- _get_face current_move ;;
      '(count, from_j) <- look_ahead face (_get_turn_count current_move) after ;;
      let count := (count mod 4)%Z in
      let count := if (count =? 3)%Z then (-1)%Z else count in
      simplified <- (if (count =? 0)%Z then Py.Ok simplified
                     else (m <- _create_move face count ;;
                           Py.Ok (simplified ++ [m]))) ;;
      simplify_loop iterations' from_j simplified
  end.

(** [MoveSequence.simplify] *)
Definition simplify (self : t) : Py.result t :=
  match self with
  | [] => Py.Ok []
  | _ => simplify_loop (List.length self) self []
  end.

(** [MoveSequence.__len__] *)
Definition __len__ (self : t) : Z := Z.of_nat (List.length self).

(** [MoveSequence.__getitem__] for an integer index. *)
Definition __getitem__ (self : t) (index : Z) : Py.result Move.t :=
  Py.get_at self index.

(** [MoveSequence.append] and [MoveSequence.extend]: the list [moves]
    after the call. *)
Definition append (self : t) (move : Move.t) : t := self ++ [move].

Definition extend (self other : t) : t := self ++ other.

(** [MoveSequence.copy] *)
Definition copy (self : t) : t := self.

End MoveSequence.


(* ===================================================================== *)
(** * cubist/core/color_scheme.py *)
(* ===================================================================== *)

Module ColorScheme.

(** The dataclass: one color string per face.  [__post_init__] only
    checks that each string is a hex color; it does not compare the six
    colors with each other. *)
Record t : Type := Build {
  U : string; D : string; F : string; B : string; R : string; L : string
}.

(** [DEFAULT_SCHEME] *)
Definition DEFAULT_SCHEME : t :=
  {| U := "#FFFFFF"; D := "#FFD500"; F := "#009E60";
     B := "#0046AD"; R := "#C41E3A"; L := "#FF5800" |}%string.

(** [getattr(scheme, centers[k])] for [centers = ['U','R','F','D','L','B']]
    and a face number [k] taken from the facelet tables. *)
Definition face_color (scheme : t) (k : nat) : string :=
  match k with
  | 0 => U scheme | 1 => R scheme | 2 => F scheme
  | 3 => D scheme | 4 => L scheme | 5 => B scheme
  | _ => EmptyString
  end%nat.

End ColorScheme.

(* ===================================================================== *)
(** * cubist/core/cube_state.py *)
(* ===================================================================== *)

Module CubeState.

(** The four [numpy] arrays of the dataclass.  Entries are [int8] values;
    they are read and written here as integers, and no arithmetic below
    leaves the [int8] range on entries that are orientations. *)
Record t : Type := Build {
  corner_perm : list Z;
  corner_orient : list Z;
  edge_perm : list Z;
  edge_orient : list Z
}.

(** What a caller may pass for one array of [__init__]: nothing, a Python
    list, or a [numpy] array. *)
Inductive arg : Type :=
| NoneArg
| ListArg (xs : list Z)
| ArrayArg (a : list Z).

(** The truth value [__init__] takes of an argument in
    [x if x else default].  [None] and the empty list are false, other
    lists are true.  For a [numpy] array, [bool()] is the truth of the
    single element when there is exactly one, and raises [ValueError]
    when the array has two elements or more; for an empty array it is
    false in the releases that only warn about it. *)
Definition truth (x : arg) : Py.result bool :=
  match x with
  | NoneArg => Py.Ok false
  | ListArg [] => Py.Ok false
  | ListArg _ => Py.Ok true
  | ArrayArg [] => Py.Ok false
  | ArrayArg [v] => Py.Ok (negb (v =? 0)%Z)
  | ArrayArg _ =>
      Py.Raise (Py.ValueError
        "The truth value of an array with more than one element is ambiguous. Use a.any() or a.all()")
  end.

Definition values (x : arg) : list Z :=
  match x with
  | NoneArg => []
  | ListArg xs => xs
  | ArrayArg a => a
  end.

(** [np.array(x if x else default, dtype=np.int8)] *)
Definition array_or_default (x : arg) (default : list Z) : Py.result (list Z) :=
  b <- truth x ;;
  Py.Ok (if b then values x else default).

(** [list(range(n))] *)
Definition range (n : nat) : list Z := map Z.of_nat (seq 0 n).

(** [CubeState.__init__] *)
Definition __init__ (corner_perm corner_orient edge_perm edge_orient : arg)
  : Py.result t :=
  cp <- array_or_default corner_perm (range 8) ;;
  co <- array_or_default corner_orient (repeat 0%Z 8) ;;
  ep <- array_or_default edge_perm (range 12) ;;
  eo <- array_or_default edge_orient (repeat 0%Z 12) ;;
  Py.Ok (Build cp co ep eo).

(** [CubeState.solved]: [CubeState()], every argument [None]. *)
Definition solved : t :=
  Build (range 8) (repeat 0%Z 8) (range 12) (repeat 0%Z 12).

(** [CubeState.clone]: the four array copies go back through
    [__init__]. *)
Definition clone (self : t) : Py.result t :=
  __init__ (ArrayArg (corner_perm self)) (ArrayArg (corner_orient self))
           (ArrayArg (edge_perm self)) (ArrayArg (edge_orient self)).

(** [np.array_equal] on one-dimensional integer arrays. *)
Fixpoint array_equal (a b : list Z) : bool :=
  match a, b with
  | [], [] => true
  | x :: a', y :: b' => (x =? y)%Z && array_equal a' b'
  | _, _ => false
  end.

(** [CubeState.is_solved] *)
Definition is_solved (self : t) : bool :=
  array_equal (corner_perm self) (range 8)
  && array_equal (corner_orient self) (repeat 0%Z 8)
  && array_equal (edge_perm self) (range 12)
  && array_equal (edge_orient self) (repeat 0%Z 12).

(** [CubeState.__eq__] between two states. *)
Definition eqb (self other : t) : bool :=
  array_equal (corner_perm self) (corner_perm other)
  && array_equal (corner_orient self) (corner_orient other)
  && array_equal (edge_perm self) (edge_perm other)
  && array_equal (edge_orient self) (edge_orient other).

(** The facelet tables, the same in [from_facelets] and [to_facelets]. *)
Definition corner_facelets : list (nat * nat * nat * nat * nat * nat) :=
  [ (0, 0, 1, 0, 2, 2);   (* URF *)
    (0, 2, 2, 0, 4, 2);   (* UFL *)
    (0, 8, 4, 0, 5, 2);   (* ULB *)
    (0, 6, 5, 0, 1, 2);   (* UBR *)
    (3, 2, 2, 8, 1, 6);   (* DFR *)
    (3, 0, 4, 8, 2, 6);   (* DLF *)
    (3, 6, 5, 8, 4, 6);   (* DBL *)
    (3, 8, 1, 8, 5, 6) ]%nat. (* DRB *)

Definition edge_facelets : list (nat * nat * nat * nat) :=
  [ (0, 1, 1, 1);   (* UR *)
    (0, 5, 2, 1);   (* UF *)
    (0, 7, 4, 1);   (* UL *)
    (0, 3, 5, 1);   (* UB *)
    (3, 1, 1, 7);   (* DR *)
    (3, 5, 2, 7);   (* DF *)
    (3, 7, 4, 7);   (* DL *)
    (3, 3, 5, 7);   (* DB *)
    (2, 5, 1, 3);   (* FR *)
    (2, 3, 4, 5);   (* FL *)
    (4, 3, 5, 5);   (* BL *)
    (5, 3, 1, 5) ]%nat. (* BR *)

(** Reads and writes of the 54-cell list at positions computed from the
    tables; the positions are below 54, so they never raise. *)
Definition cell (facelets : list string) (i : nat) : string :=
  nth i facelets ""%string.

Fixpoint set_cell (facelets : list string) (i : nat) (v : string)
  : list string :=
  match facelets, i with
  | [], _ => []
  | _ :: rest, O => v :: rest
  | h :: rest, S i' => h :: set_cell rest i' v
  end.

(** [list1 == list2] on lists of strings. *)
Fixpoint colors_equal (a b : list string) : bool :=
  match a, b with
  | [], [] => true
  | x :: a', y :: b' => String.eqb x y && colors_equal a' b'
  | _, _ => false
  end.

(** [enumerate(xs)] with the index as a Python integer. *)
Definition enumerate {A} (xs : list A) : list (Z * A) :=
  combine (map Z.of_nat (seq 0 (List.length xs))) xs.

(** The first element of [xs] on which [f] answers, as a loop left by
    [break]. *)
Fixpoint first_some {A B} (f : A -> option B) (xs : list A) : option B :=
  match xs with
  | [] => None
  | x :: rest => match f x with Some y => Some y | None => first_some f rest end
  end.

(** The inner loops of [from_facelets] for one corner position: the first
    reference corner [j], and for it the first rotation [orient], such
    that the observed colors read from [orient] on are the reference
    colors. *)
Definition find_corner (centers colors : list string) : option (Z * Z) :=
  first_some
    (fun '(j, (sf1, sp1, sf2, sp2, sf3, sp3)) =>
       let solved_colors := [cell centers sf1; cell centers sf2; cell centers sf3] in
       first_some
         (fun orient =>
            let rotated_colors :=
              map (fun k => cell colors (Z.to_nat ((k + orient) mod 3))) [0; 1; 2]%Z in
            if colors_equal rotated_colors solved_colors
            then Some (j, orient) else None)
         [0; 1; 2]%Z)
    (enumerate corner_facelets).

(** The inner loop of [from_facelets] for one edge position. *)
Definition find_edge (centers colors : list string) : option (Z * Z) :=
  first_some
    (fun '(j, (sf1, sp1, sf2, sp2)) =>
       let solved_colors := [cell centers sf1; cell centers sf2] in
       if colors_equal colors solved_colors then Some (j, 0%Z)
       else if colors_equal colors [cell solved_colors 1; cell solved_colors 0]
            then Some (j, 1%Z)
            else None)
    (enumerate edge_facelets).

(** The body of the corner loop of [from_facelets] at position [i], whose
    table entry is [(f1, p1, f2, p2, f3, p3)]: the cubie found and its
    orientation are appended to the two lists. *)
Definition read_corner (facelets centers : list string)
           (entry : Z * (nat * nat * nat * nat * nat * nat))
           (found : list Z * list Z) : Py.result (list Z * list Z) :=
  let '(i, (f1, p1, f2, p2, f3, p3)) := entry in
  let '(corner_perm, corner_orient) := found in
  let colors := [cell facelets (f1 * 9 + p1); cell facelets (f2 * 9 + p2);
                 cell facelets (f3 * 9 + p3)] in
  match find_corner centers colors with
  | None =>
      Py.Raise (Py.ValueError
        ("Invalid corner at position " ++ Py.str_int i)%string)
  | Some (solved_corner, orientation) =>
      Py.Ok (corner_perm ++ [solved_corner], corner_orient ++ [orientation])
  end.

(** The body of the edge loop of [from_facelets]. *)
Definition read_edge (facelets centers : list string)
           (entry : Z * (nat * nat * nat * nat))
           (found : list Z * list Z) : Py.result (list Z * list Z) :=
  let '(i, (f1, p1, f2, p2)) := entry in
  let '(edge_perm, edge_orient) := found in
  let colors := [cell facelets (f1 * 9 + p1); cell facelets (f2 * 9 + p2)] in
  match find_edge centers colors with
  | None =>
      Py.Raise (Py.ValueError
        ("Invalid edge at position " ++ Py.str_int i)%string)
  | Some (solved_edge, orientation) =>
      Py.Ok (edge_perm ++ [solved_edge], edge_orient ++ [orientation])
  end.

(** [CubeState.from_facelets] *)
Definition from_facelets (facelets : list string) : Py.result t :=
  if negb (List.length facelets =? 54)%nat then
    Py.Raise (Py.ValueError
      ("Expected 54 facelets, got " ++ Py.str_nat (List.length facelets))%string)
  else
    let centers := map (cell facelets) [4; 13; 22; 31; 40; 49]%nat in
    '(corner_perm, corner_orient) <-
      Py.for_each (enumerate corner_facelets) (read_corner facelets centers)
                  ([], []) ;;
    '(edge_perm, edge_orient) <-
      Py.for_each (enumerate edge_facelets) (read_edge facelets centers)
                  ([], []) ;;
    __init__ (ListArg corner_perm) (ListArg corner_orient)
             (ListArg edge_perm) (ListArg edge_orient).

(** The body of the corner loop of [to_facelets] at position [i]. *)
Definition paint_corner (self : t) (scheme : ColorScheme.t) (i : nat)
           (facelets : list string) : Py.result (list string) :=
  corner_pos <- Py.array_get (corner_perm self) i ;;
  orientation <- Py.array_get (corner_orient self) i ;;
  '(sf1, sp1, sf2, sp2, sf3, sp3) <- Py.get_at corner_facelets corner_pos ;;
  let solved_colors := [ColorScheme.face_color scheme sf1;
                        ColorScheme.face_color scheme sf2;
                        ColorScheme.face_color scheme sf3] in
  let oriented_colors :=
    map (fun j => cell solved_colors (Z.to_nat ((j - orientation) mod 3)))
        [0; 1; 2]%Z in
  let '(f1, p1, f2, p2, f3, p3) := nth i corner_facelets (0, 0, 0, 0, 0, 0)%nat in
  let facelets := set_cell facelets (f1 * 9 + p1) (cell oriented_colors 0) in
  let facelets := set_cell facelets (f2 * 9 + p2) (cell oriented_colors 1) in
  let facelets := set_cell facelets (f3 * 9 + p3) (cell oriented_colors 2) in
  Py.Ok facelets.

(** The body of the edge loop of [to_facelets] at position [i]. *)
Definition paint_edge (self : t) (scheme : ColorScheme.t) (i : nat)
           (facelets : list string) : Py.result (list string) :=
  edge_pos <- Py.array_get (edge_perm self) i ;;
  orientation <- Py.array_get (edge_orient self) i ;;
  '(sf1, sp1, sf2, sp2) <- Py.get_at edge_facelets edge_pos ;;
  let solved_colors := [ColorScheme.face_color scheme sf1;
                        ColorScheme.face_color scheme sf2] in
  let solved_colors :=
    if (orientation =? 1)%Z
    then [cell solved_colors 1; cell solved_colors 0]
    else solved_colors in
  let '(f1, p1, f2, p2) := nth i edge_facelets (0, 0, 0, 0)%nat in
  let facelets := set_cell facelets (f1 * 9 + p1) (cell solved_colors 0) in
  let facelets := set_cell facelets (f2 * 9 + p2) (cell solved_colors 1) in
  Py.Ok facelets.

(** [CubeState.to_facelets] *)
Definition to_facelets (self : t) (scheme : ColorScheme.t)
  : Py.result (list string) :=
  let facelets := repeat ""%string 54 in
  let center_positions := [4; 13; 22; 31; 40; 49]%nat in
  let facelets :=
    fold_left (fun fl i => set_cell fl (nth i center_positions 0%nat)
                                    (ColorScheme.face_color scheme i))
              (seq 0 6) facelets in
  facelets <- Py.for_each (seq 0 8) (paint_corner self scheme) facelets ;;
  Py.for_each (seq 0 12) (paint_edge self scheme) facelets.

(** The body shared by the three [_apply_*_move] methods for one pair of
    arrays: save the entries at the head of [cycle], shift the entries
    of the next three cycle positions one place back along the cycle in
    a loop, and store the saved entries at the last position.  [twist]
    is what the method does to an orientation entry stored at a given
    position: nothing for R and U, an increment for F. *)
Definition cycle_arrays (cycle : list nat) (twist : nat -> Z -> Z)
           (perm orient : list Z) : Py.result (list Z * list Z) :=
  let at_ i := nth i cycle 0%nat in
  temp_perm <- Py.array_get perm (at_ 0%nat) ;;
  temp_orient <- Py.array_get orient (at_ 0%nat) ;;
  '(perm, orient) <-
    Py.for_each (seq 0 3)
      (fun i '(perm, orient) =>
         p <- Py.array_get perm (at_ (i + 1)%nat) ;;
         perm <- Py.array_set perm (at_ i) p ;;
         o <- Py.array_get orient (at_ (i + 1)%nat) ;;
         orient <- Py.array_set orient (at_ i) (twist (at_ i) o) ;;
         Py.Ok (perm, orient))
      (perm, orient) ;;
  perm <- Py.array_set perm (at_ 3%nat) temp_perm ;;
  orient <- Py.array_set orient (at_ 3%nat) (twist (at_ 3%nat) temp_orient) ;;
  Py.Ok (perm, orient).

Definition keep (_ : nat) (o : Z) : Z := o.

(** [_apply_r_move] after its [clone()]: corners 0->3->7->4, edges
    0->8->4->11, orientations carried along. *)
Definition r_turn (new_state : t) : Py.result t :=
  '(cp, co) <- cycle_arrays [0; 3; 7; 4]%nat keep
                 (corner_perm new_state) (corner_orient new_state) ;;
  '(ep, eo) <- cycle_arrays [0; 8; 4; 11]%nat keep
                 (edge_perm new_state) (edge_orient new_state) ;;
  Py.Ok (Build cp co ep eo).

(** [_apply_u_move] after its [clone()]. *)
Definition u_turn (new_state : t) : Py.result t :=
  '(cp, co) <- cycle_arrays [0; 1; 2; 3]%nat keep
                 (corner_perm new_state) (corner_orient new_state) ;;
  '(ep, eo) <- cycle_arrays [0; 1; 2; 3]%nat keep
                 (edge_perm new_state) (edge_orient new_state) ;;
  Py.Ok (Build cp co ep eo).

(** [_apply_f_move] after its [clone()]: every corner orientation that is
    moved gets [+ 1] modulo 3; an edge orientation gets [+ 1] modulo 2
    when it is stored at position 1 or 5. *)
Definition f_turn (new_state : t) : Py.result t :=
  '(cp, co) <- cycle_arrays [0; 4; 5; 1]%nat (fun _ o => ((o + 1) mod 3)%Z)
                 (corner_perm new_state) (corner_orient new_state) ;;
  '(ep, eo) <- cycle_arrays [1; 8; 5; 9]%nat
                 (fun pos o => if existsb (Nat.eqb pos) [1; 5]%nat
                               then ((o + 1) mod 2)%Z else o)
                 (edge_perm new_state) (edge_orient new_state) ;;
  Py.Ok (Build cp co ep eo).

(** [CubeState._apply_r_move], [_apply_u_move], [_apply_f_move] *)
Definition _apply_r_move (self : t) : Py.result t :=
  new_state <- clone self ;; r_turn new_state.

Definition _apply_u_move (self : t) : Py.result t :=
  new_state <- clone self ;; u_turn new_state.

Definition _apply_f_move (self : t) : Py.result t :=
  new_state <- clone self ;; f_turn new_state.

(** [CubeState.apply_move] *)
Definition apply_move (self : t) (move : Move.t) : Py.result t :=
  match move with
  | Move.R => _apply_r_move self
  | Move.Rp => s <- _apply_r_move self ;; s <- _apply_r_move s ;; _apply_r_move s
  | Move.R2 => s <- _apply_r_move self ;; _apply_r_move s
  | Move.U => _apply_u_move self
  | Move.Up => s <- _apply_u_move self ;; s <- _apply_u_move s ;; _apply_u_move s
  | Move.U2 => s <- _apply_u_move self ;; _apply_u_move s
  | Move.F => _apply_f_move self
  | Move.Fp => s <- _apply_f_move self ;; s <- _apply_f_move s ;; _apply_f_move s
  | Move.F2 => s <- _apply_f_move self ;; _apply_f_move s
  | Move.r => _apply_r_move self
  | Move.rp => s <- _apply_r_move self ;; s <- _apply_r_move s ;; _apply_r_move s
  | Move.r2 => s <- _apply_r_move self ;; _apply_r_move s
  | Move.f => _apply_f_move self
  | Move.fp => s <- _apply_f_move self ;; s <- _apply_f_move s ;; _apply_f_move s
  | Move.f2 => s <- _apply_f_move self ;; _apply_f_move s
  | Move.u => _apply_u_move self
  | Move.up => s <- _apply_u_move self ;; s <- _apply_u_move s ;; _apply_u_move s
  | Move.u2 => s <- _apply_u_move self ;; _apply_u_move s
  | _ => clone self
  end.

(** [Move.apply] *)
Definition apply (move : Move.t) (state : t) : Py.result t :=
  apply_move state move.

(** [MoveSequence.apply_to] *)
Definition apply_to (seq : MoveSequence.t) (state : t) : Py.result t :=
  Py.for_each seq apply state.

End CubeState.

(* ===================================================================== *)
(** * cubist/core/validators.py *)
(* ===================================================================== *)

Module Validators.

(** [collections.Counter(xs).items()]: each distinct element with its
    number of occurrences, in order of first occurrence. *)
Fixpoint count_up (key : string) (items : list (string * nat))
  : list (string * nat) :=
  match items with
  | [] => [(key, 1%nat)]
  | (k, n) :: rest =>
      if String.eqb k key then (k, S n) :: rest
      else (k, n) :: count_up key rest
  end.

Definition Counter (xs : list string) : list (string * nat) :=
  fold_left (fun items x => count_up x items) xs [].

(** The [while not visited[j]] loop of [_permutation_parity].  Every
    iteration marks one more position, so [len(perm) + 1] tests of the
    condition always end it; [tests] counts them down. *)
Fixpoint follow_cycle (tests : nat) (perm : list Z) (visited : list bool)
         (j : Z) (cycle_length : Z) : Py.result (list bool * Z) :=
  match tests with
  | O => Py.Ok (visited, cycle_length)
  | S tests' =>
      seen <- Py.get_at visited j ;;
      if seen then Py.Ok (visited, cycle_length)
      else
        visited <- Py.set_at visited j true ;;
        j <- Py.get_at perm j ;;
        follow_cycle tests' perm visited j (cycle_length + 1)%Z
  end.

(** [_permutation_parity] *)
Definition _permutation_parity (perm : list Z) : Py.result Z :=
  let n := List.length perm in
  '(_, parity) <-
    Py.for_each (seq 0 n)
      (fun i '(visited, parity) =>
         if nth i visited true then Py.Ok (visited, parity)
         else
           '(visited, cycle_length) <-
             follow_cycle (S n) perm visited (Z.of_nat i) 0%Z ;;
           Py.Ok (visited,
                  if (cycle_length mod 2 =? 0)%Z then Z.lxor parity 1 else parity))
      (repeat false n, 0%Z) ;;
  Py.Ok parity.

(** [_is_valid_permutation]: the length is [n] and the set of entries is
    the set [{0, ..., n-1}]. *)
Definition _is_valid_permutation (perm : list Z) (n : nat) : bool :=
  if negb (List.length perm =? n)%nat then false
  else
    let expected := map Z.of_nat (seq 0 n) in
    forallb (fun x => existsb (Z.eqb x) perm) expected
    && forallb (fun x => existsb (Z.eqb x) expected) perm.

Definition is_nil {A} (xs : list A) : bool :=
  match xs with [] => true | _ => false end.

(** [validate_facelets].  The [try] block only catches [ValueError]. *)
Definition validate_facelets (facelets : list string)
  : Py.result (bool * list string) :=
  let errors : list string := [] in
  if negb (List.length facelets =? 54)%nat then
    Py.Ok (false,
           errors ++ [("Expected 54 facelets, got "
                       ++ Py.str_nat (List.length facelets))%string])
  else
    let color_counts := Counter facelets in
    let errors :=
      if negb (List.length color_counts =? 6)%nat
      then errors ++ [("Expected exactly 6 different colors, got "
                       ++ Py.str_nat (List.length color_counts))%string]
      else errors in
    let errors :=
      fold_left
        (fun errors '(color, count) =>
           if negb (count =? 9)%nat
           then errors ++ [("Color " ++ color ++ " appears " ++ Py.str_nat count
                            ++ " times, expected 9")%string]
           else errors)
        color_counts errors in
    if negb (is_nil errors) then Py.Ok (false, errors)
    else
      match CubeState.from_facelets facelets with
      | Py.Raise (Py.ValueError e) =>
          let errors := errors ++ [("Invalid cube configuration: " ++ e)%string] in
          Py.Ok (is_nil errors, errors)
      | Py.Raise e => Py.Raise e
      | Py.Ok cube_state =>
          let corner_twist_sum := (Py.sum (CubeState.corner_orient cube_state) mod 3)%Z in
          let errors :=
            if negb (corner_twist_sum =? 0)%Z
            then errors ++ ["Invalid corner twist sum (must be divisible by 3)"%string]
            else errors in
          let edge_flip_sum := (Py.sum (CubeState.edge_orient cube_state) mod 2)%Z in
          let errors :=
            if negb (edge_flip_sum =? 0)%Z
            then errors ++ ["Invalid edge flip sum (must be even)"%string]
            else errors in
          corner_parity <- _permutation_parity (CubeState.corner_perm cube_state) ;;
          edge_parity <- _permutation_parity (CubeState.edge_perm cube_state) ;;
          let errors :=
            if negb (corner_parity =? edge_parity)%Z
            then errors ++ ["Corner and edge permutation parities must match"%string]
            else errors in
          Py.Ok (is_nil errors, errors)
      end.

(** [validate_cube_state] *)
Definition validate_cube_state (state : CubeState.t)
  : Py.result (bool * list string) :=
  let corner_perm := CubeState.corner_perm state in
  let corner_orient := CubeState.corner_orient state in
  let edge_perm := CubeState.edge_perm state in
  let edge_orient := CubeState.edge_orient state in
  let errors : list string := [] in
  let errors :=
    if negb (List.length corner_perm =? 8)%nat
    then errors ++ [("Corner permutation must have 8 elements, got "
                     ++ Py.str_nat (List.length corner_perm))%string]
    else errors in
  let errors :=
    if negb (List.length corner_orient =? 8)%nat
    then errors ++ [("Corner orientation must have 8 elements, got "
                     ++ Py.str_nat (List.length corner_orient))%string]
    else errors in
  let errors :=
    if negb (List.length edge_perm =? 12)%nat
    then errors ++ [("Edge permutation must have 12 elements, got "
                     ++ Py.str_nat (List.length edge_perm))%string]
    else errors in
  let errors :=
    if negb (List.length edge_orient =? 12)%nat
    then errors ++ [("Edge orientation must have 12 elements, got "
                     ++ Py.str_nat (List.length edge_orient))%string]
    else errors in
  let errors :=
    if negb (_is_valid_permutation corner_perm 8)
    then errors ++ ["Invalid corner permutation"%string] else errors in
  let errors :=
    if negb (_is_valid_permutation edge_perm 12)
    then errors ++ ["Invalid edge permutation"%string] else errors in
  let errors :=
    fold_left
      (fun errors '(i, orient) =>
         if negb (existsb (Z.eqb orient) [0; 1; 2]%Z)
         then errors ++ [("Corner " ++ Py.str_int i ++ " has invalid orientation "
                          ++ Py.str_int orient ++ " (must be 0, 1, or 2)")%string]
         else errors)
      (CubeState.enumerate corner_orient) errors in
  let errors :=
    fold_left
      (fun errors '(i, orient) =>
         if negb (existsb (Z.eqb orient) [0; 1]%Z)
         then errors ++ [("Edge " ++ Py.str_int i ++ " has invalid orientation "
                          ++ Py.str_int orient ++ " (must be 0 or 1)")%string]
         else errors)
      (CubeState.enumerate edge_orient) errors in
  if negb (is_nil errors) then Py.Ok (false, errors)
  else
    let corner_twist_sum := (Py.sum corner_orient mod 3)%Z in
    let errors :=
      if negb (corner_twist_sum =? 0)%Z
      then errors ++ ["Invalid corner twist sum (must be divisible by 3)"%string]
      else errors in
    let edge_flip_sum := (Py.sum edge_orient mod 2)%Z in
    let errors :=
      if negb (edge_flip_sum =? 0)%Z
      then errors ++ ["Invalid edge flip sum (must be even)"%string]
      else errors in
    corner_parity <- _permutation_parity corner_perm ;;
    edge_parity <- _permutation_parity edge_perm ;;
    let errors :=
      if negb (corner_parity =? edge_parity)%Z
      then errors ++ ["Corner and edge permutation parities must match"%string]
      else errors in
    Py.Ok (is_nil errors, errors).

End Validators.

(* ===================================================================== *)
(** * cubist/core/scramble.py *)
(* ===================================================================== *)

Module Scramble.

(** The process-wide random source: the [k]-th call of [random.choice]
    draws the number [draws k].  [random.choice(xs)] returns a member of
    [xs] and raises [IndexError] on an empty list; every member can be
    returned. *)
Definition choice {A} (xs : list A) (draw : nat) : Py.result A :=
  match nth_error xs (draw mod List.length xs) with
  | Some x => Py.Ok x
  | None => Py.Raise (Py.IndexError "Cannot choose from an empty sequence")
  end.

(** The dictionary [move_groups], as its items in insertion order. *)
Definition move_groups : list (string * list Move.t) :=
  [ ("R", [Move.R; Move.Rp; Move.R2]);
    ("L", [Move.L; Move.Lp; Move.L2]);
    ("U", [Move.U; Move.Up; Move.U2]);
    ("D", [Move.D; Move.Dp; Move.D2]);
    ("F", [Move.F; Move.Fp; Move.F2]);
    ("B", [Move.B; Move.Bp; Move.B2]) ]%string.

(** [opposite_faces.get(face)] *)
Definition opposite_faces : list (string * string) :=
  [ ("R", "L"); ("L", "R"); ("U", "D"); ("D", "U"); ("F", "B"); ("B", "F") ]%string.

Fixpoint get {V} (items : list (string * V)) (key : string) : option V :=
  match items with
  | [] => None
  | (k, v) :: rest => if String.eqb k key then Some v else get rest key
  end.

(** [x == y] where either side may be [None]. *)
Definition opt_eqb (x y : option string) : bool :=
  match x, y with
  | Some a, Some b => String.eqb a b
  | None, None => true
  | _, _ => false
  end.

(** The faces left after the two [continue] tests of the inner loop. *)
Definition valid_faces (last_face second_last_face : option string)
  : list string :=
  filter
    (fun face =>
       if opt_eqb (Some face) last_face then false
       else if (match second_last_face with Some _ => true | None => false end)
               && (match last_face with Some _ => true | None => false end)
               && opt_eqb (Some face) second_last_face
               && opt_eqb (get opposite_faces face) last_face
            then false
            else true)
    (map fst move_groups).

(** The [for _ in range(length)] loop; [k] numbers the next random
    draw. *)
Fixpoint scramble_loop (draws : nat -> nat) (steps : nat) (k : nat)
         (last_face second_last_face : option string)
         (scramble_moves : list Move.t) : Py.result (list Move.t) :=
  match steps with
  | O => Py.Ok scramble_moves
  | S steps' =>
      chosen_face <- choice (valid_faces last_face second_last_face) (draws k) ;;
      chosen_move <- match get move_groups chosen_face with
                     | Some group => choice group (draws (S k))
                     | None => Py.Raise (Py.KeyError chosen_face)
                     end ;;
      scramble_loop draws steps' (S (S k)) (Some chosen_face) last_face
                    (scramble_moves ++ [chosen_move])
  end.

(** [generate_scramble] *)
Definition generate_scramble (draws : nat -> nat) (length : Z)
  : Py.result MoveSequence.t :=
  if (length <=? 0)%Z then Py.Ok []
  else scramble_loop draws (Z.to_nat length) 0 None None [].

(** [_get_move_face] *)
Definition _get_move_face (move : Move.t) : Py.result string :=
  Py.first_char (Move.str move).

(** [generate_easy_scramble] *)
Definition generate_easy_scramble (draws : nat -> nat) (length : Z)
  : Py.result MoveSequence.t :=
  generate_scramble draws length.

(** The dictionary [patterns] of [generate_pattern_scramble]. *)
Definition patterns : list (string * string) :=
  [ ("checkerboard", "M2 E2 S2");
    ("cube_in_cube", "F L F U' R U F2 L2 U' L' B D' B' L2 U");
    ("superflip", "R U R' F' R U2 R' U' R U' R' F R2 U' R' U2 R U' R'");
    ("four_spots", "F2 B2 R2 L2 U2 D2");
    ("six_spots", "U D' R L' F B' U D'");
    ("cross", "R2 L2 U2 D2 F2 B2");
    ("plus", "R L' U D' F B'");
    ("h_pattern", "M2 E2 S2");
    ("tetris", "L R F B U D L R");
    ("anaconda", "L U B' U' R L' B R' F B' D R") ]%string.

(** [generate_pattern_scramble] *)
Definition generate_pattern_scramble (pattern_name : string)
  : Py.result MoveSequence.t :=
  match get patterns (Py.lower pattern_name) with
  | None =>
      Py.Raise (Py.ValueError ("Unknown pattern: " ++ pattern_name)%string)
  | Some text => MoveSequence.parse text
  end.

(** The first loop of [is_valid_scramble]: [true] when it runs to its
    end, [false] when it is left by [return False]. *)
Fixpoint adjacent_loop (scramble : MoveSequence.t) (indices : list Z)
  : Py.result bool :=
  match indices with
  | [] => Py.Ok true
  | i :: rest =>
      m <- MoveSequence.__getitem__ scramble i ;;
      current_face <- _get_move_face m ;;
      m <- MoveSequence.__getitem__ scramble (i + 1)%Z ;;
      next_face <- _get_move_face m ;;
      if String.eqb current_face next_face then Py.Ok false
      else adjacent_loop scramble rest
  end.

(** The second loop of [is_valid_scramble]. *)
Fixpoint triple_loop (scramble : MoveSequence.t) (indices : list Z)
  : Py.result bool :=
  match indices with
  | [] => Py.Ok true
  | i :: rest =>
      m <- MoveSequence.__getitem__ scramble i ;;
      face1 <- _get_move_face m ;;
      m <- MoveSequence.__getitem__ scramble (i + 1)%Z ;;
      face2 <- _get_move_face m ;;
      m <- MoveSequence.__getitem__ scramble (i + 2)%Z ;;
      face3 <- _get_move_face m ;;
      if String.eqb face1 face3
         && opt_eqb (get opposite_faces face1) (Some face2)
      then Py.Ok false
      else triple_loop scramble rest
  end.

(** [is_valid_scramble] *)
Definition is_valid_scramble (scramble : MoveSequence.t) : Py.result bool :=
  if (MoveSequence.__len__ scramble =? 0)%Z then Py.Ok true
  else
    ok <- adjacent_loop scramble
            (Py.range (MoveSequence.__len__ scramble - 1)) ;;
    if negb ok then Py.Ok false
    else triple_loop scramble (Py.range (MoveSequence.__len__ scramble - 2)).

(** [scramble_to_string], [scramble_from_string] *)
Definition scramble_to_string (scramble : MoveSequence.t) : string :=
  MoveSequence.str scramble.

Definition scramble_from_string (scramble_str : string)
  : Py.result MoveSequence.t :=
  MoveSequence.parse scramble_str.

End Scramble.

(** ** class ScrambleGenerator *)
Module ScrambleGenerator.

(** The attributes of the object. *)
Record t : Type := Build {
  last_scrambles : list MoveSequence.t;
  max_history : Z
}.

(** [ScrambleGenerator.__init__], the seeding of the random source left
    out. *)
Definition __init__ : t := {| last_scrambles := []; max_history := 100 |}.

(** [scramble in self.last_scrambles], with [MoveSequence.__eq__]. *)
Definition known (scramble : MoveSequence.t) (history : list MoveSequence.t)
  : bool :=
  existsb (fun other =>
             if list_eq_dec Move.eq_dec scramble other then true else false)
          history.

(** The history after [append] and the [pop(0)] that follows it. *)
Definition remember (self : t) (scramble : MoveSequence.t) : t :=
  let history := last_scrambles self ++ [scramble] in
  let history :=
    if (Z.of_nat (List.length history) >? max_history self)%Z
    then tl history else history in
  Build history (max_history self).

(** One call of [generate_scramble] made when [used] draws have been
    taken from the random source: the scramble and the number of draws
    taken after it, two for every move. *)
Definition next_scramble (draws : nat -> nat) (used : nat) (length : Z)
  : Py.result (MoveSequence.t * nat) :=
  scramble <- Scramble.generate_scramble (fun k => draws (used + k)%nat) length ;;
  Py.Ok (scramble, (used + 2 * List.length scramble)%nat).

(** The [while attempts < max_attempts] loop of [generate] and the
    statements after it; [attempts_left] is [max_attempts - attempts]. *)
Fixpoint generate_loop (attempts_left : nat) (self : t) (draws : nat -> nat)
         (used : nat) (length : Z) (avoid_repetition : bool)
  : Py.result (MoveSequence.t * t * nat) :=
  match attempts_left with
  | O =>
      '(scramble, used) <- next_scramble draws used length ;;
      Py.Ok (scramble, remember self scramble, used)
  | S attempts_left' =>
      '(scramble, used) <- next_scramble draws used length ;;
      if negb avoid_repetition || negb (known scramble (last_scrambles self))
      then Py.Ok (scramble, remember self scramble, used)
      else generate_loop attempts_left' self draws used length avoid_repetition
  end.

(** [ScrambleGenerator.generate]: the scramble, the object after the
    call, and the number of draws taken. *)
Definition generate (self : t) (draws : nat -> nat) (used : nat) (length : Z)
           (avoid_repetition : bool)
  : Py.result (MoveSequence.t * t * nat) :=
  generate_loop 50 self draws used length avoid_repetition.

(** [ScrambleGenerator.generate_session]: one [generate] per item of
    [range(count)]. *)
Fixpoint session_loop (count : nat) (self : t) (draws : nat -> nat)
         (used : nat) (length : Z)
  : Py.result (list MoveSequence.t * t * nat) :=
  match count with
  | O => Py.Ok ([], self, used)
  | S count' =>
      '(scramble, self, used) <- generate self draws used length true ;;
      '(scrambles, self, used) <- session_loop count' self draws used length ;;
      Py.Ok (scramble :: scrambles, self, used)
  end.

Definition generate_session (self : t) (draws : nat -> nat) (used : nat)
           (count length : Z)
  : Py.result (list MoveSequence.t * t * nat) :=
  session_loop (Z.to_nat count) self draws used length.

(** [ScrambleGenerator.clear_history] *)
Definition clear_history (self : t) : t := Build [] (max_history self).

End ScrambleGenerator.

(* ===================================================================== *)
(** * cubist/solvers/research_ida.py *)
(* ===================================================================== *)

Module IDAStarSolver.

(** The attributes [__init__] sets that the search reads. *)
Record t : Type := Build {
  max_depth : Z;
  max_time : Z;
  moves : list Move.t
}.

(** [IDAStarSolver.__init__] *)
Definition __init__ : t :=
  {| max_depth := 25;
     max_time := 300;
     moves := [Move.R; Move.Rp; Move.R2; Move.L; Move.Lp; Move.L2;
               Move.U; Move.Up; Move.U2; Move.D; Move.Dp; Move.D2;
               Move.F; Move.Fp; Move.F2; Move.B; Move.Bp; Move.B2] |}.

(** What the search sees of the outside world.  Each time the code looks
    at [self._cancelled], which another thread sets through [cancel()],
    or at the clock, it does so at a new instant; instants are numbered
    from the start of [solve].  [cancelled n] is the flag and [elapsed n]
    the value of [time.time() - start_time], in seconds, at instant
    [n]. *)
Record world : Type := World {
  cancelled : nat -> bool;
  elapsed : nat -> Q
}.

(** [self._cancelled or time.time() - start_time > self.max_time]: the
    clock is only read when the flag is not set.  Returns the answer and
    the next instant. *)
Definition must_stop (self : t) (w : world) (now : nat) : bool * nat :=
  if cancelled w now then (true, S now)
  else (negb (Qle_bool (elapsed w (S now)) (inject_Z (max_time self))),
        S (S now)).

(** [_heuristic].  The orientation entries are [int8] numbers and
    [Py.sum] is their exact sum.  That is what the builtin [sum] returns
    as long as no partial sum leaves the [int8] range (beyond it the
    answer depends on the version of [numpy], which either widens or
    wraps around); on a state of the data model the two sums are at most
    16 and 12. *)
Definition _heuristic (state : CubeState.t) : Z :=
  if CubeState.is_solved state then 0%Z
  else
    let h := 0%Z in
    let corner_twist := Py.sum (CubeState.corner_orient state) in
    let h := if (corner_twist >? 0)%Z
             then Z.max h ((corner_twist + 2) / 3) else h in
    let edge_flip := Py.sum (CubeState.edge_orient state) in
    let h := if (edge_flip >? 0)%Z
             then Z.max h ((edge_flip + 1) / 2) else h in
    let corner_out_of_place :=
      Z.of_nat (List.length
                  (filter (fun '(i, pos) => negb (pos =? i)%Z)
                          (CubeState.enumerate (CubeState.corner_perm state)))) in
    let h := if (corner_out_of_place >? 0)%Z
             then Z.max h ((corner_out_of_place + 2) / 3) else h in
    let edge_out_of_place :=
      Z.of_nat (List.length
                  (filter (fun '(i, pos) => negb (pos =? i)%Z)
                          (CubeState.enumerate (CubeState.edge_perm state)))) in
    let h := if (edge_out_of_place >? 0)%Z
             then Z.max h ((edge_out_of_place + 3) / 4) else h in
    Z.max h 1.

(** [_is_redundant] *)
Definition _is_redundant (move1 move2 : Move.t) : Py.result bool :=
  face1 <- Py.first_char (Move.str move1) ;;
  face2 <- Py.first_char (Move.str move2) ;;
  if String.eqb face1 face2 then Py.Ok true
  else if Scramble.opt_eqb (Scramble.get Scramble.opposite_faces face1) (Some face2)
       then Py.Ok true
       else Py.Ok false.

(** A bound is an integer or [float('inf')]. *)
Inductive bound : Type :=
| Finite (b : Z)
| Infinity.

Definition bound_ltb (x y : bound) : bool :=
  match x, y with
  | Finite a, Finite b => (a <? b)%Z
  | Finite _, Infinity => true
  | Infinity, _ => false
  end.

(** What [_search] returns: a list of moves, or a number. *)
Inductive found : Type :=
| Path (path : list Move.t)
| NewBound (b : bound).

(** [path[-1]] when [path] is not empty. *)
Definition last_of (path : list Move.t) : option Move.t :=
  match rev path with
  | [] => None
  | m :: _ => Some m
  end.

(** The [for move in self.moves] loop of [_search].  [search] stands for
    the recursive call with the arguments that do not change; the
    answer [None] tells that the recursion budget of the model ran out. *)
Fixpoint try_moves
         (search : CubeState.t -> list Move.t -> nat
                   -> option (Py.result (found * nat)))
         (state : CubeState.t) (path : list Move.t)
         (remaining : list Move.t) (min_bound : bound) (now : nat)
  : option (Py.result (found * nat)) :=
  match remaining with
  | [] => Some (Py.Ok (NewBound min_bound, now))
  | move :: rest =>
      match (match last_of path with
             | Some previous => _is_redundant move previous
             | None => Py.Ok false
             end) with
      | Py.Raise e => Some (Py.Raise e)
      | Py.Ok true => try_moves search state path rest min_bound now
      | Py.Ok false =>
          match CubeState.apply move state with
          | Py.Raise e => Some (Py.Raise e)
          | Py.Ok new_state =>
              match search new_state (path ++ [move]) now with
              | None => None
              | Some (Py.Raise e) => Some (Py.Raise e)
              | Some (Py.Ok (Path solution, now)) =>
                  Some (Py.Ok (Path solution, now))
              | Some (Py.Ok (NewBound result, now)) =>
                  try_moves search state path rest
                            (if bound_ltb result min_bound then result
                             else min_bound)
                            now
              end
          end
      end
  end.

(** [_search].  [visited] is the set the callers share: a state is added
    before the loop and removed again on both ways out of it, so at
    every call it holds exactly the states on the way from the start
    state, and it is handed down here as that list.  [budget] bounds the
    depth of the recursion in the model. *)
Fixpoint _search (budget : nat) (self : t) (w : world)
         (state : CubeState.t) (g : Z) (limit : bound)
         (path : list Move.t) (visited : list CubeState.t) (now : nat)
  : option (Py.result (found * nat)) :=
  match budget with
  | O => None
  | S budget' =>
      let '(stop, now) := must_stop self w now in
      if stop then Some (Py.Ok (NewBound Infinity, now))
      else
        let h := _heuristic state in
        let f := (g + h)%Z in
        if bound_ltb limit (Finite f) then Some (Py.Ok (NewBound (Finite f), now))
        else if CubeState.is_solved state then Some (Py.Ok (Path path, now))
        else if existsb (CubeState.eqb state) visited
             then Some (Py.Ok (NewBound Infinity, now))
        else
          try_moves
            (fun new_state new_path now =>
               _search budget' self w new_state (g + 1)%Z limit new_path
                       (state :: visited) now)
            state path (moves self) Infinity now
  end.

Definition cancelled_error : Py.exn := Py.ValueError "Search cancelled by user".
Definition timeout_error : Py.exn := Py.ValueError "Search timeout exceeded".
Definition depth_error : Py.exn :=
  Py.ValueError "No solution found within maximum depth".

(** The [for depth in range(1, self.max_depth + 1)] loop of [solve], with
    no progress callback. *)
Fixpoint solve_loop (depths : nat) (budget : nat) (self : t) (w : world)
         (state : CubeState.t) (limit : bound) (now : nat)
  : option (Py.result MoveSequence.t) :=
  match depths with
  | O => Some (Py.Raise depth_error)
  | S depths' =>
      if cancelled w now then Some (Py.Raise cancelled_error)
      else if negb (Qle_bool (elapsed w (S now)) (inject_Z (max_time self)))
      then Some (Py.Raise timeout_error)
      else
        match _search budget self w state 0%Z limit [] [] (S (S now)) with
        | None => None
        | Some (Py.Raise e) => Some (Py.Raise e)
        | Some (Py.Ok (Path result, _)) => Some (Py.Ok result)
        | Some (Py.Ok (NewBound result, now)) =>
            solve_loop depths' budget self w state result now
        end
  end.

(** [IDAStarSolver.solve].  The flag is cleared and the clock started
    before instant 0. *)
Definition solve (budget : nat) (self : t) (w : world) (state : CubeState.t)
  : option (Py.result MoveSequence.t) :=
  if CubeState.is_solved state then Some (Py.Ok [])
  else
    solve_loop (Z.to_nat (max_depth self)) budget self w state
               (Finite (_heuristic state)) 0.

End IDAStarSolver.

(* ===================================================================== *)
(** * cubist/core/notations.py *)
(* ===================================================================== *)

Module Notations.

(** [a == b] on two lists of [Move] members. *)
Fixpoint moves_equal (a b : list Move.t) : bool :=
  match a, b with
  | [], [] => true
  | x :: a', y :: b' => Move.eqb x y && moves_equal a' b'
  | _, _ => false
  end.

(** [parse_moves], [simplify_sequence], [invert_sequence] *)
Definition parse_moves (notation : string) : Py.result MoveSequence.t :=
  MoveSequence.parse notation.

Definition simplify_sequence (sequence : MoveSequence.t)
  : Py.result MoveSequence.t :=
  MoveSequence.simplify sequence.

Definition invert_sequence (sequence : MoveSequence.t) : MoveSequence.t :=
  MoveSequence.inverse sequence.

(** [format_moves] *)
Definition format_moves (sequence : MoveSequence.t)
           (line_length moves_per_line : Z) : string :=
  if (MoveSequence.__len__ sequence =? 0)%Z then ""%string
  else
    let moves_str := MoveSequence.str sequence in
    let moves_list := Py.split moves_str in
    let '(lines, current_line, current_length) :=
      fold_left
        (fun '(lines, current_line, current_length) move =>
           let move_length :=
             (Z.of_nat (String.length move)
              + match current_line with [] => 0 | _ => 1 end)%Z in
           let '(lines, current_line, current_length) :=
             if (Z.of_nat (List.length current_line) >=? moves_per_line)%Z
                || (current_length + move_length >? line_length)%Z
             then match current_line with
                  | [] => (lines, current_line, current_length)
                  | _ => (lines ++ [Py.join " " current_line], [], 0%Z)
                  end
             else (lines, current_line, current_length) in
           (lines, current_line ++ [move], (current_length + move_length)%Z))
        moves_list ([], [], 0%Z) in
    let lines :=
      match current_line with
      | [] => lines
      | _ => lines ++ [Py.join " " current_line]
      end in
    Py.join (String (ascii_of_nat 10) "") lines.

(** [combine_sequences], called with the sequences in [sequences]. *)
Definition combine_sequences (sequences : list MoveSequence.t)
  : MoveSequence.t :=
  fold_left MoveSequence.extend sequences [].

(** The dictionary [count_moves] returns. *)
Record counts : Type := Counts {
  total : Z;
  quarter_turns : Z;
  half_turns : Z;
  face_counts : list (string * Z)
}.

(** [d[key] += 1] on a dictionary given by its items: [KeyError] when
    there is no such key. *)
Fixpoint increment (items : list (string * Z)) (key : string)
  : Py.result (list (string * Z)) :=
  match items with
  | [] => Py.Raise (Py.KeyError key)
  | (k, v) :: rest =>
      if String.eqb k key then Py.Ok ((k, (v + 1)%Z) :: rest)
      else rest' <- increment rest key ;; Py.Ok ((k, v) :: rest')
  end.

(** [count_moves] *)
Definition count_moves (sequence : MoveSequence.t) : Py.result counts :=
  Py.for_each sequence
    (fun move counts =>
       let move_str := Move.str move in
       face <- Py.first_char move_str ;;
       faces <- increment (face_counts counts) face ;;
       if Py.contains_char "2"%char move_str
       then Py.Ok (Counts (total counts) (quarter_turns counts)
                          (half_turns counts + 1) faces)
       else Py.Ok (Counts (total counts) (quarter_turns counts + 1)
                          (half_turns counts) faces))
    (Counts (MoveSequence.__len__ sequence) 0 0
            [("R", 0); ("L", 0); ("U", 0); ("D", 0); ("F", 0); ("B", 0)]%Z%string).

(** [extract_subsequence]; [end_] is [None] when the argument is left
    out. *)
Definition extract_subsequence (sequence : MoveSequence.t) (start : Z)
           (end_ : option Z) : Py.result MoveSequence.t :=
  let end_ := match end_ with
              | None => MoveSequence.__len__ sequence
              | Some e => e
              end in
  if (start <? 0)%Z || (start >=? MoveSequence.__len__ sequence)%Z then
    Py.Raise (Py.ValueError
      ("Start index " ++ Py.str_int start ++ " out of range")%string)
  else if (end_ <? start)%Z || (end_ >? MoveSequence.__len__ sequence)%Z then
    Py.Raise (Py.ValueError
      ("End index " ++ Py.str_int end_ ++ " out of range")%string)
  else Py.Ok (Py.slice sequence start end_).

(** [find_patterns] *)
Definition find_patterns (sequence pattern : MoveSequence.t) : list Z :=
  if (MoveSequence.__len__ pattern =? 0)%Z
     || (MoveSequence.__len__ pattern >? MoveSequence.__len__ sequence)%Z
  then []
  else
    filter
      (fun i =>
         moves_equal (Py.slice sequence i (i + MoveSequence.__len__ pattern)%Z)
                     pattern)
      (Py.range (MoveSequence.__len__ sequence
                 - MoveSequence.__len__ pattern + 1)%Z).

(** The [while i < len(sequence)] loop of [replace_pattern].  Every
    iteration moves [i] forward, the pattern not being empty, so
    [len(sequence) + 1] tests of the condition always end the loop;
    [tests] counts them down. *)
Fixpoint replace_loop (tests : nat)
         (sequence pattern replacement : MoveSequence.t)
         (i : Z) (result_moves : list Move.t) : Py.result (list Move.t) :=
  match tests with
  | O => Py.Ok result_moves
  | S tests' =>
      if (i <? MoveSequence.__len__ sequence)%Z then
        if (i + MoveSequence.__len__ pattern <=? MoveSequence.__len__ sequence)%Z
           && moves_equal
                (Py.slice sequence i (i + MoveSequence.__len__ pattern)%Z)
                pattern
        then replace_loop tests' sequence pattern replacement
                          (i + MoveSequence.__len__ pattern)%Z
                          (result_moves ++ replacement)
        else
          m <- Py.get_at sequence i ;;
          replace_loop tests' sequence pattern replacement (i + 1)%Z
                       (result_moves ++ [m])
      else Py.Ok result_moves
  end.

(** [replace_pattern] *)
Definition replace_pattern (sequence pattern replacement : MoveSequence.t)
  : Py.result MoveSequence.t :=
  if (MoveSequence.__len__ pattern =? 0)%Z
  then Py.Ok (MoveSequence.copy sequence)
  else replace_loop (S (List.length sequence)) sequence pattern replacement
                    0%Z [].

(** [validate_notation]: the [try] block only catches [ValueError]. *)
Definition validate_notation (notation : string) : Py.result bool :=
  match MoveSequence.parse notation with
  | Py.Ok _ => Py.Ok true
  | Py.Raise (Py.ValueError _) => Py.Ok false
  | Py.Raise e => Py.Raise e
  end.

End Notations.

(* ===================================================================== *)
(** * cubist/solvers/fast_kociemba.py *)
(* ===================================================================== *)

Module FastSolver.

(** [d[key] = value] on a dictionary given by its items: the value of a
    key that is present is replaced, a new key goes to the end. *)
Fixpoint dict_set (items : list (string * string)) (key value : string)
  : list (string * string) :=
  match items with
  | [] => [(key, value)]
  | (k, v) :: rest =>
      if String.eqb k key then (k, value) :: rest
      else (k, v) :: dict_set rest key value
  end.

(** The dictionary display [color_map]: the six items are stored from
    left to right, so of two faces with the same color the later one
    gives the letter. *)
Definition color_map (scheme : ColorScheme.t) : list (string * string) :=
  fold_left (fun items '(key, value) => dict_set items key value)
            [ (ColorScheme.U scheme, "U"); (ColorScheme.R scheme, "R");
              (ColorScheme.F scheme, "F"); (ColorScheme.D scheme, "D");
              (ColorScheme.L scheme, "L"); (ColorScheme.B scheme, "B") ]%string
            [].

(** [FastSolver._convert_to_kociemba_format] *)
Definition _convert_to_kociemba_format (facelets : list string)
           (scheme : ColorScheme.t) : Py.result string :=
  let color_map := color_map scheme in
  kociemba_facelets <-
    Py.map_m
      (fun facelet =>
         match Scramble.get color_map facelet with
         | None =>
             Py.Raise (Py.ValueError
               ("Unknown color in facelets: " ++ facelet)%string)
         | Some letter => Py.Ok letter
         end)
      facelets ;;
  Py.Ok (Py.join "" kociemba_facelets).

End FastSolver.
(* ===================================================================== *)
(** * Predicates used to state the properties *)
(* ===================================================================== *)

Fixpoint space_free (s : string) : bool :=
  match s with
  | EmptyString => true
  | String c s' => negb (Py.isspace c) && space_free s'
  end.

(** A token: non-empty and without white space. *)
Definition is_token (s : string) : bool := negb (Py.is_empty s) && space_free s.


(** ** Coalescing runs of moves, as the specification words it *)
Module SimplifySpec.

(** The letter of a move's notation token: upper case for a face turn,
    lower case for a wide turn. *)
Definition letter (m : Move.t) : ascii :=
  match m with
  | Move.R | Move.Rp | Move.R2 => "R" | Move.L | Move.Lp | Move.L2 => "L"
  | Move.U | Move.Up | Move.U2 => "U" | Move.D | Move.Dp | Move.D2 => "D"
  | Move.F | Move.Fp | Move.F2 => "F" | Move.B | Move.Bp | Move.B2 => "B"
  | Move.r | Move.rp | Move.r2 => "r" | Move.l | Move.lp | Move.l2 => "l"
  | Move.u | Move.up | Move.u2 => "u" | Move.d | Move.dp | Move.d2 => "d"
  | Move.f | Move.fp | Move.f2 => "f" | Move.b | Move.bp | Move.b2 => "b"
  end%char.

(** The face a move turns, wide or not: the upper-case letter. *)
Definition face (m : Move.t) : ascii :=
  match m with
  | Move.R | Move.Rp | Move.R2 | Move.r | Move.rp | Move.r2 => "R"
  | Move.L | Move.Lp | Move.L2 | Move.l | Move.lp | Move.l2 => "L"
  | Move.U | Move.Up | Move.U2 | Move.u | Move.up | Move.u2 => "U"
  | Move.D | Move.Dp | Move.D2 | Move.d | Move.dp | Move.d2 => "D"
  | Move.F | Move.Fp | Move.F2 | Move.f | Move.fp | Move.f2 => "F"
  | Move.B | Move.Bp | Move.B2 | Move.b | Move.bp | Move.b2 => "B"
  end%char.

(** Clockwise quarter turns a move amounts to: 1 for a quarter turn, 2 for
    a half turn, 3 for the inverse quarter turn. *)
Definition quarter_turns (m : Move.t) : Z :=
  match m with
  | Move.R | Move.L | Move.U | Move.D | Move.F | Move.B
  | Move.r | Move.l | Move.u | Move.d | Move.f | Move.b => 1
  | Move.R2 | Move.L2 | Move.U2 | Move.D2 | Move.F2 | Move.B2
  | Move.r2 | Move.l2 | Move.u2 | Move.d2 | Move.f2 | Move.b2 => 2
  | _ => 3
  end%Z.

Definition is_half_turn (m : Move.t) : bool := (quarter_turns m =? 2)%Z.

(** The catalogue move with letter [c] that amounts to [k] quarter turns;
    none when [k] is 0. *)
Definition turn (c : ascii) (k : Z) : option Move.t :=
  find (fun m => Ascii.eqb (letter m) c && (quarter_turns m =? k)%Z)
       Move.catalogue.

(** The maximal runs of literally consecutive moves that [same] relates. *)
Fixpoint runs (same : Move.t -> Move.t -> bool) (ms : list Move.t)
  : list (list Move.t) :=
  match ms with
  | [] => []
  | x :: rest =>
      match runs same rest with
      | (y :: g) :: gs =>
          if same x y then (x :: y :: g) :: gs else [x] :: (y :: g) :: gs
      | _ => [[x]]
      end
  end.

Definition total_turns (run : list Move.t) : Z :=
  (Py.sum (map quarter_turns run) mod 4)%Z.

(** A run collapses to at most one move: total 0 drops it, 1 gives the
    quarter turn, 2 the half turn, 3 the inverse quarter turn. *)
Definition coalesce (run : list Move.t) : list Move.t :=
  match run with
  | [] => []
  | m :: _ =>
      match turn (letter m) (total_turns run) with
      | Some x => [x]
      | None => []
      end
  end.

(** Runs are taken over moves with the same notation letter, so a wide
    move and the face turn of the same face start different runs. *)
Definition same_letter (x y : Move.t) : bool := Ascii.eqb (letter x) (letter y).

(** Runs taken over moves of the same face, wide or not. *)
Definition same_face (x y : Move.t) : bool := Ascii.eqb (face x) (face y).

Definition simplified (ms : list Move.t) : list Move.t :=
  flat_map coalesce (runs same_letter ms).

Definition simplified_by_face (ms : list Move.t) : list Move.t :=
  flat_map coalesce (runs same_face ms).

(** No two adjacent moves have the same notation letter. *)
Fixpoint no_adjacent_same_letter (ms : list Move.t) : bool :=
  match ms with
  | x :: (y :: _) as rest =>
      negb (same_letter x y) && no_adjacent_same_letter rest
  | _ => true
  end.

Fixpoint take_same (x : Move.t) (ms : list Move.t) : list Move.t :=
  match ms with
  | y :: rest => if same_letter x y then y :: take_same x rest else []
  | [] => []
  end.

Fixpoint drop_same (x : Move.t) (ms : list Move.t) : list Move.t :=
  match ms with
  | y :: rest => if same_letter x y then drop_same x rest else ms
  | [] => []
  end.

End SimplifySpec.

(** ** Parity of a permutation *)
Module Parity.

(** How many entries of [l] are below [x], and how many are above. *)
Definition below (x : Z) (l : list Z) : nat :=
  List.length (filter (fun y => (y <? x)%Z) l).

Definition above (x : Z) (l : list Z) : nat :=
  List.length (filter (fun y => (x <? y)%Z) l).

(** The inversions of a list: the pairs of positions whose entries stand
    in the wrong order, the larger entry first.  For each entry, the
    later entries below it are counted. *)
Fixpoint inversions (perm : list Z) : nat :=
  match perm with
  | [] => 0%nat
  | x :: rest => (below x rest + inversions rest)%nat
  end.

(** The parity of a permutation: 0 when it is even, 1 when it is odd.
    A permutation is even when the number of its inversions is even;
    the identity has none, and exchanging two entries changes the
    parity, so this is also the evenness of the number of
    transpositions in any decomposition of the permutation. *)
Definition parity (perm : list Z) : Z :=
  if Nat.even (inversions perm) then 0%Z else 1%Z.

(** The transposition of the positions [i] and [j] applied to [xs]: the
    two entries change places. *)
Definition swap_at (xs : list Z) (i j : nat) : list Z :=
  Py.replace_nth (Py.replace_nth xs i (nth j xs 0%Z)) j (nth i xs 0%Z).

(** The walk of [_permutation_parity] seen as undoing [perm] by
    transpositions.  [q] is what is left of [perm]: every marked
    position is a fixed point of [q], every other position holds what it
    holds in [perm]. *)
Definition settled (perm : list Z) (visited : list bool) (q : list Z) : Prop :=
  List.length visited = List.length perm
  /\ Permutation q perm
  /\ forall k, (k < List.length perm)%nat ->
       nth k q 0%Z
       = if nth k visited true then Z.of_nat k else nth k perm 0%Z.

(** The same in the middle of the cycle that started at [i], when the
    walk stands at [j]: position [i] is marked and holds [j]. *)
Definition walking (perm : list Z) (i : nat) (j : Z) (visited : list bool)
           (q : list Z) : Prop :=
  List.length visited = List.length perm
  /\ Permutation q perm
  /\ (i < List.length perm)%nat
  /\ nth i visited true = true
  /\ (0 <= j < Z.of_nat (List.length perm))%Z
  /\ forall k, (k < List.length perm)%nat ->
       nth k q 0%Z
       = if (k =? i)%nat then j
         else if nth k visited true then Z.of_nat k else nth k perm 0%Z.

(** The positions not marked yet. *)
Definition unvisited (visited : list bool) : nat :=
  List.length (filter negb visited).

End Parity.

(** ** Legal states *)
Module Legal.

Definition in_range (lo hi : Z) (x : Z) : bool := ((lo <=? x) && (x <? hi))%Z.

(** The data model: eight corner entries and twelve edge entries, cubie
    numbers within their index domain, corner orientations in {0,1,2},
    edge orientations in {0,1}. *)
Definition well_typed (s : CubeState.t) : bool :=
  (List.length (CubeState.corner_perm s) =? 8)%nat
  && (List.length (CubeState.corner_orient s) =? 8)%nat
  && (List.length (CubeState.edge_perm s) =? 12)%nat
  && (List.length (CubeState.edge_orient s) =? 12)%nat
  && forallb (in_range 0 8) (CubeState.corner_perm s)
  && forallb (in_range 0 3) (CubeState.corner_orient s)
  && forallb (in_range 0 12) (CubeState.edge_perm s)
  && forallb (in_range 0 2) (CubeState.edge_orient s).

(** Invariant 1: both permutation arrays are bijections on their index
    domains. *)
Definition bijections (s : CubeState.t) : bool :=
  Validators._is_valid_permutation (CubeState.corner_perm s) 8
  && Validators._is_valid_permutation (CubeState.edge_perm s) 12.

(** Invariant 2: the corner orientations add up to a multiple of 3. *)
Definition twist_ok (s : CubeState.t) : bool :=
  (Py.sum (CubeState.corner_orient s) mod 3 =? 0)%Z.

(** Invariant 3: the edge orientations add up to an even number. *)
Definition flip_ok (s : CubeState.t) : bool :=
  (Py.sum (CubeState.edge_orient s) mod 2 =? 0)%Z.

(** Invariant 4: the corner and the edge permutation have the same
    parity. *)
Definition parity_ok (s : CubeState.t) : bool :=
  (Parity.parity (CubeState.corner_perm s)
   =? Parity.parity (CubeState.edge_perm s))%Z.

(** A state of the data model on which the four invariants hold. *)
Definition legal (s : CubeState.t) : bool :=
  well_typed s && bijections s && twist_ok s && flip_ok s && parity_ok s.

(** The four arrays of [s'] hold the entries of the arrays of [s], in
    some order. *)
Definition same_entries (s' s : CubeState.t) : Prop :=
  Permutation (CubeState.corner_perm s') (CubeState.corner_perm s)
  /\ Permutation (CubeState.corner_orient s') (CubeState.corner_orient s)
  /\ Permutation (CubeState.edge_perm s') (CubeState.edge_perm s)
  /\ Permutation (CubeState.edge_orient s') (CubeState.edge_orient s).

(** The entries of [xs] read at the positions [positions]. *)
Definition pick (positions : list Z) (xs : list Z) : list Z :=
  map (fun i => nth (Z.to_nat i) xs 0%Z) positions.

(** A color scheme with six different colors. *)
Definition distinct_colors (c : ColorScheme.t) : Prop :=
  NoDup [ColorScheme.U c; ColorScheme.R c; ColorScheme.F c;
         ColorScheme.D c; ColorScheme.L c; ColorScheme.B c].

End Legal.

(** ** Scramble legality *)
Module ScrambleSpec.

(** The 18 face turns. *)
Definition base_moves : list Move.t :=
  [Move.R; Move.Rp; Move.R2; Move.L; Move.Lp; Move.L2;
   Move.U; Move.Up; Move.U2; Move.D; Move.Dp; Move.D2;
   Move.F; Move.Fp; Move.F2; Move.B; Move.Bp; Move.B2].

Definition is_base (m : Move.t) : bool := existsb (Move.eqb m) base_moves.

Definition opposite (c : ascii) : ascii :=
  (if Ascii.eqb c "R" then "L" else if Ascii.eqb c "L" then "R"
   else if Ascii.eqb c "U" then "D" else if Ascii.eqb c "D" then "U"
   else if Ascii.eqb c "F" then "B" else if Ascii.eqb c "B" then "F"
   else c)%char.

(** No two adjacent moves turn the same face. *)
Fixpoint no_adjacent_same_face (ms : list Move.t) : bool :=
  match ms with
  | x :: (y :: _) as rest =>
      negb (Ascii.eqb (SimplifySpec.face x) (SimplifySpec.face y))
      && no_adjacent_same_face rest
  | _ => true
  end.

(** No three consecutive moves turn a face, then the opposite face, then
    the first face again. *)
Fixpoint no_sandwich (ms : list Move.t) : bool :=
  match ms with
  | x :: (y :: z :: _) as rest =>
      negb (Ascii.eqb (SimplifySpec.face x) (SimplifySpec.face z)
            && Ascii.eqb (opposite (SimplifySpec.face x)) (SimplifySpec.face y))
      && no_sandwich rest
  | _ => true
  end.

Fixpoint last_move (ms : list Move.t) : option Move.t :=
  match ms with
  | [] => None
  | [x] => Some x
  | _ :: rest => last_move rest
  end.

Fixpoint second_last_move (ms : list Move.t) : option Move.t :=
  match ms with
  | [x; _] => Some x
  | _ :: rest => second_last_move rest
  | [] => None
  end.

(** The face of a move as the one-letter string the generator keeps. *)
Definition face_name (m : Move.t) : string := String (SimplifySpec.face m) "".

(** What the loop knows about the moves generated so far. *)
Record tracked (ms : list Move.t) (last_face second_last_face : option string)
  : Prop := {
  tracked_base : forallb is_base ms = true;
  tracked_adjacent : no_adjacent_same_face ms = true;
  tracked_sandwich : no_sandwich ms = true;
  tracked_last : last_face = option_map face_name (last_move ms);
  tracked_second : second_last_face = option_map face_name (second_last_move ms)
}.

(** The letter of [x] names a face and the letter of [y] the face
    opposite to it; never so when [x] is a wide move. *)
Definition opposite_letters (x y : Move.t) : bool :=
  is_base x
  && Ascii.eqb (opposite (SimplifySpec.letter x)) (SimplifySpec.letter y).

(** No three consecutive moves carry a letter, the letter of the
    opposite face, and the first letter again. *)
Fixpoint no_letter_sandwich (ms : list Move.t) : bool :=
  match ms with
  | x :: (y :: z :: _) as rest =>
      negb (Ascii.eqb (SimplifySpec.letter x) (SimplifySpec.letter z)
            && opposite_letters x y)
      && no_letter_sandwich rest
  | _ => true
  end.

(** The generators that calls of [generate] and [clear_history] can
    turn a new [ScrambleGenerator] into. *)
Inductive reachable : ScrambleGenerator.t -> Prop :=
| reach_new : reachable ScrambleGenerator.__init__
| reach_generate self draws used length avoid_repetition scramble self' used' :
    reachable self ->
    ScrambleGenerator.generate self draws used length avoid_repetition
    = Py.Ok (scramble, self', used') ->
    reachable self'
| reach_clear self :
    reachable self -> reachable (ScrambleGenerator.clear_history self).

End ScrambleSpec.

(** ** The heuristic, as the specification words it *)
Module HeuristicSpec.

(** The ceiling of [a / b] for a positive [b]. *)
Definition ceil_div (a b : Z) : Z := (- ((- a) / b))%Z.

(** The number of positions [i], counted from [start], whose entry is not
    [i]. *)
Fixpoint misplaced_from (start : Z) (perm : list Z) : Z :=
  match perm with
  | [] => 0
  | p :: rest =>
      ((if p =? start then 0 else 1) + misplaced_from (start + 1) rest)
  end%Z.

Definition misplaced (perm : list Z) : Z := misplaced_from 0 perm.

(** The largest of the four lower bounds. *)
Definition lower_bound (s : CubeState.t) : Z :=
  Z.max (ceil_div (Py.sum (CubeState.corner_orient s)) 3)
   (Z.max (ceil_div (Py.sum (CubeState.edge_orient s)) 2)
     (Z.max (ceil_div (misplaced (CubeState.corner_perm s)) 3)
            (ceil_div (misplaced (CubeState.edge_perm s)) 4))).

End HeuristicSpec.

(** ** Exceptions that pass through the search *)
Module SearchSpec.

(** [e] is raised by applying some move to some state. *)
Definition raised_by_a_move (e : Py.exn) : Prop :=
  exists m s, CubeState.apply m s = Py.Raise e.


(** The clock shows more than [max_time] seconds at instant [now]. *)
Definition late (self : IDAStarSolver.t) (w : IDAStarSolver.world)
           (now : nat) : Prop :=
  (inject_Z (IDAStarSolver.max_time self) < IDAStarSolver.elapsed w now)%Q.

(** [rounds budget self w state k limit now]: the loop of [solve] has
    been through [k] iterations; each of them found the flag not set
    and the time not used up when it started, and its search ended
    without a solution.  The next iteration starts at instant [now] with
    the bound [limit]. *)
Inductive rounds (budget : nat) (self : IDAStarSolver.t)
          (w : IDAStarSolver.world) (state : CubeState.t)
  : nat -> IDAStarSolver.bound -> nat -> Prop :=
| rounds_none :
    rounds budget self w state 0
           (IDAStarSolver.Finite (IDAStarSolver._heuristic state)) 0
| rounds_more k limit now result now' :
    rounds budget self w state k limit now ->
    IDAStarSolver.cancelled w now = false ->
    ~ late self w (S now) ->
    IDAStarSolver._search budget self w state 0 limit [] [] (S (S now))
    = Some (Py.Ok (IDAStarSolver.NewBound result, now')) ->
    rounds budget self w state (S k) result now'.

(** The three ways in which [solve] gives up, each with its exception:
    the flag is found set when an iteration starts; the flag is not set
    but the time is found used up when an iteration starts; all
    [max_depth] iterations ended without a solution. *)
Inductive stop (budget : nat) (self : IDAStarSolver.t)
          (w : IDAStarSolver.world) (state : CubeState.t) : Py.exn -> Prop :=
| stop_cancelled k limit now :
    rounds budget self w state k limit now ->
    (k < Z.to_nat (IDAStarSolver.max_depth self))%nat ->
    IDAStarSolver.cancelled w now = true ->
    stop budget self w state IDAStarSolver.cancelled_error
| stop_timeout k limit now :
    rounds budget self w state k limit now ->
    (k < Z.to_nat (IDAStarSolver.max_depth self))%nat ->
    IDAStarSolver.cancelled w now = false ->
    late self w (S now) ->
    stop budget self w state IDAStarSolver.timeout_error
| stop_depth limit now :
    rounds budget self w state (Z.to_nat (IDAStarSolver.max_depth self))
           limit now ->
    stop budget self w state IDAStarSolver.depth_error.

End SearchSpec.

(** ** Concrete inputs *)
Module Samples.

(** The solved state after the R body: a state of the data model that is
    not solved. *)
Definition r_turned : CubeState.t :=
  CubeState.Build [3; 1; 2; 7; 0; 5; 6; 4]%Z (repeat 0%Z 8)
                  [8; 1; 2; 3; 11; 5; 6; 7; 4; 9; 10; 0]%Z (repeat 0%Z 12).

(** Nobody cancels and no time passes. *)
Definition world_quiet : IDAStarSolver.world :=
  IDAStarSolver.World (fun _ => false) (fun _ => 0%Q).






(** The solved cube in the default colors, face after face in the order
    U, R, F, D, L, B. *)
Definition solved_facelets : list string :=
  repeat "#FFFFFF"%string 9 ++ repeat "#C41E3A"%string 9
  ++ repeat "#009E60"%string 9 ++ repeat "#FFD500"%string 9
  ++ repeat "#FF5800"%string 9 ++ repeat "#0046AD"%string 9.

End Samples.

(** ** The colors a position shows *)
Module Stickers.

(** The three colors, in table order, of a corner position that holds
    cubie [cubie] with orientation [orient]. *)
Definition corner_stickers (scheme : ColorScheme.t) (cubie orient : Z)
  : list string :=
  let '(sf1, _, sf2, _, sf3, _) :=
    nth (Z.to_nat cubie) CubeState.corner_facelets (0, 0, 0, 0, 0, 0)%nat in
  let solved_colors := [ColorScheme.face_color scheme sf1;
                        ColorScheme.face_color scheme sf2;
                        ColorScheme.face_color scheme sf3] in
  map (fun j => CubeState.cell solved_colors (Z.to_nat ((j - orient) mod 3)))
      [0; 1; 2]%Z.

(** The two colors of an edge position. *)
Definition edge_stickers (scheme : ColorScheme.t) (cubie orient : Z)
  : list string :=
  let '(sf1, _, sf2, _) :=
    nth (Z.to_nat cubie) CubeState.edge_facelets (0, 0, 0, 0)%nat in
  let solved_colors := [ColorScheme.face_color scheme sf1;
                        ColorScheme.face_color scheme sf2] in
  let solved_colors :=
    if (orient =? 1)%Z
    then [CubeState.cell solved_colors 1; CubeState.cell solved_colors 0]
    else solved_colors in
  [CubeState.cell solved_colors 0; CubeState.cell solved_colors 1].

(** The six center colors in face order U, R, F, D, L, B. *)
Definition scheme_centers (scheme : ColorScheme.t) : list string :=
  map (ColorScheme.face_color scheme) (seq 0 6).

(** The color is one of the six colors of the scheme. *)
Definition is_color (scheme : ColorScheme.t) (color : string) : Prop :=
  In color (scheme_centers scheme).

(** The six center facelets of a facelet list, in face order. *)
Definition centers_of (facelets : list string) : list string :=
  map (CubeState.cell facelets) [4; 13; 22; 31; 40; 49]%nat.

(** The default scheme with the down face painted white like the up
    face. *)
Definition two_white_faces : ColorScheme.t :=
  {| ColorScheme.U := "#FFFFFF"; ColorScheme.D := "#FFFFFF";
     ColorScheme.F := "#009E60"; ColorScheme.B := "#0046AD";
     ColorScheme.R := "#C41E3A"; ColorScheme.L := "#FF5800" |}%string.

End Stickers.

(** ** Reports of the validators and of [numpy] *)
Module ValidationSpec.

(** The number recorded for [key], zero when there is no item for it. *)
Fixpoint recorded (key : string) (items : list (string * nat)) : nat :=
  match items with
  | [] => 0
  | (k, n) :: rest => if String.eqb k key then n else recorded key rest
  end.

Definition wrong_count (color : string) (count : nat) : string :=
  ("Color " ++ color ++ " appears " ++ Py.str_nat count ++ " times, expected 9")%string.

Definition report_counts (errors : list string) (items : list (string * nat))
  : list string :=
  fold_left
    (fun errors '(color, count) =>
       if negb (count =? 9)%nat then errors ++ [wrong_count color count]
       else errors)
    items errors.

(** A solved cube in the default colors on which the first sticker of the
    up face was repainted red: white occurs 8 times, red 10 times. *)
Definition repainted_facelets : list string :=
  ("#C41E3A" :: repeat "#FFFFFF" 8 ++ repeat "#C41E3A" 9 ++ repeat "#009E60" 9
   ++ repeat "#FFD500" 9 ++ repeat "#FF5800" 9 ++ repeat "#0046AD" 9)%string.

(** What [validate_facelets] looks at before it compares parities: 54
    facelets in six colors, each color nine times, that decode to a
    state with a valid twist sum and a valid flip sum. *)
Definition checked (facelets : list string) : Prop :=
  List.length facelets = 54%nat
  /\ List.length (nodup string_dec facelets) = 6%nat
  /\ (forall color, In color facelets ->
                    count_occ string_dec facelets color = 9%nat)
  /\ exists s,
       CubeState.from_facelets facelets = Py.Ok s
       /\ Legal.twist_ok s = true /\ Legal.flip_ok s = true.

(** The facelet lists in six colors, each color nine times, that decode
    to a state with a valid twist sum, a valid flip sum and permutations
    of equal parity. *)
Definition acceptable (facelets : list string) : Prop :=
  List.length facelets = 54%nat
  /\ List.length (nodup string_dec facelets) = 6%nat
  /\ (forall color, In color facelets ->
                    count_occ string_dec facelets color = 9%nat)
  /\ exists s,
       CubeState.from_facelets facelets = Py.Ok s
       /\ Legal.twist_ok s = true /\ Legal.flip_ok s = true
       /\ Legal.parity_ok s = true.

(** The permutations that [from_facelets] reads off the list, if it
    reads any, are bijections. *)
Definition decodes_to_bijections (facelets : list string) : Prop :=
  forall s, CubeState.from_facelets facelets = Py.Ok s ->
            Legal.bijections s = true.

(** One when the two colors are the same, zero otherwise. *)
Definition count1 (a color : string) : nat :=
  if string_dec a color then 1%nat else 0%nat.

End ValidationSpec.

(** The exception [bool()] raises on an array of two or more entries. *)
Definition ambiguous_truth : Py.exn :=
  Py.ValueError
    "The truth value of an array with more than one element is ambiguous. Use a.any() or a.all()".


(** ** Texts made of tokens and white space *)
Module TextSpec.

(** Only white space, possibly nothing. *)
Fixpoint blank (s : string) : bool :=
  match s with
  | EmptyString => true
  | String c s' => Py.isspace c && blank s'
  end.

(** A separator: white space, at least one character. *)
Definition is_gap (s : string) : bool := negb (Py.is_empty s) && blank s.

(** The tokens in order, the [i]-th and the next one separated by the
    [i]-th gap, or by one space when the gaps run out. *)
Fixpoint weave (tokens gaps : list string) : string :=
  match tokens with
  | [] => EmptyString
  | [t] => t
  | t :: rest =>
      (t ++ match gaps with g :: _ => g | [] => " " end
         ++ weave rest (tl gaps))%string
  end.


(** The token is one of the 36 notation tokens. *)
Definition is_notation (token : string) : bool :=
  existsb (fun m => String.eqb token (Move.str m)) Move.catalogue.

(** The gap after the first token. *)
Definition gap_or_space (gaps : list string) : string :=
  match gaps with g :: _ => g | [] => " "%string end.

(** What [parse] does with each token. *)
Definition parse_token (token : string) : Py.result Move.t :=
  match Move.from_string token with
  | Py.Ok m => Py.Ok m
  | Py.Raise (Py.ValueError e) =>
      Py.Raise (Py.ValueError ("Invalid move sequence: " ++ e)%string)
  | Py.Raise e => Py.Raise e
  end.

End TextSpec.

(** ** Index lists *)

(** Entries that are positions of the list itself. *)
Definition closed (perm : list Z) : Prop :=
  Forall (fun x => (0 <= x < Z.of_nat (List.length perm))%Z) perm.

(** ** Counting moves *)
Module CountSpec.

(** The keys of [face_counts], in the order of the dictionary. *)
Definition six_faces : list string := ["R"; "L"; "U"; "D"; "F"; "B"]%string.

(** The number of half turns in a sequence. *)
Definition half_turns_of (ms : list Move.t) : Z :=
  Z.of_nat (List.length (filter SimplifySpec.is_half_turn ms)).

End CountSpec.
(* ===================================================================== *)
(** * Properties *)
(* ===================================================================== *)

(** Turn a list of known length into its entries. *)
Ltac explode_list l H :=
  repeat (let x := fresh "x" in
          destruct l as [|x l]; [discriminate H|]);
  destruct l; [|discriminate H]; clear H.

(** ** Notation round trip *)
Section NotationRoundTrip.

Lemma append_assoc (a b c : string) : ((a ++ b) ++ c = a ++ (b ++ c))%string.
Proof. induction a; simpl; congruence. Qed.

Lemma append_empty_r (a : string) : (a ++ "")%string = a.
Proof. induction a; simpl; congruence. Qed.

Lemma rstrip_space_free s : space_free s = true -> Py.rstrip s = s.
Proof.
  induction s as [|c s IH]; simpl; [reflexivity|].
  intros H. apply andb_prop in H as [Hc Hs]. rewrite (IH Hs).
  apply negb_true_iff in Hc. rewrite Hc, andb_false_r. reflexivity.
Qed.

Lemma rstrip_app_token a s :
  is_token s = true -> Py.rstrip (a ++ s) = (a ++ s)%string.
Proof.
  intros H. apply andb_prop in H as [Hne Hs].
  induction a as [|c a IH]; simpl.
  - apply rstrip_space_free, Hs.
  - rewrite IH. destruct (a ++ s)%string eqn:E; [|reflexivity].
    destruct a; simpl in E; [subst s; discriminate | discriminate].
Qed.

Lemma lstrip_token_app s rest :
  is_token s = true -> Py.lstrip (s ++ rest) = (s ++ rest)%string.
Proof.
  destruct s as [|c s]; [discriminate|]. unfold is_token; simpl.
  intros H. apply andb_prop in H as [Hc _]. apply negb_true_iff in Hc.
  now rewrite Hc.
Qed.

Lemma strip_token s : is_token s = true -> Py.strip s = s.
Proof.
  intros H. unfold Py.strip.
  rewrite <- (append_empty_r s) at 1. rewrite lstrip_token_app by assumption.
  rewrite append_empty_r. apply (rstrip_app_token ""%string), H.
Qed.

Lemma split_piece_grows t : forall piece s,
  space_free t = true ->
  Py.re_split_ws_from false piece (t ++ s)
  = Py.re_split_ws_from false (piece ++ t) s.
Proof.
  induction t as [|c t IH]; intros piece s H; simpl.
  - now rewrite append_empty_r.
  - simpl in H. apply andb_prop in H as [Hc Ht]. apply negb_true_iff in Hc.
    rewrite Hc. destruct piece; simpl.
    + rewrite IH by assumption. reflexivity.
    + rewrite IH by assumption. simpl. now rewrite append_assoc.
Qed.

Lemma split_token_start b t s :
  is_token t = true ->
  Py.re_split_ws_from b "" (t ++ s) = Py.re_split_ws_from false t s.
Proof.
  destruct t as [|c t]; [discriminate|]. unfold is_token; simpl.
  intros H. apply andb_prop in H as [Hc Ht]. rewrite negb_true_iff in Hc.
  rewrite Hc. apply (split_piece_grows t (String c "") s Ht).
Qed.

Lemma join_cons2 sep p q rest :
  Py.join sep (p :: q :: rest) = (p ++ sep ++ Py.join sep (q :: rest))%string.
Proof. reflexivity. Qed.

Lemma split_join_tokens ts : forall b t,
  is_token t = true -> forallb is_token ts = true ->
  Py.re_split_ws_from b "" (Py.join " " (t :: ts)) = t :: ts.
Proof.
  induction ts as [|t2 ts IH]; intros b t Ht Hts.
  - simpl. rewrite <- (append_empty_r t) at 1.
    rewrite split_token_start by assumption. reflexivity.
  - rewrite join_cons2. simpl in Hts. apply andb_prop in Hts as [Ht2 Hts].
    rewrite split_token_start by assumption.
    change (" " ++ Py.join " " (t2 :: ts))%string
      with (String " " (Py.join " " (t2 :: ts))).
    simpl Py.re_split_ws_from at 1.
    f_equal. apply IH; assumption.
Qed.

Lemma join_tokens_shape ts t :
  is_token t = true -> forallb is_token ts = true ->
  exists a last, Py.join " " (t :: ts) = (a ++ last)%string
                 /\ is_token last = true.
Proof.
  revert t. induction ts as [|t2 ts IH]; intros t Ht Hts.
  - exists ""%string, t. split; [reflexivity | assumption].
  - simpl in Hts. apply andb_prop in Hts as [Ht2 Hts].
    destruct (IH t2 Ht2 Hts) as (a & last & E & Hl).
    exists (t ++ " " ++ a)%string, last. split; [|assumption].
    rewrite join_cons2, E. now rewrite !append_assoc.
Qed.

Lemma strip_join_tokens ts t :
  is_token t = true -> forallb is_token ts = true ->
  Py.strip (Py.join " " (t :: ts)) = Py.join " " (t :: ts).
Proof.
  intros Ht Hts. unfold Py.strip.
  assert (Hl : Py.lstrip (Py.join " " (t :: ts)) = Py.join " " (t :: ts)).
  { destruct ts as [|t2 ts].
    - simpl. rewrite <- (append_empty_r t) at 1.
      rewrite lstrip_token_app by assumption. apply append_empty_r.
    - rewrite join_cons2. now apply lstrip_token_app. }
  rewrite Hl. destruct (join_tokens_shape ts t Ht Hts) as (a & last & E & H).
  rewrite E. now apply rstrip_app_token.
Qed.

Lemma str_is_token m : is_token (Move.str m) = true.
Proof. destruct m; reflexivity. Qed.

Lemma from_string_str m : Move.from_string (Move.str m) = Py.Ok m.
Proof. destruct m; reflexivity. Qed.

Lemma filter_strip_tokens ts :
  forallb is_token ts = true ->
  map Py.strip (filter (fun token => negb (Py.is_empty (Py.strip token))) ts)
  = ts.
Proof.
  induction ts as [|t ts IH]; simpl; [reflexivity|].
  intros H. apply andb_prop in H as [Ht Hts].
  rewrite (strip_token t Ht).
  assert (Hne : Py.is_empty t = false)
    by (apply andb_prop in Ht as [Hne _]; now apply negb_true_iff in Hne).
  rewrite Hne. simpl. rewrite (strip_token t Ht), (IH Hts). reflexivity.
Qed.

End NotationRoundTrip.

(** C10. Printing a sequence of catalogue moves with [str] and parsing the
    text again with [MoveSequence.parse] returns the same sequence; the
    empty sequence prints as the empty string and parses back to the
    empty sequence. *)
Theorem parse_str_round_trip :
  forall seq : MoveSequence.t,
    MoveSequence.parse (MoveSequence.str seq) = Py.Ok seq
    /\ MoveSequence.str [] = ""%string.
Proof.
  intros seq. split; [|reflexivity].
  unfold MoveSequence.parse, MoveSequence.str.
  destruct seq as [|m seq]; [reflexivity|].
  assert (Hts : forallb is_token (map Move.str seq) = true).
  { apply forallb_forall. intros x Hx. apply in_map_iff in Hx as (y & <- & _).
    apply str_is_token. }
  change (map Move.str (m :: seq)) with (Move.str m :: map Move.str seq).
  rewrite (strip_join_tokens _ _ (str_is_token m) Hts).
  destruct (Py.is_empty (Py.join " " (Move.str m :: map Move.str seq))) eqn:E.
  { exfalso. destruct m, seq; discriminate. }
  unfold Py.re_split_ws.
  rewrite (split_join_tokens _ false _ (str_is_token m) Hts).
  rewrite filter_strip_tokens
    by (simpl; now rewrite str_is_token, Hts).
  change (Move.str m :: map Move.str seq) with (map Move.str (m :: seq)).
  generalize (m :: seq). clear. intros xs.
  induction xs as [|x xs IH]; [reflexivity|].
  cbn [map Py.map_m]. rewrite from_string_str. cbn [Py.bind].
  rewrite IH. reflexivity.
Qed.

(** ** Simplification *)
Section Simplification.

Import SimplifySpec.

Lemma first_char_str m :
  Py.first_char (Move.str m) = Py.Ok (String (letter m) "").
Proof. destruct m; reflexivity. Qed.

Lemma get_face_letter m :
  MoveSequence._get_face m = Py.Ok (String (letter m) "").
Proof. apply first_char_str. Qed.

Lemma turn_count_mod m :
  (MoveSequence._get_turn_count m mod 4 = quarter_turns m mod 4)%Z.
Proof. destruct m; reflexivity. Qed.

Lemma same_letter_eqb x y :
  String.eqb (String (letter y) "") (String (letter x) "") = same_letter x y.
Proof. destruct x, y; reflexivity. Qed.

Lemma same_letter_trans x y z :
  same_letter x y = true -> same_letter x z = same_letter y z.
Proof.
  unfold same_letter. intros H. apply Ascii.eqb_eq in H. now rewrite H.
Qed.

Lemma take_same_ext x y ms :
  same_letter x y = true -> take_same x ms = take_same y ms.
Proof.
  intros H. induction ms as [|z ms IH]; simpl; [reflexivity|].
  rewrite (same_letter_trans _ _ z H), IH. reflexivity.
Qed.

Lemma drop_same_ext x y ms :
  same_letter x y = true -> drop_same x ms = drop_same y ms.
Proof.
  intros H. induction ms as [|z ms IH]; simpl; [reflexivity|].
  rewrite (same_letter_trans _ _ z H), IH. reflexivity.
Qed.

Lemma drop_same_length x ms : (List.length (drop_same x ms) <= List.length ms)%nat.
Proof.
  induction ms as [|y ms IH]; simpl; [lia|].
  destruct (same_letter x y); simpl; lia.
Qed.

(** The first run of a non-empty list is its head followed by the moves
    that share its letter. *)
Lemma runs_cons ms : forall x,
  runs same_letter (x :: ms)
  = (x :: take_same x ms) :: runs same_letter (drop_same x ms).
Proof.
  induction ms as [|y ms IH]; intros x; [reflexivity|].
  change (runs same_letter (x :: y :: ms))
    with (match runs same_letter (y :: ms) with
          | (z :: g) :: gs =>
              if same_letter x z then (x :: z :: g) :: gs
              else [x] :: (z :: g) :: gs
          | _ => [[x]]
          end).
  rewrite (IH y). cbn [take_same drop_same].
  destruct (same_letter x y) eqn:E.
  - now rewrite (take_same_ext _ _ ms E), (drop_same_ext _ _ ms E).
  - now rewrite (IH y).
Qed.

Lemma sum_from xs : forall a, fold_left Z.add xs a = (a + Py.sum xs)%Z.
Proof.
  unfold Py.sum. induction xs as [|x xs IH]; intros a; simpl; [lia|].
  rewrite (IH (a + x)%Z), (IH x). lia.
Qed.

Lemma sum_cons x xs : Py.sum (x :: xs) = (x + Py.sum xs)%Z.
Proof. unfold Py.sum at 1. simpl. apply sum_from. Qed.

(** What the inner loop returns: the moves sharing the letter are added
    up, the others are left for the outer loop. *)
Lemma look_ahead_spec x ms : forall count,
  exists total,
    MoveSequence.look_ahead (String (letter x) "") count ms
    = Py.Ok (total, drop_same x ms)
    /\ (total mod 4
        = (count + Py.sum (map quarter_turns (take_same x ms))) mod 4)%Z.
Proof.
  induction ms as [|y ms IH]; intros count.
  - exists count. split; [reflexivity|]. simpl. f_equal. unfold Py.sum. simpl. lia.
  - cbn [MoveSequence.look_ahead]. rewrite get_face_letter. cbn [Py.bind].
    rewrite same_letter_eqb. cbn [take_same drop_same].
    destruct (same_letter x y).
    + destruct (IH (count + MoveSequence._get_turn_count y)%Z) as (t & E & Ht).
      exists t. split; [exact E|]. rewrite Ht. cbn [map]. rewrite sum_cons.
      rewrite <- Z.add_assoc, (Z.add_mod count), (Z.add_mod count (_ + _)) by lia.
      f_equal. f_equal. rewrite Z.add_mod, turn_count_mod, <- Z.add_mod by lia.
      reflexivity.
    + exists count. split; [reflexivity|]. f_equal. unfold Py.sum; simpl; lia.
Qed.

(** Normalising the total and building the move, as [simplify] does, gives
    the coalesced run. *)
Lemma create_move_spec x k acc :
  (0 <= k < 4)%Z ->
  (if ((if k =? 3 then -1 else k) =? 0)%Z then Py.Ok acc
   else (m <- MoveSequence._create_move (String (letter x) "")
                (if (k =? 3)%Z then (-1)%Z else k) ;;
         Py.Ok (acc ++ [m])))
  = Py.Ok (acc ++ match turn (letter x) k with Some m => [m] | None => [] end).
Proof.
  intros Hk.
  assert (H : (k = 0 \/ k = 1 \/ k = 2 \/ k = 3)%Z) by lia.
  destruct H as [-> | [-> | [-> | ->]]]; destruct x; cbn;
    rewrite ?app_nil_r; reflexivity.
Qed.

Lemma simplify_loop_spec n : forall ms acc,
  (List.length ms <= n)%nat ->
  MoveSequence.simplify_loop n ms acc = Py.Ok (acc ++ simplified ms).
Proof.
  induction n as [|n IH]; intros ms acc Hn.
  - destruct ms; [|simpl in Hn; lia]. simpl. now rewrite app_nil_r.
  - destruct ms as [|x ms]; [simpl; now rewrite app_nil_r|].
    cbn [MoveSequence.simplify_loop]. rewrite get_face_letter. cbn [Py.bind].
    destruct (look_ahead_spec x ms (MoveSequence._get_turn_count x))
      as (t & E & Ht).
    rewrite E. cbn [Py.bind].
    rewrite (create_move_spec x acc (Z.mod_pos_bound t 4 eq_refl)).
    cbn [Py.bind]. rewrite IH.
    2:{ pose proof (drop_same_length x ms). simpl in Hn. lia. }
    unfold simplified. rewrite runs_cons. cbn [flat_map coalesce].
    rewrite <- app_assoc.
    replace (total_turns (x :: take_same x ms)) with (t mod 4)%Z;
      [reflexivity|].
    unfold total_turns. cbn [map]. rewrite sum_cons, Ht.
    rewrite Z.add_mod, turn_count_mod, <- Z.add_mod by lia. reflexivity.
Qed.

(** The simplification cases of the test suite. *)
Example simplify_four_quarter_turns :
  MoveSequence.simplify [Move.R; Move.R; Move.R; Move.R] = Py.Ok [].
Proof. reflexivity. Qed.

Example simplify_three_quarter_turns :
  MoveSequence.simplify [Move.R; Move.R; Move.R] = Py.Ok [Move.Rp].
Proof. reflexivity. Qed.

Example simplify_two_quarter_turns :
  MoveSequence.simplify [Move.R; Move.R] = Py.Ok [Move.R2].
Proof. reflexivity. Qed.

Example simplify_turn_and_inverse :
  MoveSequence.simplify [Move.R; Move.Rp] = Py.Ok [].
Proof. reflexivity. Qed.

Example simplify_wide_run :
  MoveSequence.simplify [Move.r; Move.r; Move.U; Move.r] = Py.Ok [Move.r2; Move.U; Move.r].
Proof. reflexivity. Qed.

End Simplification.

(** C5 (as amended). [simplify] never raises and returns, for every
    sequence, the moves obtained by coalescing each maximal run of
    consecutive moves with the same notation letter: the quarter turns
    of the run are added up modulo 4, and the run becomes nothing, the
    quarter turn, the half turn or the inverse quarter turn of that
    letter. *)
Theorem simplify_coalesces_runs :
  forall seq : MoveSequence.t,
    MoveSequence.simplify seq = Py.Ok (SimplifySpec.simplified seq).
Proof.
  intros [|m seq]; [reflexivity|].
  unfold MoveSequence.simplify.
  now rewrite simplify_loop_spec.
Qed.

(** C5, the stated instance fails: ["R r"] parses to a face turn followed
    by a wide turn, which [simplify] keeps as two moves, whereas runs
    taken by face would leave the single half turn [R2]. *)
Lemma simplify_R_r_keeps_both :
  (seq <- MoveSequence.parse "R r" ;; MoveSequence.simplify seq)
  = Py.Ok [Move.R; Move.r]
  /\ SimplifySpec.simplified_by_face [Move.R; Move.r] = [Move.R2]
  /\ ~ (exists m, (seq <- MoveSequence.parse "R r" ;; MoveSequence.simplify seq)
                  = Py.Ok [m] /\ SimplifySpec.is_half_turn m = true).
Proof.
  split; [reflexivity|]. split; [reflexivity|].
  intros (m & H & _). discriminate H.
Qed.

(** ** Applying moves *)
Section ApplyingMoves.

(** [clone] hands [numpy] arrays to [__init__], which asks for their truth
    value: with two entries or more in [corner_perm], the first array it
    looks at, the call raises. *)
Lemma clone_raises s :
  (2 <= List.length (CubeState.corner_perm s))%nat ->
  CubeState.clone s = Py.Raise ambiguous_truth.
Proof.
  destruct s as [cp co ep eo]. simpl.
  destruct cp as [|a [|b cp]]; simpl; intros H; try lia. reflexivity.
Qed.

(** Every branch of [apply_move] starts with [clone], so on a state with
    at least two corners no move returns a state. *)
Lemma apply_move_raises s m :
  (2 <= List.length (CubeState.corner_perm s))%nat ->
  CubeState.apply_move s m = Py.Raise ambiguous_truth.
Proof.
  intros H. pose proof (clone_raises s H) as E.
  destruct m; unfold CubeState.apply_move, CubeState._apply_r_move,
    CubeState._apply_u_move, CubeState._apply_f_move; rewrite E; reflexivity.
Qed.

(** The dispatch of [apply_move]: the moves on L, D and B and their wide
    variants are sent to [clone] alone, and the wide moves on R, U and F
    to the bodies of the face turns. *)
Lemma apply_move_table s :
  Forall (fun m => CubeState.apply_move s m = CubeState.clone s)
         [Move.L; Move.Lp; Move.L2; Move.D; Move.Dp; Move.D2;
          Move.B; Move.Bp; Move.B2; Move.l; Move.lp; Move.l2;
          Move.d; Move.dp; Move.d2; Move.b; Move.bp; Move.b2]
  /\ Forall (fun '(wide, turn) =>
               CubeState.apply_move s wide = CubeState.apply_move s turn)
            [(Move.r, Move.R); (Move.rp, Move.Rp); (Move.r2, Move.R2);
             (Move.u, Move.U); (Move.up, Move.Up); (Move.u2, Move.U2);
             (Move.f, Move.F); (Move.fp, Move.Fp); (Move.f2, Move.F2)].
Proof. split; repeat constructor. Qed.

Lemma well_typed_lengths s :
  Legal.well_typed s = true ->
  List.length (CubeState.corner_perm s) = 8%nat
  /\ List.length (CubeState.corner_orient s) = 8%nat
  /\ List.length (CubeState.edge_perm s) = 12%nat
  /\ List.length (CubeState.edge_orient s) = 12%nat.
Proof.
  unfold Legal.well_typed. rewrite !andb_true_iff, !Nat.eqb_eq. tauto.
Qed.

(** With the cloning step left out, the R and U bodies are permutations
    of order four of the array entries. *)
Lemma r_turn_order_four s :
  Legal.well_typed s = true ->
  (s1 <- CubeState.r_turn s ;; s2 <- CubeState.r_turn s1 ;;
   s3 <- CubeState.r_turn s2 ;; CubeState.r_turn s3) = Py.Ok s.
Proof.
  intros H. destruct (well_typed_lengths s H) as (H1 & H2 & H3 & H4).
  destruct s as [cp co ep eo]. simpl in H1, H2, H3, H4.
  explode_list cp H1. explode_list co H2.
  explode_list ep H3. explode_list eo H4. reflexivity.
Qed.

Lemma u_turn_order_four s :
  Legal.well_typed s = true ->
  (s1 <- CubeState.u_turn s ;; s2 <- CubeState.u_turn s1 ;;
   s3 <- CubeState.u_turn s2 ;; CubeState.u_turn s3) = Py.Ok s.
Proof.
  intros H. destruct (well_typed_lengths s H) as (H1 & H2 & H3 & H4).
  destruct s as [cp co ep eo]. simpl in H1, H2, H3, H4.
  explode_list cp H1. explode_list co H2.
  explode_list ep H3. explode_list eo H4. reflexivity.
Qed.

(** The F body never keeps the corner orientation sum a multiple of 3:
    it adds one twist to each of four corners. *)
Lemma f_turn_breaks_twist s :
  Legal.well_typed s = true -> Legal.twist_ok s = true ->
  exists s', CubeState.f_turn s = Py.Ok s' /\ Legal.twist_ok s' = false.
Proof.
  intros Ht Hw.
  destruct (well_typed_lengths s Ht) as (L1 & L2 & L3 & L4).
  destruct s as [cp co ep eo].
  cbn [CubeState.corner_perm CubeState.corner_orient
       CubeState.edge_perm CubeState.edge_orient] in *.
  explode_list cp L1. explode_list co L2. explode_list ep L3. explode_list eo L4.
  eexists. split; [reflexivity|].
  unfold Legal.twist_ok in *.
  cbv -[Z.add Z.modulo Z.eqb] in Hw |- *.
  apply Z.eqb_eq in Hw. apply Z.eqb_neq.
  Z.div_mod_to_equations. lia.
Qed.

End ApplyingMoves.

(** C1. The solved state is legal, and [apply_move] returns no state for
    it and the move F: the call raises inside [clone].  The F body by
    itself, run on the solved state, adds one twist to each of the four
    corners it moves, so the corner orientations add up to 4 and the
    result is not legal either. *)
Theorem apply_move_F_not_legal :
  Legal.legal CubeState.solved = true
  /\ CubeState.apply_move CubeState.solved Move.F = Py.Raise ambiguous_truth
  /\ exists s',
       CubeState.f_turn CubeState.solved = Py.Ok s'
       /\ Py.sum (CubeState.corner_orient s') = 4%Z
       /\ Legal.twist_ok s' = false
       /\ Legal.legal s' = false.
Proof.
  split; [reflexivity|]. split; [reflexivity|].
  eexists. split; [reflexivity|]. repeat split; reflexivity.
Qed.

(** C2. For the solved state and the move F, whose inverse is F',
    [apply_move] raises inside [clone], so applying F and then F' does
    not get back to the state.  The F body run four times in a row, which
    is what F followed by F' amounts to, leaves the corners 0, 1, 4 and 5
    twisted: it does not return to the solved state either. *)
Theorem apply_F_then_inverse_not_identity :
  Move.inverse Move.F = Move.Fp
  /\ (s1 <- CubeState.apply_move CubeState.solved Move.F ;;
      CubeState.apply_move s1 (Move.inverse Move.F))
     = Py.Raise ambiguous_truth
  /\ exists s4,
       (s1 <- CubeState.f_turn CubeState.solved ;; s2 <- CubeState.f_turn s1 ;;
        s3 <- CubeState.f_turn s2 ;; CubeState.f_turn s3) = Py.Ok s4
       /\ CubeState.corner_orient s4 = [1; 1; 0; 0; 1; 1; 0; 0]%Z
       /\ CubeState.eqb s4 CubeState.solved = false.
Proof.
  split; [reflexivity|]. split; [reflexivity|].
  eexists. split; [reflexivity|]. split; reflexivity.
Qed.

(** C3. On the solved state each of the nine moves on L, D and B, and
    each wide move, makes [apply_move] raise inside [clone] instead of
    returning a state equal to the one it was given. *)
Theorem apply_move_unimplemented_raises :
  Forall (fun m => CubeState.apply_move CubeState.solved m
                   = Py.Raise ambiguous_truth)
         [Move.L; Move.Lp; Move.L2; Move.D; Move.Dp; Move.D2;
          Move.B; Move.Bp; Move.B2;
          Move.r; Move.rp; Move.r2; Move.l; Move.lp; Move.l2;
          Move.u; Move.up; Move.u2; Move.d; Move.dp; Move.d2;
          Move.f; Move.fp; Move.f2; Move.b; Move.bp; Move.b2].
Proof. repeat constructor. Qed.

(** ** Validation of facelet lists *)
Section FaceletValidation.

Import Validators ValidationSpec.

Lemma recorded_count_up key x items :
  recorded key (count_up x items)
  = (if String.eqb x key then S (recorded key items) else recorded key items).
Proof.
  induction items as [|[k n] items IH]; simpl.
  - reflexivity.
  - destruct (String.eqb k x) eqn:Ekx; simpl.
    + apply String.eqb_eq in Ekx. subst k.
      destruct (String.eqb x key); reflexivity.
    + destruct (String.eqb k key) eqn:Ek; [|exact IH].
      apply String.eqb_eq in Ek. subst k.
      now rewrite String.eqb_sym, Ekx.
Qed.

Lemma recorded_fold xs : forall key items,
  recorded key (fold_left (fun items x => count_up x items) xs items)
  = (count_occ string_dec xs key + recorded key items)%nat.
Proof.
  induction xs as [|x xs IH]; intros key items; simpl; [reflexivity|].
  rewrite IH, recorded_count_up.
  destruct (string_dec x key) as [->|Hne].
  - rewrite String.eqb_refl. lia.
  - apply String.eqb_neq in Hne. rewrite Hne. reflexivity.
Qed.

Lemma recorded_in key items :
  (0 < recorded key items)%nat -> In (key, recorded key items) items.
Proof.
  induction items as [|[k n] items IH]; simpl; [lia|].
  destruct (String.eqb k key) eqn:E.
  - apply String.eqb_eq in E. subst k. now left.
  - intros H. right. now apply IH.
Qed.

(** [Counter] holds an item for every color that occurs, with its number
    of occurrences. *)
Lemma Counter_in xs key :
  (0 < count_occ string_dec xs key)%nat ->
  In (key, count_occ string_dec xs key) (Counter xs).
Proof.
  intros H. pose proof (recorded_fold xs key []) as E. simpl in E.
  rewrite Nat.add_0_r in E. unfold Counter. rewrite <- E.
  apply recorded_in. rewrite E. exact H.
Qed.

Lemma report_counts_keeps items : forall errors e,
  In e errors -> In e (report_counts errors items).
Proof.
  induction items as [|[k n] items IH]; intros errors e H; [exact H|].
  simpl. apply IH. destruct (negb (n =? 9)%nat); [|exact H].
  apply in_or_app. now left.
Qed.

Lemma report_counts_adds items : forall errors color count,
  In (color, count) items -> count <> 9%nat ->
  In (ValidationSpec.wrong_count color count) (report_counts errors items).
Proof.
  induction items as [|[k n] items IH]; intros errors color count H Hne;
    [destruct H|].
  destruct H as [E|H].
  - inversion E; subst. simpl. apply report_counts_keeps.
    apply Nat.eqb_neq in Hne. rewrite Hne. simpl.
    apply in_or_app. right. now left.
  - simpl. now apply IH.
Qed.

End FaceletValidation.

(** C9. A list of 54 facelets in which one color occurs 8 times and
    another 10 times is reported invalid, and the error list returned by
    that one call holds the wrong-count message of each of the two
    colors.  (That there are six colors in all is not needed.) *)
Theorem validate_facelets_reports_both_colors :
  forall (facelets : list string) (c8 c10 : string),
    List.length facelets = 54%nat ->
    count_occ string_dec facelets c8 = 8%nat ->
    count_occ string_dec facelets c10 = 10%nat ->
    exists errors,
      Validators.validate_facelets facelets = Py.Ok (false, errors)
      /\ In (ValidationSpec.wrong_count c8 8) errors
      /\ In (ValidationSpec.wrong_count c10 10) errors.
Proof.
  intros facelets c8 c10 Hlen H8 H10.
  unfold Validators.validate_facelets. rewrite Hlen. cbn [Nat.eqb negb].
  set (errors0 := if negb (List.length (Validators.Counter facelets) =? 6)%nat
                  then _ else _).
  change (fold_left _ (Validators.Counter facelets) errors0)
    with (ValidationSpec.report_counts errors0 (Validators.Counter facelets)).
  assert (I8 : In (ValidationSpec.wrong_count c8 8)
                  (ValidationSpec.report_counts errors0 (Validators.Counter facelets))).
  { apply report_counts_adds; [|lia]. rewrite <- H8. apply Counter_in. lia. }
  assert (I10 : In (ValidationSpec.wrong_count c10 10)
                   (ValidationSpec.report_counts errors0 (Validators.Counter facelets))).
  { apply report_counts_adds; [|lia]. rewrite <- H10. apply Counter_in. lia. }
  destruct (ValidationSpec.report_counts errors0 (Validators.Counter facelets)) as [|e errors]
    eqn:E; [destruct I8|].
  exists (e :: errors). split; [reflexivity|]. split; assumption.
Qed.

Lemma validate_facelets_reports_both_colors_witness :
  List.length ValidationSpec.repainted_facelets = 54%nat
  /\ count_occ string_dec ValidationSpec.repainted_facelets "#FFFFFF"%string = 8%nat
  /\ count_occ string_dec ValidationSpec.repainted_facelets "#C41E3A"%string = 10%nat
  /\ exists errors,
    Validators.validate_facelets ValidationSpec.repainted_facelets = Py.Ok (false, errors)
    /\ In (ValidationSpec.wrong_count "#FFFFFF" 8) errors
    /\ In (ValidationSpec.wrong_count "#C41E3A" 10) errors.
Proof.
  split; [reflexivity|]. split; [reflexivity|]. split; [reflexivity|].
  apply (@validate_facelets_reports_both_colors
           ValidationSpec.repainted_facelets "#FFFFFF" "#C41E3A"); reflexivity.
Defined.

(** ** Scrambles *)
Section Scrambles.

Import ScrambleSpec.

Lemma choice_in {A} (xs : list A) (d : nat) :
  xs <> [] -> exists x, Scramble.choice xs d = Py.Ok x /\ In x xs.
Proof.
  intros Hne. unfold Scramble.choice.
  assert (Hlt : (d mod List.length xs < List.length xs)%nat).
  { apply Nat.mod_upper_bound. destruct xs; [congruence | simpl; lia]. }
  destruct (nth_error xs (d mod List.length xs)) as [x|] eqn:E.
  - exists x. split; [reflexivity|]. eapply nth_error_In, E.
  - apply nth_error_None in E. lia.
Qed.

Lemma last_move_snoc ms m : last_move (ms ++ [m]) = Some m.
Proof.
  induction ms as [|x ms IH]; [reflexivity|].
  simpl. destruct (ms ++ [m]) eqn:E; [destruct ms; discriminate | exact IH].
Qed.

Lemma second_last_move_snoc ms m :
  second_last_move (ms ++ [m]) = last_move ms.
Proof.
  induction ms as [|x ms IH]; [reflexivity|].
  destruct ms as [|y ms]; [reflexivity|].
  change (second_last_move (x :: (y :: ms) ++ [m]))
    with (match (y :: ms) ++ [m] with
          | [_] => Some x
          | _ => second_last_move ((y :: ms) ++ [m])
          end).
  destruct ms as [|z ms]; [reflexivity|]. exact IH.
Qed.

Lemma no_adjacent_snoc ms m :
  no_adjacent_same_face ms = true ->
  match last_move ms with
  | Some x => Ascii.eqb (SimplifySpec.face x) (SimplifySpec.face m) = false
  | None => True
  end ->
  no_adjacent_same_face (ms ++ [m]) = true.
Proof.
  induction ms as [|x ms IH]; intros Hms Hlast; [reflexivity|].
  destruct ms as [|y ms].
  - simpl in *. now rewrite Hlast.
  - change (no_adjacent_same_face (x :: y :: ms))
      with (negb (Ascii.eqb (SimplifySpec.face x) (SimplifySpec.face y))
            && no_adjacent_same_face (y :: ms)) in Hms.
    apply andb_prop in Hms as [Hxy Hrest].
    change (no_adjacent_same_face ((x :: y :: ms) ++ [m]))
      with (negb (Ascii.eqb (SimplifySpec.face x) (SimplifySpec.face y))
            && no_adjacent_same_face ((y :: ms) ++ [m])).
    rewrite Hxy. apply IH; assumption.
Qed.

Lemma no_sandwich_snoc ms m :
  no_sandwich ms = true ->
  match second_last_move ms, last_move ms with
  | Some y, Some x =>
      Ascii.eqb (SimplifySpec.face y) (SimplifySpec.face m)
      && Ascii.eqb (opposite (SimplifySpec.face y)) (SimplifySpec.face x) = false
  | _, _ => True
  end ->
  no_sandwich (ms ++ [m]) = true.
Proof.
  induction ms as [|x ms IH]; intros Hms Hlast; [reflexivity|].
  destruct ms as [|y ms]; [reflexivity|].
  destruct ms as [|z ms].
  - simpl in *. now rewrite Hlast.
  - change (no_sandwich (x :: y :: z :: ms))
      with (negb (Ascii.eqb (SimplifySpec.face x) (SimplifySpec.face z)
                  && Ascii.eqb (opposite (SimplifySpec.face x)) (SimplifySpec.face y))
            && no_sandwich (y :: z :: ms)) in Hms.
    apply andb_prop in Hms as [Hxyz Hrest].
    change (no_sandwich ((x :: y :: z :: ms) ++ [m]))
      with (negb (Ascii.eqb (SimplifySpec.face x) (SimplifySpec.face z)
                  && Ascii.eqb (opposite (SimplifySpec.face x)) (SimplifySpec.face y))
            && no_sandwich ((y :: z :: ms) ++ [m])).
    rewrite Hxyz. apply IH; [assumption|].
    destruct ms; exact Hlast.
Qed.

Lemma valid_faces_checked :
  forallb
    (fun x =>
       forallb
         (fun y =>
            match Scramble.valid_faces (option_map face_name x)
                                       (option_map face_name y) with
            | [] => false
            | _ => true
            end)
         (None :: map Some Move.catalogue))
    (None :: map Some Move.catalogue) = true.
Proof. vm_compute. reflexivity. Qed.

Lemma in_all_moves (x : option Move.t) : In x (None :: map Some Move.catalogue).
Proof. destruct x as [[]|]; simpl; tauto. Qed.

(** Whatever the last two faces were, at least four faces remain to
    choose from. *)
Lemma valid_faces_nonempty ms last_face second_last_face :
  tracked ms last_face second_last_face ->
  Scramble.valid_faces last_face second_last_face <> [].
Proof.
  intros [_ _ _ -> ->].
  pose proof valid_faces_checked as H.
  rewrite forallb_forall in H. specialize (H _ (in_all_moves (last_move ms))).
  rewrite forallb_forall in H.
  specialize (H _ (in_all_moves (second_last_move ms))).
  destruct (Scramble.valid_faces _ _); [discriminate H | discriminate].
Qed.

Lemma chosen_move_of_face face d :
  In face (map fst Scramble.move_groups) ->
  exists m,
    match Scramble.get Scramble.move_groups face with
    | Some group => Scramble.choice group d
    | None => Py.Raise (Py.KeyError face)
    end = Py.Ok m
    /\ is_base m = true /\ face_name m = face
    /\ Scramble.get Scramble.opposite_faces face
       = Some (String (opposite (SimplifySpec.face m)) "").
Proof.
  intros Hin. simpl in Hin.
  assert (Hgroup : forall g : list Move.t, g <> [] ->
            exists m, Scramble.choice g d = Py.Ok m /\ In m g)
    by (intros g; apply choice_in).
  destruct Hin as [<-|[<-|[<-|[<-|[<-|[<-|[]]]]]]]; cbn [Scramble.get Scramble.move_groups String.eqb Ascii.eqb Bool.eqb];
    match goal with |- context [Scramble.choice ?g d] =>
      destruct (Hgroup g ltac:(discriminate)) as (m & -> & Hm) end;
    exists m; (split; [reflexivity|]);
    simpl in Hm; destruct Hm as [<-|[<-|[<-|[]]]]; repeat split; reflexivity.
Qed.

Lemma ascii_string_eqb a b :
  String.eqb (String a "") (String b "") = Ascii.eqb a b.
Proof. simpl. destruct (Ascii.eqb a b); reflexivity. Qed.

Lemma scramble_loop_tracked draws steps : forall k last_face second_last_face ms,
  tracked ms last_face second_last_face ->
  exists moves,
    Scramble.scramble_loop draws steps k last_face second_last_face ms
    = Py.Ok moves
    /\ List.length moves = (List.length ms + steps)%nat
    /\ forallb is_base moves = true
    /\ no_adjacent_same_face moves = true
    /\ no_sandwich moves = true.
Proof.
  induction steps as [|steps IH]; intros k last_face second_last_face ms T.
  - exists ms. destruct T. simpl. rewrite Nat.add_0_r. auto.
  - cbn [Scramble.scramble_loop].
    destruct (choice_in (draws k) (valid_faces_nonempty T)) as (face & -> & Hface).
    cbn [Py.bind].
    apply filter_In in Hface as [Hin Hkeep].
    destruct (chosen_move_of_face (draws (S k)) Hin) as (m & -> & Hbase & Hname & Hopp).
    cbn [Py.bind].
    assert (T' : tracked (ms ++ [m]) (Some face) last_face).
    { destruct T as [Hb Ha Hs Hl Hsl]. subst face. constructor.
      - rewrite forallb_app, Hb. simpl. now rewrite Hbase.
      - apply no_adjacent_snoc; [assumption|].
        rewrite Hl in Hkeep. destruct (last_move ms) as [x|]; [|exact I].
        cbn [option_map Scramble.opt_eqb] in Hkeep. unfold face_name in Hkeep.
        rewrite ascii_string_eqb in Hkeep.
        rewrite Ascii.eqb_sym.
        destruct (Ascii.eqb (SimplifySpec.face m) (SimplifySpec.face x));
          [discriminate Hkeep | reflexivity].
      - apply no_sandwich_snoc; [assumption|].
        rewrite Hl, Hsl, Hopp in Hkeep.
        destruct (second_last_move ms) as [y|]; [|exact I].
        destruct (last_move ms) as [x|]; [|exact I].
        cbn [option_map Scramble.opt_eqb andb] in Hkeep. unfold face_name in Hkeep.
        rewrite !ascii_string_eqb in Hkeep.
        destruct (Ascii.eqb (SimplifySpec.face m) (SimplifySpec.face x));
          [discriminate Hkeep|].
        rewrite (Ascii.eqb_sym (SimplifySpec.face y)).
        destruct (Ascii.eqb (SimplifySpec.face m) (SimplifySpec.face y)) eqn:E;
          [|reflexivity].
        apply Ascii.eqb_eq in E. rewrite <- E. cbn [andb].
        destruct (Ascii.eqb (opposite (SimplifySpec.face m)) (SimplifySpec.face x));
          [discriminate Hkeep | reflexivity].
      - now rewrite last_move_snoc.
      - now rewrite second_last_move_snoc. }
    destruct (IH (S (S k)) _ _ _ T') as (moves & E & Hlen & Hrest).
    exists moves. split; [exact E|]. split; [|exact Hrest].
    rewrite Hlen, length_app. simpl. lia.
Qed.

End Scrambles.

(** C6. Whatever the random draws, [generate_scramble] returns a sequence
    and does not raise; the sequence has [length] moves when [length] is
    at least 1 and none when [length] is 0 or negative; its moves are
    face turns, no two adjacent ones on the same face, and no three
    consecutive ones form the pattern face, opposite face, same face. *)
Theorem generate_scramble_legal :
  forall (draws : nat -> nat) (length : Z),
    exists moves,
      Scramble.generate_scramble draws length = Py.Ok moves
      /\ Z.of_nat (List.length moves) = Z.max 0 length
      /\ forallb ScrambleSpec.is_base moves = true
      /\ ScrambleSpec.no_adjacent_same_face moves = true
      /\ ScrambleSpec.no_sandwich moves = true.
Proof.
  intros draws length. unfold Scramble.generate_scramble.
  destruct (length <=? 0)%Z eqn:E.
  - exists []. apply Z.leb_le in E. repeat split. simpl. lia.
  - apply Z.leb_gt in E.
    destruct (@scramble_loop_tracked draws (Z.to_nat length) 0 None None [])
      as (moves & Hm & Hlen & Hrest).
    { constructor; reflexivity. }
    exists moves. split; [exact Hm|]. split; [|exact Hrest].
    rewrite Hlen. simpl. lia.
Qed.

(** ** The search heuristic *)
Section Heuristic.

Import HeuristicSpec.

Lemma array_equal_eq a : forall b, CubeState.array_equal a b = true <-> a = b.
Proof.
  induction a as [|x a IH]; intros [|y b]; simpl; split; intros H;
    try reflexivity; try discriminate.
  - apply andb_prop in H as [Hxy Hab]. apply Z.eqb_eq in Hxy.
    apply IH in Hab. congruence.
  - inversion H; subst. rewrite Z.eqb_refl. simpl. now apply IH.
Qed.

Lemma is_solved_iff s : CubeState.is_solved s = true <-> s = CubeState.solved.
Proof.
  unfold CubeState.is_solved. rewrite !andb_true_iff, !array_equal_eq.
  destruct s as [cp co ep eo]. unfold CubeState.solved. simpl. split.
  - intros [[[-> ->] ->] ->]. reflexivity.
  - intros H. inversion H. auto.
Qed.

Lemma misplaced_enumerate_from perm : forall start,
  Z.of_nat (List.length
              (filter (fun '(i, pos) => negb (pos =? i)%Z)
                      (combine (map Z.of_nat (seq start (List.length perm))) perm)))
  = misplaced_from (Z.of_nat start) perm.
Proof.
  induction perm as [|p perm IH]; intros start; [reflexivity|].
  cbn [List.length seq map combine filter misplaced_from].
  replace (Z.of_nat start + 1)%Z with (Z.of_nat (S start)) by lia.
  rewrite <- IH.
  destruct (p =? Z.of_nat start)%Z; cbn [negb List.length]; lia.
Qed.

Lemma misplaced_enumerate perm :
  Z.of_nat (List.length
              (filter (fun '(i, pos) => negb (pos =? i)%Z)
                      (CubeState.enumerate perm)))
  = misplaced perm.
Proof. apply (misplaced_enumerate_from perm 0). Qed.

Lemma heuristic_unsolved s :
  CubeState.is_solved s = false ->
  IDAStarSolver._heuristic s = Z.max 1 (lower_bound s).
Proof.
  intros H. unfold IDAStarSolver._heuristic, lower_bound, ceil_div.
  rewrite H, !misplaced_enumerate.
  generalize (Py.sum (CubeState.corner_orient s)) as a.
  generalize (Py.sum (CubeState.edge_orient s)) as b.
  generalize (misplaced (CubeState.corner_perm s)) as c.
  generalize (misplaced (CubeState.edge_perm s)) as d.
  intros d c b a. cbv zeta.
  destruct (Z.gtb_spec a 0); destruct (Z.gtb_spec b 0);
    destruct (Z.gtb_spec c 0); destruct (Z.gtb_spec d 0);
    Z.div_mod_to_equations; lia.
Qed.

End Heuristic.

(** C8. On every state of the data model [_heuristic] is 0 exactly on
    the solved state; on every other state it is the largest of 1 and
    the four ceilings (corner orientation sum over 3, edge orientation
    sum over 2, misplaced corners over 3, misplaced edges over 4), hence
    at least 1. *)
Theorem heuristic_zero_iff_solved_else_max :
  forall s : CubeState.t,
    Legal.well_typed s = true ->
    (IDAStarSolver._heuristic s = 0%Z <-> s = CubeState.solved)
    /\ IDAStarSolver._heuristic s
       = (if CubeState.is_solved s then 0%Z
          else Z.max 1 (HeuristicSpec.lower_bound s))
    /\ (s = CubeState.solved \/ (1 <= IDAStarSolver._heuristic s)%Z).
Proof.
  intros s _. destruct (CubeState.is_solved s) eqn:E.
  - apply is_solved_iff in E as Es. subst s. repeat split; auto.
  - rewrite (heuristic_unsolved s E).
    assert (Hne : s <> CubeState.solved).
    { intros Hs. apply is_solved_iff in Hs. congruence. }
    split; [|split].
    + split; [lia | intros Hs; contradiction].
    + reflexivity.
    + right. lia.
Qed.

(** The R-turned cube: four corners and four edges are out of place,
    the estimate is 2. *)
Lemma heuristic_zero_iff_solved_else_max_witness :
  Legal.well_typed Samples.r_turned = true
  /\ IDAStarSolver._heuristic Samples.r_turned
     = Z.max 1 (HeuristicSpec.lower_bound Samples.r_turned)
  /\ IDAStarSolver._heuristic Samples.r_turned = 2%Z.
Proof.
  split; [reflexivity|].
  destruct (@heuristic_zero_iff_solved_else_max Samples.r_turned eq_refl)
    as (_ & E & _).
  split; [exact E | reflexivity].
Defined.

(** ** Where the exceptions of the search come from *)
Section SearchOrigin.

Import IDAStarSolver SearchSpec.

Lemma is_redundant_total move previous :
  exists b, _is_redundant move previous = Py.Ok b.
Proof.
  unfold _is_redundant.
  rewrite (first_char_str move), (first_char_str previous). cbn [Py.bind].
  repeat match goal with |- context [if ?c then _ else _] => destruct c end;
    eexists; reflexivity.
Qed.

Lemma try_moves_origin search state path e :
  (forall st p n, search st p n = Some (Py.Raise e) -> raised_by_a_move e) ->
  forall remaining min_bound now,
    try_moves search state path remaining min_bound now = Some (Py.Raise e) ->
    raised_by_a_move e.
Proof.
  intros Hs. induction remaining as [|move rest IH]; intros min_bound now H.
  - discriminate H.
  - cbn [try_moves] in H.
    assert (Hskip : exists b,
               match last_of path with
               | Some previous => _is_redundant move previous
               | None => Py.Ok false
               end = Py.Ok b).
    { destruct (last_of path); [apply is_redundant_total | now exists false]. }
    destruct Hskip as [b Eb]. rewrite Eb in H. destruct b; [eapply IH, H|].
    destruct (CubeState.apply move state) as [new_state|e'] eqn:Ea.
    + destruct (search new_state (path ++ [move]) now) as [[[[p|b] n]|e']|] eqn:Er;
        try discriminate H.
      * eapply IH, H.
      * inversion H; subst. eapply Hs, Er.
    + inversion H; subst. now exists move, state.
Qed.

Lemma search_origin self w e budget : forall state g limit path visited now,
  _search budget self w state g limit path visited now = Some (Py.Raise e) ->
  raised_by_a_move e.
Proof.
  induction budget as [|budget IH]; intros state g limit path visited now H.
  - discriminate H.
  - cbn [_search] in H. destruct (must_stop self w now) as [stop now'].
    destruct stop; [discriminate H|].
    destruct (bound_ltb limit _); [discriminate H|].
    destruct (CubeState.is_solved state); [discriminate H|].
    destruct (existsb _ visited); [discriminate H|].
    eapply try_moves_origin; [|exact H].
    intros st p n Hr. eapply IH, Hr.
Qed.

(** Whenever [solve] ends with an exception, it is one of the three it
    raises itself or one that applying a move raised. *)
Lemma solve_origin budget self w state r :
  solve budget self w state = Some r ->
  match r with
  | Py.Ok _ => True
  | Py.Raise e =>
      e = cancelled_error \/ e = timeout_error \/ e = depth_error
      \/ raised_by_a_move e
  end.
Proof.
  unfold solve. destruct (CubeState.is_solved state).
  { intros H. inversion H. exact I. }
  generalize (Finite (_heuristic state)) as limit. generalize 0%nat as now.
  induction (Z.to_nat (max_depth self)) as [|depths IH]; intros now limit H.
  - inversion H. auto.
  - cbn [solve_loop] in H. destruct (cancelled w now).
    { inversion H. auto. }
    destruct (negb _).
    { inversion H. auto. }
    destruct (_search budget self w state 0 limit [] [] (S (S now)))
      as [[[[p|b] n]|e]|] eqn:Es; try discriminate H.
    + inversion H. exact I.
    + eapply IH, H.
    + inversion H; subst. do 3 right. eapply search_origin, Es.
Qed.
End SearchOrigin.

(** ** Outcomes of the search *)
Section SearchOutcomes.

Import IDAStarSolver.

Variable self : IDAStarSolver.t.
Variable w : IDAStarSolver.world.
Variable state : CubeState.t.
Hypothesis two_corners : (2 <= List.length (CubeState.corner_perm state))%nat.




End SearchOutcomes.

(** ** What the search returns and when it gives up *)
Section SearchSound.

Import IDAStarSolver SearchSpec.

Variable self : IDAStarSolver.t.
Variable w : IDAStarSolver.world.
Variable root : CubeState.t.






Variable budget : nat.





End SearchSound.




(** ** Facelet round trip *)
Section FaceletRoundTrip.

Import CubeState Stickers.


Lemma distinct_eqb (xs : list string) :
  NoDup xs ->
  forall i j, (i < List.length xs)%nat -> (j < List.length xs)%nat -> i <> j ->
  String.eqb (nth i xs ""%string) (nth j xs ""%string) = false.
Proof.
  intros H i j Hi Hj Hij. apply String.eqb_neq. intros E.
  apply Hij. eapply NoDup_nth; eauto.
Qed.

Ltac range_cases x H :=
  unfold Legal.in_range in H;
  apply andb_prop in H as [?Hlo ?Hhi];
  apply Z.leb_le in Hlo; apply Z.ltb_lt in Hhi.

Lemma find_corner_painted scheme cubie orient :
  Legal.distinct_colors scheme ->
  Legal.in_range 0 8 cubie = true -> Legal.in_range 0 3 orient = true ->
  find_corner (scheme_centers scheme) (corner_stickers scheme cubie orient)
  = Some (cubie, orient).
Proof.
  intros Hd Hc Ho. destruct scheme as [u d f b r l].
  unfold Legal.distinct_colors in Hd. cbn in Hd.
  pose proof (distinct_eqb Hd) as E. cbn [List.length] in E.
  assert (E' : forall i j, (i <? 6)%nat && (j <? 6)%nat && negb (i =? j)%nat = true ->
      String.eqb (nth i [u; r; f; d; l; b] ""%string) (nth j [u; r; f; d; l; b] ""%string) = false).
  { intros i j H. apply andb_prop in H as [H H3]. apply andb_prop in H as [H1 H2].
    apply E; [now apply Nat.ltb_lt | now apply Nat.ltb_lt |].
    apply negb_true_iff in H3. now apply Nat.eqb_neq. }
  pose proof (E' 0 1 eq_refl) as H01. pose proof (E' 0 2 eq_refl) as H02.
  pose proof (E' 0 3 eq_refl) as H03. pose proof (E' 0 4 eq_refl) as H04.
  pose proof (E' 0 5 eq_refl) as H05.
  pose proof (E' 1 0 eq_refl) as H10. pose proof (E' 1 2 eq_refl) as H12.
  pose proof (E' 1 3 eq_refl) as H13. pose proof (E' 1 4 eq_refl) as H14.
  pose proof (E' 1 5 eq_refl) as H15.
  pose proof (E' 2 0 eq_refl) as H20. pose proof (E' 2 1 eq_refl) as H21.
  pose proof (E' 2 3 eq_refl) as H23. pose proof (E' 2 4 eq_refl) as H24.
  pose proof (E' 2 5 eq_refl) as H25.
  pose proof (E' 3 0 eq_refl) as H30. pose proof (E' 3 1 eq_refl) as H31.
  pose proof (E' 3 2 eq_refl) as H32. pose proof (E' 3 4 eq_refl) as H34.
  pose proof (E' 3 5 eq_refl) as H35.
  pose proof (E' 4 0 eq_refl) as H40. pose proof (E' 4 1 eq_refl) as H41.
  pose proof (E' 4 2 eq_refl) as H42. pose proof (E' 4 3 eq_refl) as H43.
  pose proof (E' 4 5 eq_refl) as H45.
  pose proof (E' 5 0 eq_refl) as H50. pose proof (E' 5 1 eq_refl) as H51.
  pose proof (E' 5 2 eq_refl) as H52. pose proof (E' 5 3 eq_refl) as H53.
  pose proof (E' 5 4 eq_refl) as H54.
  cbn [nth] in *. clear E E' Hd.
  range_cases cubie Hc. range_cases orient Ho.
  assert (Hcs : (cubie = 0 \/ cubie = 1 \/ cubie = 2 \/ cubie = 3 \/ cubie = 4
                \/ cubie = 5 \/ cubie = 6 \/ cubie = 7)%Z) by lia.
  assert (Hos : (orient = 0 \/ orient = 1 \/ orient = 2)%Z) by lia.
  clear Hlo Hhi Hlo0 Hhi0.
  destruct Hcs as [-> | [-> | [-> | [-> | [-> | [-> | [-> | ->]]]]]]];
    destruct Hos as [-> | [-> | ->]];
    cbv -[String.eqb];
    rewrite ?String.eqb_refl, ?H01, ?H02, ?H03, ?H04, ?H05, ?H10, ?H12, ?H13, ?H14, ?H15,
      ?H20, ?H21, ?H23, ?H24, ?H25, ?H30, ?H31, ?H32, ?H34, ?H35,
      ?H40, ?H41, ?H42, ?H43, ?H45, ?H50, ?H51, ?H52, ?H53, ?H54;
    reflexivity.
Qed.


Lemma find_edge_painted scheme cubie orient :
  Legal.distinct_colors scheme ->
  Legal.in_range 0 12 cubie = true -> Legal.in_range 0 2 orient = true ->
  find_edge (scheme_centers scheme) (edge_stickers scheme cubie orient)
  = Some (cubie, orient).
Proof.
  intros Hd Hc Ho. destruct scheme as [u d f b r l].
  unfold Legal.distinct_colors in Hd. cbn in Hd.
  pose proof (distinct_eqb Hd) as E. cbn [List.length] in E.
  assert (E' : forall i j, (i <? 6)%nat && (j <? 6)%nat && negb (i =? j)%nat = true ->
      String.eqb (nth i [u; r; f; d; l; b] ""%string) (nth j [u; r; f; d; l; b] ""%string) = false).
  { intros i j H. apply andb_prop in H as [H H3]. apply andb_prop in H as [H1 H2].
    apply E; [now apply Nat.ltb_lt | now apply Nat.ltb_lt |].
    apply negb_true_iff in H3. now apply Nat.eqb_neq. }
  pose proof (E' 0 1 eq_refl) as H01. pose proof (E' 0 2 eq_refl) as H02.
  pose proof (E' 0 3 eq_refl) as H03. pose proof (E' 0 4 eq_refl) as H04.
  pose proof (E' 0 5 eq_refl) as H05.
  pose proof (E' 1 0 eq_refl) as H10. pose proof (E' 1 2 eq_refl) as H12.
  pose proof (E' 1 3 eq_refl) as H13. pose proof (E' 1 4 eq_refl) as H14.
  pose proof (E' 1 5 eq_refl) as H15.
  pose proof (E' 2 0 eq_refl) as H20. pose proof (E' 2 1 eq_refl) as H21.
  pose proof (E' 2 3 eq_refl) as H23. pose proof (E' 2 4 eq_refl) as H24.
  pose proof (E' 2 5 eq_refl) as H25.
  pose proof (E' 3 0 eq_refl) as H30. pose proof (E' 3 1 eq_refl) as H31.
  pose proof (E' 3 2 eq_refl) as H32. pose proof (E' 3 4 eq_refl) as H34.
  pose proof (E' 3 5 eq_refl) as H35.
  pose proof (E' 4 0 eq_refl) as H40. pose proof (E' 4 1 eq_refl) as H41.
  pose proof (E' 4 2 eq_refl) as H42. pose proof (E' 4 3 eq_refl) as H43.
  pose proof (E' 4 5 eq_refl) as H45.
  pose proof (E' 5 0 eq_refl) as H50. pose proof (E' 5 1 eq_refl) as H51.
  pose proof (E' 5 2 eq_refl) as H52. pose proof (E' 5 3 eq_refl) as H53.
  pose proof (E' 5 4 eq_refl) as H54.
  cbn [nth] in *. clear E E' Hd.
  range_cases cubie Hc. range_cases orient Ho.
  assert (Hcs : (cubie = 0 \/ cubie = 1 \/ cubie = 2 \/ cubie = 3 \/ cubie = 4
                \/ cubie = 5 \/ cubie = 6 \/ cubie = 7 \/ cubie = 8 \/ cubie = 9
                \/ cubie = 10 \/ cubie = 11)%Z) by lia.
  assert (Hos : (orient = 0 \/ orient = 1)%Z) by lia.
  clear Hlo Hhi Hlo0 Hhi0.
  destruct Hcs as [-> | [-> | [-> | [-> | [-> | [-> | [-> | [-> | [-> | [-> | [-> | ->]]]]]]]]]]];
    destruct Hos as [-> | ->];
    cbv -[String.eqb];
    rewrite ?String.eqb_refl, ?H01, ?H02, ?H03, ?H04, ?H05, ?H10, ?H12, ?H13, ?H14, ?H15,
      ?H20, ?H21, ?H23, ?H24, ?H25, ?H30, ?H31, ?H32, ?H34, ?H35,
      ?H40, ?H41, ?H42, ?H43, ?H45, ?H50, ?H51, ?H52, ?H53, ?H54;
    reflexivity.
Qed.

Lemma paint_corner_typed s scheme i fl cubie orient :
  Py.array_get (corner_perm s) i = Py.Ok cubie ->
  Py.array_get (corner_orient s) i = Py.Ok orient ->
  Legal.in_range 0 8 cubie = true ->
  paint_corner s scheme i fl
  = Py.Ok (let '(f1, p1, f2, p2, f3, p3) := nth i corner_facelets (0, 0, 0, 0, 0, 0)%nat in
           let st := corner_stickers scheme cubie orient in
           set_cell (set_cell (set_cell fl (f1 * 9 + p1) (cell st 0))
                              (f2 * 9 + p2) (cell st 1))
                    (f3 * 9 + p3) (cell st 2)).
Proof.
  intros H1 H2 Hc. unfold paint_corner. rewrite H1, H2. cbn [Py.bind].
  range_cases cubie Hc.
  assert (Hcs : (cubie = 0 \/ cubie = 1 \/ cubie = 2 \/ cubie = 3 \/ cubie = 4
                \/ cubie = 5 \/ cubie = 6 \/ cubie = 7)%Z) by lia.
  destruct (nth i corner_facelets (0, 0, 0, 0, 0, 0)%nat) as [[[[[f1 p1] f2] p2] f3] p3].
  destruct Hcs as [-> | [-> | [-> | [-> | [-> | [-> | [-> | ->]]]]]]]; reflexivity.
Qed.

Lemma paint_edge_typed s scheme i fl cubie orient :
  Py.array_get (edge_perm s) i = Py.Ok cubie ->
  Py.array_get (edge_orient s) i = Py.Ok orient ->
  Legal.in_range 0 12 cubie = true ->
  paint_edge s scheme i fl
  = Py.Ok (let '(f1, p1, f2, p2) := nth i edge_facelets (0, 0, 0, 0)%nat in
           let st := edge_stickers scheme cubie orient in
           set_cell (set_cell fl (f1 * 9 + p1) (cell st 0))
                    (f2 * 9 + p2) (cell st 1)).
Proof.
  intros H1 H2 Hc. unfold paint_edge. rewrite H1, H2. cbn [Py.bind].
  range_cases cubie Hc.
  assert (Hcs : (cubie = 0 \/ cubie = 1 \/ cubie = 2 \/ cubie = 3 \/ cubie = 4
                \/ cubie = 5 \/ cubie = 6 \/ cubie = 7 \/ cubie = 8 \/ cubie = 9
                \/ cubie = 10 \/ cubie = 11)%Z) by lia.
  destruct (nth i edge_facelets (0, 0, 0, 0)%nat) as [[[f1 p1] f2] p2].
  destruct Hcs as [-> | [-> | [-> | [-> | [-> | [-> | [-> | [-> | [-> | [-> | [-> | ->]]]]]]]]]]];
    unfold edge_stickers; cbn [Py.get_at Py.bind]; destruct (orient =? 1)%Z; reflexivity.
Qed.

Lemma corner_stickers_shape scheme cubie orient :
  exists x y z, corner_stickers scheme cubie orient = [x; y; z].
Proof.
  unfold corner_stickers.
  destruct (nth _ corner_facelets _) as [[[[[f1 p1] f2] p2] f3] p3].
  do 3 eexists. reflexivity.
Qed.

Lemma edge_stickers_shape scheme cubie orient :
  exists x y, edge_stickers scheme cubie orient = [x; y].
Proof.
  unfold edge_stickers.
  destruct (nth _ edge_facelets _) as [[[f1 p1] f2] p2].
  do 2 eexists. reflexivity.
Qed.

Ltac split_ranges H :=
  cbn [forallb] in H;
  repeat (let H' := fresh "R" in apply andb_prop in H as [H' H]); clear H.

Ltac paint_corners :=
  repeat (cbn [Py.for_each Py.bind seq];
    match goal with
    | |- context [paint_corner ?s ?sch ?i ?fl] =>
        let c := eval cbv in (nth i (corner_perm s) 0%Z) in
        let o := eval cbv in (nth i (corner_orient s) 0%Z) in
        rewrite (@paint_corner_typed s sch i fl c o eq_refl eq_refl ltac:(assumption))
    end).

Ltac paint_edges :=
  repeat (cbn [Py.for_each Py.bind seq];
    match goal with
    | |- context [paint_edge ?s ?sch ?i ?fl] =>
        let c := eval cbv in (nth i (edge_perm s) 0%Z) in
        let o := eval cbv in (nth i (edge_orient s) 0%Z) in
        rewrite (@paint_edge_typed s sch i fl c o eq_refl eq_refl ltac:(assumption))
    end).

Lemma round_trip_well_typed s scheme :
  Legal.well_typed s = true -> Legal.distinct_colors scheme ->
  (facelets <- to_facelets s scheme ;; from_facelets facelets) = Py.Ok s.
Proof.
  intros Ht Hd. destruct scheme as [u d f b r l].
  destruct (well_typed_lengths s Ht) as (L1 & L2 & L3 & L4).
  unfold Legal.well_typed in Ht.
  repeat (let H := fresh "T" in apply andb_prop in Ht as [Ht H]). clear Ht.
  destruct s as [cp co ep eo]. cbn [corner_perm corner_orient edge_perm edge_orient] in *.
  explode_list cp L1. explode_list co L2. explode_list ep L3. explode_list eo L4.
  split_ranges T. split_ranges T0. split_ranges T1. split_ranges T2.
  unfold to_facelets.
  paint_corners. paint_edges. cbn [Py.for_each Py.bind].
  repeat match goal with
  | |- context [corner_stickers ?sch ?c ?o] =>
      let K := fresh "K" in
      pose proof (@find_corner_painted sch c o Hd ltac:(assumption) ltac:(assumption)) as K;
      let x := fresh "x" in let y := fresh "y" in let z := fresh "z" in
      let E := fresh "E" in
      destruct (corner_stickers_shape sch c o) as (x & y & z & E);
      rewrite E in K |- *; clear E
  | |- context [edge_stickers ?sch ?c ?o] =>
      let K := fresh "K" in
      pose proof (@find_edge_painted sch c o Hd ltac:(assumption) ltac:(assumption)) as K;
      let x := fresh "x" in let y := fresh "y" in
      let E := fresh "E" in
      destruct (edge_stickers_shape sch c o) as (x & y & E);
      rewrite E in K |- *; clear E
  end.
  change (scheme_centers (ColorScheme.Build u d f b r l)) with [u; r; f; d; l; b] in *.
  match goal with
  | |- from_facelets ?big = _ =>
      let L := eval vm_compute in big in change big with L
  end.
  cbv -[find_corner find_edge].
  repeat match goal with K : _ = Some _ |- _ => rewrite K; clear K end.
  reflexivity.
Qed.


End FaceletRoundTrip.

(** C4 (as amended). For every legal state and every color scheme whose
    six colors are pairwise different, [to_facelets] returns a facelet
    list from which [from_facelets] rebuilds the state. *)
Theorem facelet_round_trip :
  forall (s : CubeState.t) (scheme : ColorScheme.t),
    Legal.legal s = true ->
    Legal.distinct_colors scheme ->
    (facelets <- CubeState.to_facelets s scheme ;;
     CubeState.from_facelets facelets) = Py.Ok s.
Proof.
  intros s scheme Hl Hd. apply round_trip_well_typed; [|exact Hd].
  unfold Legal.legal in Hl. rewrite !andb_true_iff in Hl. tauto.
Qed.

Lemma default_scheme_distinct : Legal.distinct_colors ColorScheme.DEFAULT_SCHEME.
Proof.
  unfold Legal.distinct_colors. simpl.
  repeat constructor; simpl; intuition discriminate.
Qed.

Lemma facelet_round_trip_witness :
  Legal.legal Samples.r_turned = true
  /\ Legal.distinct_colors ColorScheme.DEFAULT_SCHEME
  /\ (facelets <- CubeState.to_facelets Samples.r_turned ColorScheme.DEFAULT_SCHEME ;;
      CubeState.from_facelets facelets) = Py.Ok Samples.r_turned.
Proof.
  split; [reflexivity|]. split; [exact default_scheme_distinct|].
  apply (@facelet_round_trip Samples.r_turned ColorScheme.DEFAULT_SCHEME);
    [reflexivity | exact default_scheme_distinct].
Defined.

(** C4, as stated for every color scheme, fails: a scheme may use one
    color for two faces.  With white on both the up and the down face,
    the solved state, which is legal, comes back with the four down
    edges taken for the up edges. *)
Lemma facelet_round_trip_two_white_faces :
  Legal.legal CubeState.solved = true
  /\ (facelets <- CubeState.to_facelets CubeState.solved Stickers.two_white_faces ;;
      CubeState.from_facelets facelets)
     = Py.Ok (CubeState.Build
                (CubeState.range 8) (repeat 0%Z 8)
                [0; 1; 2; 3; 0; 1; 2; 3; 8; 9; 10; 11]%Z (repeat 0%Z 12))
  /\ (facelets <- CubeState.to_facelets CubeState.solved Stickers.two_white_faces ;;
      CubeState.from_facelets facelets)
     <> Py.Ok CubeState.solved.
Proof.
  split; [reflexivity|]. split; [vm_compute; reflexivity|].
  vm_compute. discriminate.
Qed.

(* ===================================================================== *)
(** * Further properties of the move algebra *)
(* ===================================================================== *)

Section MoveAlgebra.

Import TextSpec.

Lemma move_inverse_involutive m : Move.inverse (Move.inverse m) = m.
Proof. destruct m; reflexivity. Qed.

Lemma lookup_string_map key :
  match Move.lookup key Move.string_map with
  | Some m => key = Move.str m
  | None => forall m, key <> Move.str m
  end.
Proof.
  unfold Move.string_map, Move.catalogue. cbn [map Move.lookup Move.str].
  repeat match goal with
  | |- context [String.eqb key ?k] =>
      destruct (String.eqb_spec key k) as [->|?]; [reflexivity|]
  end.
  intros m. destruct m; assumption.
Qed.

Lemma lstrip_blank_app w s : blank w = true -> Py.lstrip (w ++ s) = Py.lstrip s.
Proof.
  induction w as [|c w IH]; simpl; [reflexivity|].
  intros H. apply andb_prop in H as [Hc Hw]. rewrite Hc. now apply IH.
Qed.

Lemma rstrip_blank w : blank w = true -> Py.rstrip w = ""%string.
Proof.
  induction w as [|c w IH]; simpl; [reflexivity|].
  intros H. apply andb_prop in H as [Hc Hw]. now rewrite (IH Hw), Hc.
Qed.

Lemma rstrip_app_blank s w :
  blank w = true -> Py.rstrip (s ++ w) = Py.rstrip s.
Proof.
  intros H. induction s as [|c s IH]; simpl.
  - now apply rstrip_blank.
  - now rewrite IH.
Qed.

Lemma split_skips_blank w s :
  blank w = true ->
  Py.re_split_ws_from true "" (w ++ s) = Py.re_split_ws_from true "" s.
Proof.
  induction w as [|c w IH]; simpl; [reflexivity|].
  intros H. apply andb_prop in H as [Hc Hw]. rewrite Hc. now apply IH.
Qed.

Lemma split_at_gap piece g s :
  is_gap g = true ->
  Py.re_split_ws_from false piece (g ++ s)
  = piece :: Py.re_split_ws_from true "" s.
Proof.
  destruct g as [|c g]; [discriminate|]. unfold is_gap. simpl.
  intros H. apply andb_prop in H as [Hc Hg]. rewrite Hc.
  now rewrite split_skips_blank.
Qed.

Lemma gap_or_space_is_gap gaps :
  forallb is_gap gaps = true -> is_gap (gap_or_space gaps) = true.
Proof.
  destruct gaps as [|g gaps]; simpl; [reflexivity|].
  intros H. now apply andb_prop in H as [Hg _].
Qed.

Lemma tl_gaps gaps : forallb is_gap gaps = true -> forallb is_gap (tl gaps) = true.
Proof.
  destruct gaps as [|g gaps]; simpl; [reflexivity|].
  intros H. now apply andb_prop in H as [_ Hg].
Qed.

Lemma weave_cons2 t t2 ts gaps :
  weave (t :: t2 :: ts) gaps
  = (t ++ gap_or_space gaps ++ weave (t2 :: ts) (tl gaps))%string.
Proof. reflexivity. Qed.

Lemma split_weave ts : forall b t gaps,
  is_token t = true -> forallb is_token ts = true ->
  forallb is_gap gaps = true ->
  Py.re_split_ws_from b "" (weave (t :: ts) gaps) = t :: ts.
Proof.
  induction ts as [|t2 ts IH]; intros b t gaps Ht Hts Hg.
  - simpl. rewrite <- (append_empty_r t) at 1.
    rewrite split_token_start by assumption. reflexivity.
  - rewrite weave_cons2. simpl in Hts. apply andb_prop in Hts as [Ht2 Hts].
    rewrite split_token_start by assumption.
    rewrite split_at_gap by now apply gap_or_space_is_gap.
    f_equal. apply IH; auto using tl_gaps.
Qed.

Lemma weave_shape ts : forall t gaps,
  is_token t = true -> forallb is_token ts = true ->
  exists a last, weave (t :: ts) gaps = (a ++ last)%string
                 /\ is_token last = true.
Proof.
  induction ts as [|t2 ts IH]; intros t gaps Ht Hts.
  - exists ""%string, t. split; [reflexivity | assumption].
  - simpl in Hts. apply andb_prop in Hts as [Ht2 Hts].
    destruct (IH t2 (tl gaps) Ht2 Hts) as (a & last & E & Hl).
    exists (t ++ gap_or_space gaps ++ a)%string, last. split; [|assumption].
    rewrite weave_cons2, E. now rewrite !append_assoc.
Qed.

Lemma weave_starts_with_token t ts gaps :
  exists rest, weave (t :: ts) gaps = (t ++ rest)%string.
Proof.
  destruct ts as [|t2 ts].
  - exists ""%string. simpl. now rewrite append_empty_r.
  - eexists. apply weave_cons2.
Qed.

(** Around tokens, [strip] removes exactly the padding. *)
Lemma strip_padded_weave padl padr t ts gaps :
  blank padl = true -> blank padr = true ->
  is_token t = true -> forallb is_token ts = true ->
  Py.strip (padl ++ weave (t :: ts) gaps ++ padr) = weave (t :: ts) gaps.
Proof.
  intros Hl Hr Ht Hts. unfold Py.strip.
  rewrite lstrip_blank_app by assumption.
  destruct (weave_starts_with_token t ts gaps) as (rest & E).
  assert (E1 : Py.lstrip (weave (t :: ts) gaps ++ padr)
               = (weave (t :: ts) gaps ++ padr)%string).
  { rewrite E, append_assoc. now apply lstrip_token_app. }
  rewrite E1, rstrip_app_blank by assumption.
  destruct (weave_shape ts t gaps Ht Hts) as (a & last & E2 & Hlast).
  rewrite E2. now apply rstrip_app_token.
Qed.

Lemma weave_not_empty t ts gaps :
  is_token t = true -> Py.is_empty (weave (t :: ts) gaps) = false.
Proof.
  intros Ht. destruct (weave_starts_with_token t ts gaps) as (rest & ->).
  destruct t; [discriminate | reflexivity].
Qed.

(** [parse] splits a padded text into its tokens and parses them in
    order. *)
Lemma parse_padded_weave padl padr t ts gaps :
  blank padl = true -> blank padr = true ->
  is_token t = true -> forallb is_token ts = true ->
  forallb is_gap gaps = true ->
  MoveSequence.parse (padl ++ weave (t :: ts) gaps ++ padr)
  = Py.map_m parse_token (t :: ts).
Proof.
  intros Hl Hr Ht Hts Hg. unfold MoveSequence.parse.
  rewrite strip_padded_weave, weave_not_empty by assumption.
  unfold Py.re_split_ws. rewrite split_weave by assumption.
  rewrite filter_strip_tokens by (simpl; now rewrite Ht, Hts).
  reflexivity.
Qed.

Lemma map_m_parse_tokens ms :
  Py.map_m parse_token (map Move.str ms) = Py.Ok ms.
Proof.
  induction ms as [|m ms IH]; [reflexivity|].
  cbn [map Py.map_m]. unfold parse_token at 1. rewrite from_string_str.
  cbn [Py.bind]. now rewrite IH.
Qed.

Lemma tokens_of_moves ms : forallb is_token (map Move.str ms) = true.
Proof.
  apply forallb_forall. intros x Hx. apply in_map_iff in Hx as (y & <- & _).
  apply str_is_token.
Qed.

End MoveAlgebra.

(** X1. Inverting is an involution: the inverse of the inverse of a move
    is the move, and [inverse] applied twice to a sequence gives the
    sequence back. *)
Theorem inverse_of_inverse :
  forall (m : Move.t) (seq : MoveSequence.t),
    Move.inverse (Move.inverse m) = m
    /\ MoveSequence.inverse (MoveSequence.inverse seq) = seq.
Proof.
  intros m seq. split; [destruct m; reflexivity|].
  unfold MoveSequence.inverse.
  rewrite <- map_rev, rev_involutive, map_map.
  rewrite <- (map_id seq) at 2. apply map_ext. intros x. destruct x; reflexivity.
Qed.

(** X2. [Move.from_string] accepts exactly the 36 notation tokens, with
    white space allowed around them: when it returns a move, the stripped
    text is that move's token; otherwise it raises [ValueError] with the
    stripped text in the message, and the stripped text is no move's
    token.  Case matters: ["r"] is the wide move, not [R]. *)
Theorem from_string_exact :
  forall text : string,
    match Move.from_string text with
    | Py.Ok m => Py.strip text = Move.str m
    | Py.Raise e =>
        e = Py.ValueError ("Invalid move notation: " ++ Py.strip text)%string
        /\ forall m, Py.strip text <> Move.str m
    end.
Proof.
  intros text. unfold Move.from_string.
  pose proof (lookup_string_map (Py.strip text)) as H.
  destruct (Move.lookup (Py.strip text) Move.string_map); [exact H|].
  split; [reflexivity | exact H].
Qed.

(** X3. The amount of white space does not matter to [parse]: the tokens
    of a non-empty sequence, separated by any non-empty runs of white
    space and padded with any white space at both ends, parse to the
    sequence. *)
Theorem parse_any_spacing :
  forall (m : Move.t) (ms : list Move.t) (gaps : list string)
         (padl padr : string),
    TextSpec.blank padl = true -> TextSpec.blank padr = true ->
    forallb TextSpec.is_gap gaps = true ->
    MoveSequence.parse
      (padl ++ TextSpec.weave (map Move.str (m :: ms)) gaps ++ padr)
    = Py.Ok (m :: ms).
Proof.
  intros m ms gaps padl padr Hl Hr Hg.
  change (map Move.str (m :: ms)) with (Move.str m :: map Move.str ms).
  rewrite parse_padded_weave;
    auto using str_is_token, tokens_of_moves.
  apply (map_m_parse_tokens (m :: ms)).
Qed.

Lemma parse_any_spacing_witness :
  MoveSequence.parse
    (String (ascii_of_nat 9) " "
     ++ TextSpec.weave (map Move.str [Move.R; Move.Up; Move.f2])
                       ["  "; String (ascii_of_nat 10) ""]
     ++ "  ")%string
  = Py.Ok [Move.R; Move.Up; Move.f2].
Proof.
  apply (@parse_any_spacing Move.R [Move.Up; Move.f2]
           ["  "%string; String (ascii_of_nat 10) ""]
           (String (ascii_of_nat 9) " ") "  "%string); reflexivity.
Defined.

(** X4. [parse] stops at the first token that is not a notation token and
    raises [ValueError] naming it, whatever follows. *)
Theorem parse_reports_first_bad_token :
  forall (ms : list Move.t) (bad : string) (rest gaps : list string)
         (padl padr : string),
    TextSpec.blank padl = true -> TextSpec.blank padr = true ->
    forallb TextSpec.is_gap gaps = true ->
    is_token bad = true -> TextSpec.is_notation bad = false ->
    forallb is_token rest = true ->
    MoveSequence.parse
      (padl ++ TextSpec.weave (map Move.str ms ++ bad :: rest) gaps ++ padr)
    = Py.Raise
        (Py.ValueError
           ("Invalid move sequence: Invalid move notation: " ++ bad)%string).
Proof.
  intros ms bad rest gaps padl padr Hl Hr Hg Hb Hn Hrest.
  assert (Hbad : TextSpec.parse_token bad
                 = Py.Raise (Py.ValueError
                      ("Invalid move sequence: Invalid move notation: " ++ bad)%string)).
  { unfold TextSpec.parse_token, Move.from_string. rewrite (strip_token bad Hb).
    pose proof (lookup_string_map bad) as H.
    destruct (Move.lookup bad Move.string_map) as [m|]; [|reflexivity].
    exfalso. unfold TextSpec.is_notation in Hn.
    assert (Hex : existsb (fun m => String.eqb bad (Move.str m)) Move.catalogue = true).
    { apply existsb_exists. exists m. split; [|subst bad; apply String.eqb_refl].
      destruct m; simpl; tauto. }
    congruence. }
  assert (Hall : forallb is_token (map Move.str ms ++ bad :: rest) = true).
  { rewrite forallb_app, tokens_of_moves. simpl. now rewrite Hb, Hrest. }
  destruct (map Move.str ms ++ bad :: rest) as [|t ts] eqn:E.
  { destruct ms; discriminate E. }
  simpl in Hall. apply andb_prop in Hall as [Ht Hts].
  rewrite parse_padded_weave by assumption. rewrite <- E.
  clear E Ht Hts. induction ms as [|m ms IH].
  - cbn [map app Py.map_m]. now rewrite Hbad.
  - cbn [map app Py.map_m]. unfold TextSpec.parse_token at 1. rewrite from_string_str.
    cbn [Py.bind]. now rewrite IH.
Qed.

Lemma parse_reports_first_bad_token_witness :
  MoveSequence.parse
    (TextSpec.weave (map Move.str [Move.R] ++ "X" :: ["U"; "Q"]) [])%string
  = Py.Raise
      (Py.ValueError "Invalid move sequence: Invalid move notation: X").
Proof.
  apply (@parse_reports_first_bad_token [Move.R] "X"%string
           ["U"; "Q"]%string [] ""%string ""%string); reflexivity.
Defined.

(** ** What simplification keeps and what it leaves *)
Section SimplifyMore.

Import SimplifySpec.

Lemma take_drop_length x ms :
  (List.length (take_same x ms) + List.length (drop_same x ms)
   = List.length ms)%nat.
Proof.
  induction ms as [|y ms IH]; simpl; [reflexivity|].
  destruct (same_letter x y); simpl; lia.
Qed.

Lemma coalesce_length run : (List.length (coalesce run) <= 1)%nat.
Proof.
  unfold coalesce. destruct run as [|m run]; [simpl; lia|].
  destruct (turn _ _); simpl; lia.
Qed.

Lemma simplified_cons x ms :
  simplified (x :: ms)
  = coalesce (x :: take_same x ms) ++ simplified (drop_same x ms).
Proof. unfold simplified. now rewrite runs_cons. Qed.

Lemma simplified_length_bound n : forall ms,
  (List.length ms <= n)%nat ->
  (List.length (simplified ms) <= List.length ms)%nat.
Proof.
  induction n as [|n IH]; intros ms Hn.
  - destruct ms; [simpl; lia | simpl in Hn; lia].
  - destruct ms as [|x ms]; [simpl; lia|].
    rewrite simplified_cons, length_app.
    pose proof (coalesce_length (x :: take_same x ms)).
    pose proof (take_drop_length x ms).
    assert (List.length (simplified (drop_same x ms))
            <= List.length (drop_same x ms))%nat
      by (apply IH; cbn [List.length] in Hn; lia).
    cbn [List.length]. lia.
Qed.

Lemma coalesce_single x : coalesce [x] = [x].
Proof. destruct x; reflexivity. Qed.

Lemma simplified_fixed ms :
  no_adjacent_same_letter ms = true -> simplified ms = ms.
Proof.
  induction ms as [|x ms IH]; [reflexivity|].
  intros H. rewrite simplified_cons. destruct ms as [|y ms].
  - cbn [take_same drop_same]. now rewrite coalesce_single.
  - change (no_adjacent_same_letter (x :: y :: ms))
      with (negb (same_letter x y) && no_adjacent_same_letter (y :: ms)) in H.
    apply andb_prop in H as [Hxy Hrest]. apply negb_true_iff in Hxy.
    cbn [take_same drop_same]. rewrite Hxy, coalesce_single.
    cbn [app]. f_equal. now apply IH.
Qed.

Lemma simplified_shorter n : forall ms,
  (List.length ms <= n)%nat ->
  no_adjacent_same_letter ms = false ->
  (List.length (simplified ms) < List.length ms)%nat.
Proof.
  induction n as [|n IH]; intros ms Hn H.
  - destruct ms; [discriminate H | simpl in Hn; lia].
  - destruct ms as [|x ms]; [discriminate H|].
    rewrite simplified_cons, length_app.
    pose proof (coalesce_length (x :: take_same x ms)) as Hc.
    pose proof (take_drop_length x ms) as Htd.
    destruct ms as [|y ms]; [discriminate H|].
    change (no_adjacent_same_letter (x :: y :: ms))
      with (negb (same_letter x y) && no_adjacent_same_letter (y :: ms)) in H.
    cbn [take_same drop_same] in *.
    destruct (same_letter x y) eqn:Exy.
    + pose proof (simplified_length_bound (n := List.length (drop_same x ms))
                    (drop_same x ms) (le_n _)) as Hd.
      cbn [List.length] in Htd |- *. lia.
    + cbn [negb andb] in H.
      assert (Hy : (List.length (simplified (y :: ms)) < List.length (y :: ms))%nat)
        by (apply IH; [cbn [List.length] in Hn |- *; lia | exact H]).
      cbn [List.length] in Hy, Htd |- *. lia.
Qed.

End SimplifyMore.

(** X5. [simplify] returns a sequence for every input and never makes it
    longer. *)
Theorem simplify_never_longer :
  forall seq : MoveSequence.t,
    exists out,
      MoveSequence.simplify seq = Py.Ok out
      /\ (MoveSequence.__len__ out <= MoveSequence.__len__ seq)%Z.
Proof.
  intros seq. exists (SimplifySpec.simplified seq). split.
  - destruct seq as [|m seq]; [reflexivity|].
    unfold MoveSequence.simplify. now rewrite simplify_loop_spec.
  - unfold MoveSequence.__len__. apply Nat2Z.inj_le.
    apply (@simplified_length_bound (List.length seq)). lia.
Qed.

(** X6. [simplify] returns its input unchanged exactly when no two
    adjacent moves of the input have the same notation letter; every
    other input comes back strictly shorter. *)
Theorem simplify_fixed_points :
  forall seq : MoveSequence.t,
    (MoveSequence.simplify seq = Py.Ok seq
     <-> SimplifySpec.no_adjacent_same_letter seq = true)
    /\ (SimplifySpec.no_adjacent_same_letter seq = true
        \/ exists out,
             MoveSequence.simplify seq = Py.Ok out
             /\ (List.length out < List.length seq)%nat).
Proof.
  intros seq.
  assert (E : MoveSequence.simplify seq = Py.Ok (SimplifySpec.simplified seq)).
  { destruct seq as [|m seq]; [reflexivity|].
    unfold MoveSequence.simplify. now rewrite simplify_loop_spec. }
  destruct (SimplifySpec.no_adjacent_same_letter seq) eqn:H.
  - rewrite E, (simplified_fixed seq H). split; [tauto | now left].
  - pose proof (@simplified_shorter (List.length seq) seq (le_n _) H) as Hlt.
    split.
    + split; [|discriminate]. rewrite E. intros Heq.
      inversion Heq as [Heq']. rewrite Heq' in Hlt. lia.
    + right. eexists. split; [exact E | exact Hlt].
Qed.

(* ===================================================================== *)
(** * Further properties of the validators *)
(* ===================================================================== *)

Section PermutationChecks.

Import Validators.

Lemma range_NoDup n : NoDup (CubeState.range n).
Proof.
  unfold CubeState.range. apply Finite.Injective_map_NoDup.
  - intros x y H. now apply Nat2Z.inj.
  - apply seq_NoDup.
Qed.

Lemma existsb_eqb_In x xs : existsb (Z.eqb x) xs = true <-> In x xs.
Proof.
  rewrite existsb_exists. split.
  - intros (y & Hy & E). apply Z.eqb_eq in E. now subst.
  - intros H. exists x. split; [assumption | apply Z.eqb_refl].
Qed.

Lemma is_valid_permutation_iff perm n :
  _is_valid_permutation perm n = true <-> Permutation perm (CubeState.range n).
Proof.
  unfold _is_valid_permutation.
  change (map Z.of_nat (seq 0 n)) with (CubeState.range n).
  assert (Hlen : List.length (CubeState.range n) = n)
    by (unfold CubeState.range; now rewrite length_map, length_seq).
  split.
  - destruct (List.length perm =? n)%nat eqn:El; [|discriminate].
    apply Nat.eqb_eq in El. cbn [negb].
    intros H. apply andb_prop in H as [H1 H2].
    rewrite forallb_forall in H1, H2.
    assert (I1 : incl (CubeState.range n) perm)
      by (intros x Hx; now apply existsb_eqb_In, H1).
    assert (I2 : incl perm (CubeState.range n))
      by (intros x Hx; now apply existsb_eqb_In, H2).
    apply NoDup_Permutation.
    + apply (NoDup_incl_NoDup (range_NoDup n)); [lia | exact I1].
    + apply range_NoDup.
    + intros x. split; [apply I2 | apply I1].
  - intros P. rewrite (Permutation_length P), Hlen, Nat.eqb_refl. cbn [negb].
    apply andb_true_intro. split; apply forallb_forall; intros x Hx;
      apply existsb_eqb_In.
    + apply (Permutation_in x (Permutation_sym P) Hx).
    + apply (Permutation_in x P Hx).
Qed.

Lemma position_in_range len j :
  (0 <= j < Z.of_nat len)%Z -> Py.position len j = Py.Ok (Z.to_nat j).
Proof.
  intros H. unfold Py.position.
  destruct (Z.ltb_spec j 0); [lia|].
  destruct (Z.leb_spec 0 j); [|lia].
  destruct (Z.ltb_spec j (Z.of_nat len)); [reflexivity | lia].
Qed.

Lemma get_at_in_range {A} (xs : list A) j :
  (0 <= j < Z.of_nat (List.length xs))%Z ->
  exists x, Py.get_at xs j = Py.Ok x /\ nth_error xs (Z.to_nat j) = Some x.
Proof.
  intros H. unfold Py.get_at. rewrite position_in_range by assumption.
  cbn [Py.bind]. destruct (nth_error xs (Z.to_nat j)) as [x|] eqn:E.
  - now exists x.
  - apply nth_error_None in E. lia.
Qed.

Lemma replace_nth_length {A} (xs : list A) : forall k v,
  List.length (Py.replace_nth xs k v) = List.length xs.
Proof.
  induction xs as [|x xs IH]; intros [|k] v; simpl; auto.
Qed.

Lemma follow_cycle_total perm tests :
  closed perm ->
  forall visited j c,
    List.length visited = List.length perm ->
    (0 <= j < Z.of_nat (List.length perm))%Z ->
    exists visited' c',
      follow_cycle tests perm visited j c = Py.Ok (visited', c')
      /\ List.length visited' = List.length perm.
Proof.
  intros Hc. induction tests as [|tests IH]; intros visited j c Hv Hj.
  - do 2 eexists. split; [reflexivity | exact Hv].
  - cbn [follow_cycle].
    destruct (@get_at_in_range bool visited j) as (seen & -> & _);
      [now rewrite Hv|].
    cbn [Py.bind]. destruct seen.
    + do 2 eexists. split; [reflexivity | exact Hv].
    + unfold Py.set_at. rewrite Hv, position_in_range by assumption.
      cbn [Py.bind].
      destruct (@get_at_in_range Z perm j Hj) as (x & -> & Hx).
      cbn [Py.bind]. apply IH.
      * now rewrite replace_nth_length.
      * unfold closed in Hc. rewrite Forall_forall in Hc.
        apply Hc. eapply nth_error_In, Hx.
Qed.

Lemma permutation_parity_total perm :
  closed perm ->
  exists p, _permutation_parity perm = Py.Ok p /\ (p = 0 \/ p = 1)%Z.
Proof.
  intros Hc. unfold _permutation_parity.
  set (n := List.length perm).
  assert (H : forall idxs visited parity,
             (forall i, In i idxs -> (i < n)%nat) ->
             List.length visited = n -> (parity = 0 \/ parity = 1)%Z ->
             exists visited' p,
               Py.for_each idxs
                 (fun i '(visited, parity) =>
                    if nth i visited true then Py.Ok (visited, parity)
                    else
                      '(visited, cycle_length) <-
                        follow_cycle (S n) perm visited (Z.of_nat i) 0%Z ;;
                      Py.Ok (visited,
                             if (cycle_length mod 2 =? 0)%Z
                             then Z.lxor parity 1 else parity))
                 (visited, parity) = Py.Ok (visited', p)
               /\ (p = 0 \/ p = 1)%Z).
  { induction idxs as [|i idxs IH]; intros visited parity Hi Hv Hp.
    - do 2 eexists. split; [reflexivity | exact Hp].
    - cbn [Py.for_each]. destruct (nth i visited true).
      + cbn [Py.bind]. apply IH; auto. intros k Hk. apply Hi. now right.
      + assert (Hin : (i < n)%nat) by (apply Hi; now left).
        destruct (@follow_cycle_total perm (S n) Hc visited (Z.of_nat i) 0%Z)
          as (v' & c' & -> & Hv'); [exact Hv | subst n; lia |].
        cbn [Py.bind]. apply IH; auto.
        * intros k Hk. apply Hi. now right.
        * destruct (c' mod 2 =? 0)%Z; [|exact Hp].
          destruct Hp as [-> | ->]; [now right | now left]. }
  destruct (H (seq 0 n) (repeat false n) 0%Z) as (v & p & -> & Hp).
  - intros i Hi. apply in_seq in Hi. lia.
  - apply repeat_length.
  - now left.
  - exists p. split; [reflexivity | exact Hp].
Qed.

End PermutationChecks.

(** X7. [_is_valid_permutation(perm, n)] is true exactly when [perm] is a
    rearrangement of 0, ..., n-1: every number once. *)
Theorem is_valid_permutation_exact :
  forall (perm : list Z) (n : nat),
    Validators._is_valid_permutation perm n = true
    <-> Permutation perm (CubeState.range n).
Proof. intros perm n. apply is_valid_permutation_iff. Qed.

(** X8. On a list whose entries are all positions of the list,
    [_permutation_parity] never raises and returns 0 or 1, whether or
    not the list is a permutation. *)
Theorem permutation_parity_returns_a_bit :
  forall perm : list Z,
    Forall (fun x => (0 <= x < Z.of_nat (List.length perm))%Z) perm ->
    exists p,
      Validators._permutation_parity perm = Py.Ok p /\ (p = 0 \/ p = 1)%Z.
Proof. intros perm H. now apply permutation_parity_total. Qed.

Lemma permutation_parity_returns_a_bit_witness :
  exists p,
    Validators._permutation_parity [1; 1; 0]%Z = Py.Ok p /\ (p = 0 \/ p = 1)%Z.
Proof.
  apply (@permutation_parity_returns_a_bit [1; 1; 0]%Z).
  repeat constructor; simpl; lia.
Defined.

(* ===================================================================== *)
(** * The parity that [_permutation_parity] computes *)
(* ===================================================================== *)

(** ** Inversions and transpositions *)
Section Inversions.

Import Parity.

Lemma below_cons x b (B : list Z) :
  below x (b :: B) = ((if (b <? x)%Z then 1 else 0) + below x B)%nat.
Proof. unfold below. cbn [filter]. now destruct (b <? x)%Z. Qed.

Lemma above_cons x b (B : list Z) :
  above x (b :: B) = ((if (x <? b)%Z then 1 else 0) + above x B)%nat.
Proof. unfold above. cbn [filter]. now destruct (x <? b)%Z. Qed.

Lemma below_app x (A B : list Z) : below x (A ++ B) = (below x A + below x B)%nat.
Proof. unfold below. now rewrite filter_app, length_app. Qed.

Lemma below_above x (B : list Z) :
  ~ In x B -> (below x B + above x B)%nat = List.length B.
Proof.
  induction B as [|b B IH]; intros H; [reflexivity|].
  rewrite below_cons, above_cons. cbn [List.length].
  assert (Hb : b <> x) by (intros ->; apply H; now left).
  assert (HB : ~ In x B) by (intros Hin; apply H; now right).
  specialize (IH HB).
  destruct (Z.ltb_spec b x), (Z.ltb_spec x b); lia.
Qed.

Lemma inversions_prefix (A L1 L2 : list Z) :
  (forall a, below a L1 = below a L2) ->
  (inversions (A ++ L1) + inversions L2
   = inversions (A ++ L2) + inversions L1)%nat.
Proof.
  intros H. induction A as [|a A IH]; [cbn [app]; lia|].
  cbn [app inversions]. rewrite !below_app, (H a). lia.
Qed.

Lemma inversions_insert (B C : list Z) y :
  inversions (B ++ y :: C)
  = (inversions (B ++ C) + above y B + below y C)%nat.
Proof.
  induction B as [|b B IH]; [cbn [app inversions]; unfold above; simpl; lia|].
  cbn [app inversions]. rewrite IH, !below_app, below_cons, above_cons. lia.
Qed.

(** Exchanging two entries of a list without repetitions changes the
    number of inversions by an odd number. *)
Lemma inversions_exchange (A B C : list Z) x y :
  x <> y -> ~ In x B -> ~ In y B ->
  exists k,
    (inversions (A ++ x :: B ++ y :: C) + inversions (A ++ y :: B ++ x :: C)
     = 2 * k + 1)%nat.
Proof.
  intros Hxy Hx Hy.
  assert (P : forall a, below a (x :: B ++ y :: C) = below a (y :: B ++ x :: C)).
  { intros a. rewrite !below_cons, !below_app, !below_cons. lia. }
  pose proof (inversions_prefix A _ _ P) as E.
  set (a1 := inversions (A ++ x :: B ++ y :: C)) in *.
  set (a2 := inversions (A ++ y :: B ++ x :: C)) in *.
  cbn [inversions] in E.
  rewrite !inversions_insert, !below_app, !below_cons in E.
  pose proof (@below_above x B Hx) as Bx.
  pose proof (@below_above y B Hy) as By.
  destruct (Z.ltb_spec y x), (Z.ltb_spec x y); try lia.
  - exists (a2 + below x B - below y B)%nat. lia.
  - exists (a1 + below y B - below x B)%nat. lia.
Qed.

Lemma replace_nth_middle {A} (xs : list A) x ys v :
  Py.replace_nth (xs ++ x :: ys) (List.length xs) v = xs ++ v :: ys.
Proof. induction xs as [|a xs IH]; simpl; [reflexivity | now rewrite IH]. Qed.

Lemma nth_replace_nth {A} (xs : list A) d v : forall i k,
  (i < List.length xs)%nat ->
  nth k (Py.replace_nth xs i v) d = if (k =? i)%nat then v else nth k xs d.
Proof.
  induction xs as [|x xs IH]; intros i k H; [simpl in H; lia|].
  destruct i as [|i], k as [|k]; cbn [Py.replace_nth nth Nat.eqb];
    try reflexivity.
  apply IH. simpl in H. lia.
Qed.

(** The list around the two positions of a transposition. *)
Lemma swap_at_split (q : list Z) i j :
  (i < j < List.length q)%nat ->
  exists A B C,
    q = A ++ nth i q 0%Z :: B ++ nth j q 0%Z :: C
    /\ swap_at q i j = A ++ nth j q 0%Z :: B ++ nth i q 0%Z :: C.
Proof.
  intros [Hij Hj].
  destruct (nth_split q 0%Z Hj) as (L & C & Eq & HL).
  assert (Hi : (i < List.length L)%nat) by lia.
  destruct (nth_split L 0%Z Hi) as (A & B & EL & HA).
  remember (nth j q 0%Z) as y eqn:Ey.
  assert (Ex : nth i q 0%Z = nth i L 0%Z).
  { rewrite Eq. now rewrite app_nth1. }
  remember (nth i q 0%Z) as x eqn:Ex'. rewrite <- Ex in EL.
  exists A, B, C.
  assert (E : q = A ++ x :: B ++ y :: C).
  { rewrite Eq, EL, <- app_assoc. reflexivity. }
  split; [exact E|].
  unfold swap_at. rewrite <- Ey, <- Ex'. rewrite E.
  rewrite <- HA, replace_nth_middle.
  replace j with (List.length (A ++ y :: B)).
  - change (A ++ y :: B ++ y :: C) with (A ++ (y :: B) ++ y :: C).
    rewrite app_assoc, replace_nth_middle, <- app_assoc. reflexivity.
  - rewrite <- HL, EL, !length_app. reflexivity.
Qed.

Lemma swap_at_permutation (q : list Z) i j :
  (i < j < List.length q)%nat -> Permutation (swap_at q i j) q.
Proof.
  intros H. destruct (swap_at_split q H) as (A & B & C & E & ->).
  rewrite E at 3. apply Permutation_app_head.
  rewrite <- !Permutation_middle. apply perm_swap.
Qed.

Lemma nth_swap_at (q : list Z) i j k :
  (i < List.length q)%nat -> (j < List.length q)%nat ->
  nth k (swap_at q i j) 0%Z
  = if (k =? j)%nat then nth i q 0%Z
    else if (k =? i)%nat then nth j q 0%Z else nth k q 0%Z.
Proof.
  intros Hi Hj. unfold swap_at.
  rewrite nth_replace_nth by now rewrite replace_nth_length.
  destruct (k =? j)%nat; [reflexivity|]. now apply nth_replace_nth.
Qed.

(** A transposition changes the parity. *)
Lemma parity_swap_at (q : list Z) i j :
  NoDup q -> (i < j < List.length q)%nat ->
  parity (swap_at q i j) = (1 - parity q)%Z.
Proof.
  intros Hn H. destruct (swap_at_split q H) as (A & B & C & E & ->).
  set (x := nth i q 0%Z) in *. set (y := nth j q 0%Z) in *.
  rewrite E in Hn. apply NoDup_app_remove_l in Hn.
  assert (Hx : ~ In x (B ++ y :: C)) by now apply NoDup_cons_iff in Hn.
  assert (Hy : ~ In y (B ++ C)).
  { apply NoDup_cons_iff in Hn as [_ Hn]. now apply NoDup_remove_2 in Hn. }
  destruct (@inversions_exchange A B C x y) as (k & Ek).
  - intros ->. apply Hx, in_elt.
  - intros Hin. apply Hx, in_or_app. now left.
  - intros Hin. apply Hy, in_or_app. now left.
  - rewrite <- E in Ek. unfold parity.
    assert (Ev : Nat.even (inversions q
                           + inversions (A ++ y :: B ++ x :: C)) = false).
    { rewrite Ek, Nat.add_comm, Nat.even_add_mul_2. reflexivity. }
    rewrite Nat.even_add in Ev.
    destruct (Nat.even (inversions q)),
      (Nat.even (inversions (A ++ y :: B ++ x :: C)));
      try discriminate Ev; reflexivity.
Qed.

Lemma below_none x (l : list Z) :
  (forall y, In y l -> (x <= y)%Z) -> below x l = 0%nat.
Proof.
  induction l as [|b l IH]; intros H; [reflexivity|].
  rewrite below_cons, IH by (intros y Hy; apply H; now right).
  destruct (Z.ltb_spec b x) as [Hb|Hb]; [|reflexivity].
  specialize (H b (or_introl eq_refl)). lia.
Qed.

(** The identity has no inversion. *)
Lemma inversions_sorted n : forall start,
  inversions (map Z.of_nat (seq start n)) = 0%nat.
Proof.
  induction n as [|n IH]; intros start; [reflexivity|].
  cbn [seq map inversions]. rewrite IH, Nat.add_0_r.
  apply below_none. intros y Hy. apply in_map_iff in Hy as (k & <- & Hk).
  apply in_seq in Hk. lia.
Qed.

End Inversions.

(** ** The walk along the cycles *)
Section CycleWalk.

Import Parity Validators.

Lemma swap_at_sym (q : list Z) i j :
  (i < List.length q)%nat -> (j < List.length q)%nat ->
  swap_at q i j = swap_at q j i.
Proof.
  intros Hi Hj. apply (nth_ext _ _ 0%Z 0%Z).
  - unfold swap_at. now rewrite !replace_nth_length.
  - intros k _. rewrite !nth_swap_at by assumption.
    destruct (Nat.eqb_spec k j), (Nat.eqb_spec k i); congruence.
Qed.

Lemma swap_at_effect (q : list Z) i j :
  NoDup q -> (i < List.length q)%nat -> (j < List.length q)%nat -> i <> j ->
  Permutation (swap_at q i j) q /\ parity (swap_at q i j) = (1 - parity q)%Z.
Proof.
  intros Hn Hi Hj Hij. destruct (Nat.lt_ge_cases i j) as [H|H].
  - split; [apply swap_at_permutation | apply parity_swap_at]; auto.
  - rewrite swap_at_sym by assumption.
    split; [apply swap_at_permutation | apply parity_swap_at]; auto; lia.
Qed.

Lemma unvisited_le visited : (unvisited visited <= List.length visited)%nat.
Proof.
  unfold unvisited. induction visited as [|[|] v IH]; simpl; lia.
Qed.

Lemma unvisited_mark visited : forall k,
  (k < List.length visited)%nat -> nth k visited true = false ->
  S (unvisited (Py.replace_nth visited k true)) = unvisited visited.
Proof.
  unfold unvisited.
  induction visited as [|b v IH]; intros k Hk Hf; [simpl in Hk; lia|].
  destruct k as [|k]; cbn [Py.replace_nth nth] in *.
  - subst b. reflexivity.
  - cbn [filter]. destruct b; cbn [negb List.length]; rewrite <- (IH k);
      try reflexivity; try assumption; simpl in Hk; lia.
Qed.

Lemma get_at_nth {A} (xs : list A) d j :
  (0 <= j < Z.of_nat (List.length xs))%Z ->
  Py.get_at xs j = Py.Ok (nth (Z.to_nat j) xs d).
Proof.
  intros H. destruct (@get_at_in_range A xs j H) as (x & -> & Hx).
  now rewrite (nth_error_nth _ _ d Hx).
Qed.

Variable perm : list Z.
Hypothesis perm_NoDup : NoDup perm.
Hypothesis perm_closed : closed perm.

Lemma perm_entry k :
  (k < List.length perm)%nat ->
  (0 <= nth k perm 0 < Z.of_nat (List.length perm))%Z.
Proof.
  intros Hk. unfold closed in perm_closed.
  rewrite Forall_forall in perm_closed. apply perm_closed, nth_In, Hk.
Qed.

(** Every further step of the walk is one transposition, and the walk
    comes back to where the cycle started. *)
Lemma follow_cycle_walk i : forall tests visited q j c,
  walking perm i j visited q ->
  (unvisited visited < tests)%nat ->
  exists visited' q' c',
    follow_cycle tests perm visited j c = Py.Ok (visited', c')
    /\ settled perm visited' q'
    /\ (forall k, nth k visited true = true -> nth k visited' true = true)
    /\ ((parity q' + c') mod 2 = (parity q + c) mod 2)%Z.
Proof.
  induction tests as [|tests IH]; intros visited q j c W Hm; [lia|].
  destruct W as (Lv & Pq & Hi & Vi & Hj & Hq).
  assert (Lq : List.length q = List.length perm)
    by now apply Permutation_length.
  assert (Nq : NoDup q)
    by (apply (Permutation_NoDup (Permutation_sym Pq)), perm_NoDup).
  assert (Hjn : (Z.to_nat j < List.length perm)%nat) by lia.
  cbn [follow_cycle].
  rewrite (get_at_nth visited true) by now rewrite Lv.
  cbn [Py.bind]. destruct (nth (Z.to_nat j) visited true) eqn:Vj.
  - exists visited, q, c. split; [reflexivity|].
    assert (E : Z.to_nat j = i).
    { apply (proj1 (NoDup_nth q 0%Z) Nq); try lia.
      rewrite (Hq (Z.to_nat j) Hjn), (Hq i Hi), Nat.eqb_refl, Vj.
      destruct (Nat.eqb_spec (Z.to_nat j) i); lia. }
    split; [|split; [auto | reflexivity]].
    split; [exact Lv|]. split; [exact Pq|].
    intros k Hk. rewrite (Hq k Hk).
    destruct (Nat.eqb_spec k i) as [->|]; [|reflexivity].
    rewrite Vi. lia.
  - assert (Hne : i <> Z.to_nat j) by congruence.
    unfold Py.set_at. rewrite Lv, position_in_range by assumption.
    cbn [Py.bind]. rewrite (get_at_nth perm 0%Z) by assumption.
    cbn [Py.bind].
    destruct (@swap_at_effect q i (Z.to_nat j)) as [Ps Es]; try lia; auto.
    destruct (IH (Py.replace_nth visited (Z.to_nat j) true)
                 (swap_at q i (Z.to_nat j))
                 (nth (Z.to_nat j) perm 0%Z) (c + 1)%Z)
      as (visited' & q' & c' & E & S' & M & Par).
    + split; [now rewrite replace_nth_length|].
      split; [now rewrite Ps|]. split; [exact Hi|].
      split; [rewrite nth_replace_nth by lia;
              destruct (i =? Z.to_nat j)%nat; auto|].
      split; [now apply perm_entry|].
      intros k Hk. rewrite nth_swap_at, nth_replace_nth by lia.
      rewrite (Hq i Hi), Nat.eqb_refl.
      destruct (Nat.eqb_spec k (Z.to_nat j)) as [->|Hkj].
      * destruct (Nat.eqb_spec (Z.to_nat j) i); [congruence | lia].
      * destruct (Nat.eqb_spec k i) as [->|Hki].
        2: { rewrite (Hq k Hk). now destruct (Nat.eqb_spec k i). }
        rewrite (Hq (Z.to_nat j) Hjn), Vj.
        destruct (Nat.eqb_spec (Z.to_nat j) i); [congruence | reflexivity].
    + pose proof (@unvisited_mark visited (Z.to_nat j)) as D.
      rewrite <- D in Hm; [lia | lia | exact Vj].
    + exists visited', q', c'. split; [exact E|]. split; [exact S'|].
      split.
      * intros k Hk. apply M. destruct (Nat.lt_ge_cases k (List.length visited)).
        -- rewrite nth_replace_nth by lia.
           destruct (k =? Z.to_nat j)%nat; auto.
        -- rewrite nth_overflow; [reflexivity|].
           now rewrite replace_nth_length.
      * rewrite Par, Es. unfold parity.
        destruct (Nat.even (inversions q)); Z.div_mod_to_equations; lia.
Qed.

(** A whole cycle, from an unmarked position [i]: a cycle of length
    [c'] is undone by [c' - 1] transpositions. *)
Lemma follow_cycle_from_start i visited q :
  settled perm visited q ->
  (i < List.length perm)%nat -> nth i visited true = false ->
  exists visited' q' c',
    follow_cycle (S (List.length perm)) perm visited (Z.of_nat i) 0%Z
    = Py.Ok (visited', c')
    /\ settled perm visited' q'
    /\ (forall k, nth k visited true = true -> nth k visited' true = true)
    /\ nth i visited' true = true
    /\ ((parity q' + c') mod 2 = (parity q + 1) mod 2)%Z.
Proof.
  intros (Lv & Pq & Hq) Hi Vi. cbn [follow_cycle].
  rewrite (get_at_nth visited true) by (rewrite Lv; lia).
  rewrite Nat2Z.id, Vi. cbn [Py.bind].
  unfold Py.set_at. rewrite Lv, position_in_range by lia.
  cbn [Py.bind]. rewrite (get_at_nth perm 0%Z) by lia.
  cbn [Py.bind]. rewrite Nat2Z.id.
  destruct (@follow_cycle_walk i (List.length perm)
              (Py.replace_nth visited i true) q (nth i perm 0%Z) (0 + 1)%Z)
    as (visited' & q' & c' & E & S' & M & Par).
  - split; [now rewrite replace_nth_length|]. split; [exact Pq|].
    split; [exact Hi|].
    split; [rewrite nth_replace_nth by lia; now rewrite Nat.eqb_refl|].
    split; [now apply perm_entry|].
    intros k Hk. rewrite nth_replace_nth by lia. rewrite (Hq k Hk).
    destruct (Nat.eqb_spec k i) as [->|]; [now rewrite Vi | reflexivity].
  - pose proof (@unvisited_mark visited i) as D.
    pose proof (unvisited_le visited) as Le.
    rewrite <- D in Le; [lia | lia | exact Vi].
  - exists visited', q', c'. split; [exact E|]. split; [exact S'|].
    assert (Mi : forall k, (k < List.length visited)%nat ->
                           nth k (Py.replace_nth visited i true) true
                           = if (k =? i)%nat then true else nth k visited true).
    { intros k Hk. apply nth_replace_nth. lia. }
    split; [|split].
    + intros k Hk. apply M. destruct (Nat.lt_ge_cases k (List.length visited)).
      * rewrite Mi by assumption. destruct (k =? i)%nat; auto.
      * rewrite nth_overflow; [reflexivity|]. now rewrite replace_nth_length.
    + apply M. rewrite Mi by lia. now rewrite Nat.eqb_refl.
    + exact Par.
Qed.

Lemma nth_repeat_false k n : (k < n)%nat -> nth k (repeat false n) true = false.
Proof.
  revert k. induction n as [|n IH]; intros [|k] H; simpl; try lia; auto.
  apply IH. lia.
Qed.

(** The [for i in range(n)] loop: the variable [parity] and the parity
    of what is left of [perm] always add up to the parity of [perm]. *)
Lemma parity_loop idxs : forall visited q parity_var,
  settled perm visited q ->
  (forall i, In i idxs -> (i < List.length perm)%nat) ->
  (parity_var = 0 \/ parity_var = 1)%Z ->
  exists visited' q' parity_var',
    Py.for_each idxs
      (fun i '(visited, parity) =>
         if nth i visited true then Py.Ok (visited, parity)
         else
           '(visited, cycle_length) <-
             follow_cycle (S (List.length perm)) perm visited (Z.of_nat i) 0%Z ;;
           Py.Ok (visited,
                  if (cycle_length mod 2 =? 0)%Z
                  then Z.lxor parity 1 else parity))
      (visited, parity_var) = Py.Ok (visited', parity_var')
    /\ settled perm visited' q'
    /\ (forall k, nth k visited true = true -> nth k visited' true = true)
    /\ (forall i, In i idxs -> nth i visited' true = true)
    /\ (parity_var' = 0 \/ parity_var' = 1)%Z
    /\ ((parity_var' + parity q') mod 2 = (parity_var + parity q) mod 2)%Z.
Proof.
  induction idxs as [|i idxs IH]; intros visited q parity_var S0 Hi Hp.
  - exists visited, q, parity_var. split; [reflexivity|].
    split; [exact S0|]. split; [auto|]. split; [intros ? []|].
    split; [exact Hp | reflexivity].
  - cbn [Py.for_each]. destruct (nth i visited true) eqn:Vi.
    + cbn [Py.bind].
      destruct (IH visited q parity_var S0) as (v' & q' & p' & E & S' & M & A & B & C);
        [intros k Hk; apply Hi; now right | exact Hp |].
      exists v', q', p'. split; [exact E|]. split; [exact S'|].
      split; [exact M|].
      split; [intros k [<-|Hk]; [now apply M | now apply A]|].
      split; [exact B | exact C].
    + destruct (@follow_cycle_from_start i visited q S0) as
          (v1 & q1 & c1 & -> & S1 & M1 & V1 & Par1);
        [apply Hi; now left | exact Vi |].
      cbn [Py.bind].
      destruct (IH v1 q1 (if (c1 mod 2 =? 0)%Z then Z.lxor parity_var 1
                          else parity_var) S1)
        as (v' & q' & p' & E & S' & M & A & B & C).
      * intros k Hk. apply Hi. now right.
      * destruct (c1 mod 2 =? 0)%Z; [|exact Hp].
        destruct Hp as [-> | ->]; [now right | now left].
      * exists v', q', p'. split; [exact E|]. split; [exact S'|].
        split; [intros k Hk; now apply M, M1|].
        split; [intros k [<-|Hk]; [now apply M | now apply A]|].
        split; [exact B|]. rewrite C.
        assert (Hq1 : (parity q1 = 0 \/ parity q1 = 1)%Z)
          by (unfold parity; destruct (Nat.even _); auto).
        assert (Hq0 : (parity q = 0 \/ parity q = 1)%Z)
          by (unfold parity; destruct (Nat.even _); auto).
        clear - Hp Hq1 Hq0 Par1.
        destruct (Z.eqb_spec (c1 mod 2) 0) as [Ec|Ec];
          destruct Hp as [-> | ->]; simpl Z.lxor;
          destruct Hq1 as [E1 | E1], Hq0 as [E0 | E0];
          rewrite E1, E0 in *; revert Par1 Ec; Z.div_mod_to_equations; lia.
Qed.

(** On a permutation of its positions [_permutation_parity] returns the
    parity of the permutation. *)
Lemma permutation_parity_is_parity :
  _permutation_parity perm = Py.Ok (parity perm).
Proof.
  unfold _permutation_parity.
  destruct (@parity_loop (seq 0 (List.length perm))
              (repeat false (List.length perm)) perm 0%Z)
    as (v' & q' & p' & -> & (Lv & Pq & Hq) & _ & A & B & C).
  - split; [apply repeat_length|]. split; [reflexivity|].
    intros k Hk. now rewrite nth_repeat_false.
  - intros i Hi. apply in_seq in Hi. lia.
  - now left.
  - cbn [Py.bind]. f_equal.
    assert (Eq : q' = map Z.of_nat (seq 0 (List.length perm))).
    { apply (nth_ext _ _ 0%Z 0%Z).
      - now rewrite (Permutation_length Pq), length_map, length_seq.
      - intros k Hk. rewrite (Permutation_length Pq) in Hk.
        rewrite (Hq k Hk), A by (apply in_seq; lia).
        symmetry. etransitivity; [apply (map_nth Z.of_nat _ 0%nat k)|].
        now rewrite seq_nth. }
    assert (P0 : parity q' = 0%Z)
      by (unfold parity; now rewrite Eq, inversions_sorted).
    rewrite P0 in C.
    assert (Hp : (parity perm = 0 \/ parity perm = 1)%Z)
      by (unfold parity; destruct (Nat.even _); auto).
    destruct B as [-> | ->], Hp as [E | E]; rewrite E in *;
      try reflexivity; revert C; Z.div_mod_to_equations; lia.
Qed.

End CycleWalk.

Lemma permutation_closed perm n :
  Permutation perm (CubeState.range n) -> NoDup perm /\ closed perm.
Proof.
  intros P. split.
  - apply (Permutation_NoDup (Permutation_sym P)), range_NoDup.
  - unfold closed. apply Forall_forall. intros x Hx.
    apply (Permutation_in _ P) in Hx. unfold CubeState.range in Hx.
    apply in_map_iff in Hx as (k & <- & Hk). apply in_seq in Hk.
    rewrite (Permutation_length P). unfold CubeState.range.
    rewrite length_map, length_seq. lia.
Qed.

(** [_permutation_parity] is right on every permutation of 0..n-1. *)
Lemma permutation_parity_correct perm n :
  Permutation perm (CubeState.range n) ->
  Validators._permutation_parity perm = Py.Ok (Parity.parity perm).
Proof.
  intros P. destruct (@permutation_closed perm n P) as [Hn Hc].
  now apply permutation_parity_is_parity.
Qed.

Section StateValidation.

Import Validators.

(** Reporting loops: the list only grows, and it grows exactly when some
    entry fails the test. *)
Lemma report_loop (ok : Z -> bool) (msg : Z -> Z -> string) items :
  forall errors,
  exists extra,
    fold_left (fun errors '(i, o) =>
                 if negb (ok o) then errors ++ [msg i o] else errors)
              items errors
    = errors ++ extra
    /\ (Validators.is_nil extra = forallb ok (map snd items)).
Proof.
  induction items as [|[i o] items IH]; intros errors.
  - exists []. split; [now rewrite app_nil_r | reflexivity].
  - cbn [fold_left map snd forallb]. destruct (ok o); cbn [negb andb].
    + apply IH.
    + destruct (IH (errors ++ [msg i o])) as (extra & -> & _).
      exists (msg i o :: extra). split; [now rewrite <- app_assoc | reflexivity].
Qed.

Lemma enumerate_snd {A} (xs : list A) : map snd (CubeState.enumerate xs) = xs.
Proof.
  unfold CubeState.enumerate. generalize 0%nat as k.
  induction xs as [|x xs IH]; intros k; [reflexivity|].
  cbn [List.length seq map combine snd]. now rewrite IH.
Qed.

Lemma is_nil_app {A} (xs ys : list A) :
  is_nil (xs ++ ys) = is_nil xs && is_nil ys.
Proof. destruct xs; reflexivity. Qed.

Lemma in_range_03 o :
  existsb (Z.eqb o) [0; 1; 2]%Z = Legal.in_range 0 3 o.
Proof.
  unfold Legal.in_range. cbn [existsb].
  destruct (Z.eqb_spec o 0), (Z.eqb_spec o 1), (Z.eqb_spec o 2),
    (Z.leb_spec 0 o), (Z.ltb_spec o 3); cbn; try reflexivity; lia.
Qed.

Lemma in_range_02 o :
  existsb (Z.eqb o) [0; 1]%Z = Legal.in_range 0 2 o.
Proof.
  unfold Legal.in_range. cbn [existsb].
  destruct (Z.eqb_spec o 0), (Z.eqb_spec o 1),
    (Z.leb_spec 0 o), (Z.ltb_spec o 2); cbn; try reflexivity; lia.
Qed.

Lemma forallb_same {A} (f g : A -> bool) xs :
  (forall x, f x = g x) -> forallb f xs = forallb g xs.
Proof.
  intros H. induction xs as [|x xs IH]; [reflexivity|].
  simpl. now rewrite H, IH.
Qed.

Lemma valid_permutation_entries perm n :
  _is_valid_permutation perm n = true ->
  List.length perm = n
  /\ forallb (Legal.in_range 0 (Z.of_nat n)) perm = true
  /\ closed perm.
Proof.
  intros H. apply is_valid_permutation_iff in H.
  assert (Hl : List.length perm = n).
  { rewrite (Permutation_length H). unfold CubeState.range.
    now rewrite length_map, length_seq. }
  assert (Hin : forall x, In x perm -> (0 <= x < Z.of_nat n)%Z).
  { intros x Hx. apply (Permutation_in x H) in Hx.
    unfold CubeState.range in Hx. apply in_map_iff in Hx as (k & <- & Hk).
    apply in_seq in Hk. lia. }
  split; [exact Hl|]. split.
  - apply forallb_forall. intros x Hx. unfold Legal.in_range.
    apply Hin in Hx. apply andb_true_intro.
    split; [apply Z.leb_le | apply Z.ltb_lt]; lia.
  - unfold closed. apply Forall_forall. intros x Hx. rewrite Hl. now apply Hin.
Qed.

Lemma is_nil_report {A} (b : bool) (errors : list A) (m : A) :
  is_nil (if negb b then errors ++ [m] else errors) = is_nil errors && b.
Proof. destruct b, errors; reflexivity. Qed.

Lemma is_nil_report_loop (ok : Z -> bool) (msg : Z -> Z -> string) xs errors :
  is_nil (fold_left (fun errors '(i, o) =>
                       if negb (ok o) then errors ++ [msg i o] else errors)
                    (CubeState.enumerate xs) errors)
  = is_nil errors && forallb ok xs.
Proof.
  destruct (report_loop ok msg (CubeState.enumerate xs) errors) as (x & -> & N).
  now rewrite is_nil_app, N, enumerate_snd.
Qed.

(** The checks made before the early return pass exactly on the states
    of the data model whose permutation arrays are bijections. *)
Lemma basic_checks_iff s :
  (List.length (CubeState.corner_perm s) =? 8)%nat
  && (List.length (CubeState.corner_orient s) =? 8)%nat
  && (List.length (CubeState.edge_perm s) =? 12)%nat
  && (List.length (CubeState.edge_orient s) =? 12)%nat
  && _is_valid_permutation (CubeState.corner_perm s) 8
  && _is_valid_permutation (CubeState.edge_perm s) 12
  && forallb (fun o => existsb (Z.eqb o) [0; 1; 2]%Z) (CubeState.corner_orient s)
  && forallb (fun o => existsb (Z.eqb o) [0; 1]%Z) (CubeState.edge_orient s)
  = Legal.well_typed s && Legal.bijections s.
Proof.
  unfold Legal.well_typed, Legal.bijections.
  rewrite (forallb_same _ _ _ in_range_03), (forallb_same _ _ _ in_range_02).
  destruct (_is_valid_permutation (CubeState.corner_perm s) 8) eqn:V1;
    [|now rewrite !andb_false_r].
  destruct (_is_valid_permutation (CubeState.edge_perm s) 12) eqn:V2;
    [|now rewrite !andb_false_r].
  apply valid_permutation_entries in V1 as (_ & R1 & _).
  apply valid_permutation_entries in V2 as (_ & R2 & _).
  change (Z.of_nat 8) with 8%Z in R1. change (Z.of_nat 12) with 12%Z in R2.
  rewrite R1, R2, !andb_true_r. reflexivity.
Qed.

Lemma validate_cube_state_spec s :
  exists errors,
    validate_cube_state s = Py.Ok (Legal.legal s, errors)
    /\ is_nil errors = Legal.legal s.
Proof.
  unfold validate_cube_state. cbv zeta.
  match goal with |- context [negb (is_nil ?e)] => set (E := e) end.
  assert (N : is_nil E = Legal.well_typed s && Legal.bijections s).
  { rewrite <- basic_checks_iff. subst E.
    rewrite !is_nil_report_loop, !is_nil_report. reflexivity. }
  clearbody E. unfold Legal.legal.
  destruct E as [|e E]; cbn [is_nil negb] in *.
  - rewrite <- N. cbn [andb app].
    symmetry in N. apply andb_prop in N as [_ Hb].
    unfold Legal.bijections in Hb. apply andb_prop in Hb as [V1 V2].
    apply is_valid_permutation_iff in V1, V2.
    rewrite (@permutation_parity_correct _ _ V1), (@permutation_parity_correct _ _ V2).
    unfold Legal.twist_ok, Legal.flip_ok, Legal.parity_ok. cbn [Py.bind].
    destruct (Py.sum (CubeState.corner_orient s) mod 3 =? 0)%Z;
    destruct (Py.sum (CubeState.edge_orient s) mod 2 =? 0)%Z;
    destruct (Parity.parity (CubeState.corner_perm s)
              =? Parity.parity (CubeState.edge_perm s))%Z;
    cbn [negb andb app is_nil]; eexists; split; reflexivity.
  - rewrite <- N. cbn [andb]. eexists. split; reflexivity.
Qed.

End StateValidation.

(** X9. [validate_cube_state] never raises; it accepts exactly the legal
    states (arrays of 8 and 12 entries, orientations in range, both
    permutations bijections, twist sum a multiple of 3, flip sum even,
    and the two permutations both even or both odd, counted by their
    inversions), and its error list is empty exactly when it accepts. *)
Theorem validate_cube_state_accepts_legal_states :
  forall s : CubeState.t,
    exists errors,
      Validators.validate_cube_state s = Py.Ok (Legal.legal s, errors)
      /\ (errors = [] <-> Legal.legal s = true).
Proof.
  intros s. destruct (validate_cube_state_spec s) as (errors & E & N).
  exists errors. split; [exact E|]. rewrite <- N.
  destruct errors; simpl; split; congruence.
Qed.

(* ===================================================================== *)
(** * Further properties of the facelet conversions *)
(* ===================================================================== *)

Section ReadingFacelets.

Import CubeState Stickers.

Lemma first_some_found {A B} (f : A -> option B) xs y :
  first_some f xs = Some y -> exists x, In x xs /\ f x = Some y.
Proof.
  induction xs as [|x xs IH]; [discriminate|]. simpl.
  destruct (f x) as [y'|] eqn:E.
  - intros H. inversion H; subst. exists x. split; [now left | exact E].
  - intros H. destruct (IH H) as (x' & Hin & Hx'). exists x'. split; [now right | exact Hx'].
Qed.

Lemma find_corner_range centers colors j o :
  find_corner centers colors = Some (j, o) ->
  Legal.in_range 0 8 j = true /\ Legal.in_range 0 3 o = true.
Proof.
  unfold find_corner. intros H.
  apply first_some_found in H as ([k entry] & Hin & H).
  destruct entry as [[[[[sf1 sp1] sf2] sp2] sf3] sp3].
  apply first_some_found in H as (orient & Hor & H).
  destruct (colors_equal _ _); [|discriminate]. inversion H; subst. split.
  - cbv in Hin. repeat (destruct Hin as [Hin|Hin]; [inversion Hin; reflexivity|]).
    destruct Hin.
  - simpl in Hor. destruct Hor as [<-|[<-|[<-|[]]]]; reflexivity.
Qed.

Lemma find_edge_range centers colors j o :
  find_edge centers colors = Some (j, o) ->
  Legal.in_range 0 12 j = true /\ Legal.in_range 0 2 o = true.
Proof.
  unfold find_edge. intros H.
  apply first_some_found in H as ([k entry] & Hin & H).
  destruct entry as [[[sf1 sp1] sf2] sp2].
  assert (Hk : Legal.in_range 0 12 k = true).
  { cbv in Hin. repeat (destruct Hin as [Hin|Hin]; [inversion Hin; reflexivity|]).
    destruct Hin. }
  destruct (colors_equal colors _).
  - inversion H; subst. now split.
  - destruct (colors_equal colors _); [|discriminate].
    inversion H; subst. now split.
Qed.

(** The corner loop of [from_facelets]: it raises [ValueError] or adds
    one cubie number and one orientation, both in range, per position. *)
Lemma read_corners_spec facelets centers items : forall perm orient,
  match Py.for_each items (read_corner facelets centers) (perm, orient) with
  | Py.Ok (perm', orient') =>
      exists js os,
        perm' = perm ++ js /\ orient' = orient ++ os
        /\ List.length js = List.length items
        /\ List.length os = List.length items
        /\ forallb (Legal.in_range 0 8) js = true
        /\ forallb (Legal.in_range 0 3) os = true
  | Py.Raise e => Py.class_of e = Py.ValueErrorClass
  end.
Proof.
  induction items as [|[i entry] items IH]; intros perm orient.
  - exists [], []. now rewrite !app_nil_r.
  - cbn [Py.for_each]. unfold read_corner at 1.
    destruct entry as [[[[[f1 p1] f2] p2] f3] p3].
    destruct (find_corner centers _) as [[j o]|] eqn:E; [|reflexivity].
    cbn [Py.bind]. specialize (IH (perm ++ [j]) (orient ++ [o])).
    destruct (Py.for_each items _ _) as [[perm' orient']|e]; [|exact IH].
    destruct IH as (js & os & -> & -> & Hj & Ho & Rj & Ro).
    destruct (find_corner_range _ _ E) as [Rj0 Ro0].
    exists (j :: js), (o :: os). rewrite <- !app_assoc.
    cbn [app List.length forallb]. rewrite Hj, Ho, Rj, Ro, Rj0, Ro0.
    repeat split; reflexivity.
Qed.

Lemma read_edges_spec facelets centers items : forall perm orient,
  match Py.for_each items (read_edge facelets centers) (perm, orient) with
  | Py.Ok (perm', orient') =>
      exists js os,
        perm' = perm ++ js /\ orient' = orient ++ os
        /\ List.length js = List.length items
        /\ List.length os = List.length items
        /\ forallb (Legal.in_range 0 12) js = true
        /\ forallb (Legal.in_range 0 2) os = true
  | Py.Raise e => Py.class_of e = Py.ValueErrorClass
  end.
Proof.
  induction items as [|[i entry] items IH]; intros perm orient.
  - exists [], []. now rewrite !app_nil_r.
  - cbn [Py.for_each]. unfold read_edge at 1.
    destruct entry as [[[f1 p1] f2] p2].
    destruct (find_edge centers _) as [[j o]|] eqn:E; [|reflexivity].
    cbn [Py.bind]. specialize (IH (perm ++ [j]) (orient ++ [o])).
    destruct (Py.for_each items _ _) as [[perm' orient']|e]; [|exact IH].
    destruct IH as (js & os & -> & -> & Hj & Ho & Rj & Ro).
    destruct (find_edge_range _ _ E) as [Rj0 Ro0].
    exists (j :: js), (o :: os). rewrite <- !app_assoc.
    cbn [app List.length forallb]. rewrite Hj, Ho, Rj, Ro, Rj0, Ro0.
    repeat split; reflexivity.
Qed.

Lemma from_facelets_spec facelets :
  match from_facelets facelets with
  | Py.Ok s => Legal.well_typed s = true /\ List.length facelets = 54%nat
  | Py.Raise e => Py.class_of e = Py.ValueErrorClass
  end.
Proof.
  unfold from_facelets.
  destruct (List.length facelets =? 54)%nat eqn:L; [|reflexivity].
  cbn [negb]. apply Nat.eqb_eq in L.
  pose proof (read_corners_spec facelets
                (map (cell facelets) [4; 13; 22; 31; 40; 49]%nat)
                (enumerate corner_facelets) [] []) as Hc.
  destruct (Py.for_each (enumerate corner_facelets) _ _) as [[cp co]|e];
    [|exact Hc].
  destruct Hc as (js & os & -> & -> & Hj & Ho & Rj & Ro).
  cbn [Py.bind app].
  pose proof (read_edges_spec facelets
                (map (cell facelets) [4; 13; 22; 31; 40; 49]%nat)
                (enumerate edge_facelets) [] []) as He.
  destruct (Py.for_each (enumerate edge_facelets) _ _) as [[ep eo]|e];
    [|exact He].
  destruct He as (js' & os' & -> & -> & Hj' & Ho' & Rj' & Ro').
  cbn [Py.bind app].
  change (List.length (enumerate corner_facelets)) with 8%nat in Hj, Ho.
  change (List.length (enumerate edge_facelets)) with 12%nat in Hj', Ho'.
  destruct js as [|j js]; [discriminate Hj|].
  destruct os as [|o os]; [discriminate Ho|].
  destruct js' as [|j' js']; [discriminate Hj'|].
  destruct os' as [|o' os']; [discriminate Ho'|].
  unfold __init__, array_or_default. cbn [truth values Py.bind].
  split; [|exact L].
  unfold Legal.well_typed.
  cbn [corner_perm corner_orient edge_perm edge_orient].
  now rewrite Hj, Ho, Hj', Ho', Rj, Ro, Rj', Ro'.
Qed.

End ReadingFacelets.

(** X10. [from_facelets] either raises [ValueError] or returns a state of
    the data model: 8 corner and 12 edge entries, cubie numbers within
    their domain, corner orientations in {0,1,2}, edge orientations in
    {0,1}; it returns only for lists of 54 facelets. *)
Theorem from_facelets_returns_data_model_states :
  forall facelets : list string,
    match CubeState.from_facelets facelets with
    | Py.Ok s => Legal.well_typed s = true /\ List.length facelets = 54%nat
    | Py.Raise e => Py.class_of e = Py.ValueErrorClass
    end.
Proof. intros facelets. apply from_facelets_spec. Qed.

(* ===================================================================== *)
(** * Properties of the notation utilities *)
(* ===================================================================== *)

Section NotationTools.

Import Notations.

Lemma moves_equal_eq a : forall b, moves_equal a b = true <-> a = b.
Proof.
  induction a as [|x a IH]; intros [|y b]; simpl; split; intros H;
    try reflexivity; try discriminate.
  - apply andb_prop in H as [Hxy Hab]. unfold Move.eqb in Hxy.
    destruct (Move.eq_dec x y); [|discriminate]. apply IH in Hab. congruence.
  - inversion H; subst. unfold Move.eqb.
    destruct (Move.eq_dec y y); [|congruence]. simpl. now apply IH.
Qed.

Lemma slice_suffix {A} (xs : list A) (i k : nat) :
  Py.slice xs (Z.of_nat i) (Z.of_nat i + Z.of_nat k)
  = firstn k (skipn i xs).
Proof.
  unfold Py.slice.
  replace (Z.of_nat i + Z.of_nat k - Z.of_nat i)%Z with (Z.of_nat k) by lia.
  now rewrite !Nat2Z.id.
Qed.

Lemma found_at (seq pat : list Move.t) j :
  firstn (List.length pat) (skipn j seq) = pat ->
  (j + List.length pat <= List.length seq)%nat ->
  exists pre post, seq = pre ++ pat ++ post /\ List.length pre = j.
Proof.
  intros Hm Hj. exists (firstn j seq), (skipn (List.length pat) (skipn j seq)).
  split.
  - rewrite <- Hm at 1. now rewrite !firstn_skipn.
  - apply firstn_length_le. lia.
Qed.

Lemma occurs_at (pre pat post : list Move.t) :
  firstn (List.length pat) (skipn (List.length pre) (pre ++ pat ++ post)) = pat.
Proof.
  rewrite skipn_app, skipn_all, Nat.sub_diag. cbn [skipn app].
  rewrite firstn_app, firstn_all, Nat.sub_diag. cbn [firstn].
  apply app_nil_r.
Qed.

Lemma find_patterns_spec seq pat i :
  In i (find_patterns seq pat)
  <-> pat <> []
      /\ exists pre post, seq = pre ++ pat ++ post
                          /\ Z.of_nat (List.length pre) = i.
Proof.
  unfold find_patterns, MoveSequence.__len__.
  destruct ((Z.of_nat (List.length pat) =? 0)%Z
            || (Z.of_nat (List.length pat) >? Z.of_nat (List.length seq))%Z)
    eqn:G.
  - split; [intros []|]. intros (Hne & pre & post & E & Hi).
    apply orb_true_iff in G as [G|G].
    + apply Z.eqb_eq in G. destruct pat; [congruence | simpl in G; lia].
    + assert (L : List.length seq
                  = (List.length pre + (List.length pat + List.length post))%nat)
        by (rewrite E, !length_app; reflexivity).
      destruct (Z.gtb_spec (Z.of_nat (List.length pat))
                           (Z.of_nat (List.length seq))); [lia | discriminate].
  - apply orb_false_iff in G as [G1 G2]. apply Z.eqb_neq in G1.
    destruct (Z.gtb_spec (Z.of_nat (List.length pat))
                         (Z.of_nat (List.length seq))) as [|G]; [discriminate|].
    clear G2. rewrite filter_In. unfold Py.range. rewrite in_map_iff. split.
    + intros [(j & <- & Hj) Hm]. apply in_seq in Hj.
      rewrite slice_suffix in Hm. apply moves_equal_eq in Hm.
      split; [destruct pat; [simpl in G1; lia | discriminate]|].
      destruct (@found_at seq pat j Hm) as (pre & post & E & L); [lia|].
      exists pre, post. split; [exact E | now rewrite L].
    + intros (Hne & pre & post & E & Hi).
      assert (L : List.length seq
                  = (List.length pre + (List.length pat + List.length post))%nat)
        by (rewrite E, !length_app; reflexivity).
      split.
      * exists (List.length pre). split; [exact Hi|]. apply in_seq. lia.
      * subst i. rewrite slice_suffix. apply moves_equal_eq.
        rewrite E. apply occurs_at.
Qed.

(** ** Counting *)

Lemma half_turn_has_2 m :
  Py.contains_char "2"%char (Move.str m) = SimplifySpec.is_half_turn m.
Proof. destruct m; reflexivity. Qed.

Lemma increment_face items m :
  map fst items = CountSpec.six_faces ->
  if ScrambleSpec.is_base m
  then exists items',
         increment items (String (SimplifySpec.letter m) "") = Py.Ok items'
         /\ map fst items' = CountSpec.six_faces
         /\ Py.sum (map snd items') = (Py.sum (map snd items) + 1)%Z
  else increment items (String (SimplifySpec.letter m) "")
       = Py.Raise (Py.KeyError (String (SimplifySpec.letter m) "")).
Proof.
  intros H.
  do 6 (destruct items as [|[? ?] items]; [discriminate H|]).
  destruct items; [|discriminate H].
  injection H as -> -> -> -> -> ->.
  destruct m; cbn; try reflexivity;
    (eexists; split; [reflexivity|]; split; [reflexivity|];
     unfold Py.sum; cbn; lia).
Qed.

Lemma count_loop seq : forall c0,
  map fst (face_counts c0) = CountSpec.six_faces ->
  match Py.for_each seq
          (fun move counts =>
             let move_str := Move.str move in
             face <- Py.first_char move_str ;;
             faces <- increment (face_counts counts) face ;;
             if Py.contains_char "2"%char move_str
             then Py.Ok (Counts (total counts) (quarter_turns counts)
                                (half_turns counts + 1) faces)
             else Py.Ok (Counts (total counts) (quarter_turns counts + 1)
                                (half_turns counts) faces))
          c0 with
  | Py.Ok c =>
      forallb ScrambleSpec.is_base seq = true
      /\ total c = total c0
      /\ half_turns c = (half_turns c0 + CountSpec.half_turns_of seq)%Z
      /\ quarter_turns c
         = (quarter_turns c0 + Z.of_nat (List.length seq)
            - CountSpec.half_turns_of seq)%Z
      /\ map fst (face_counts c) = CountSpec.six_faces
      /\ Py.sum (map snd (face_counts c))
         = (Py.sum (map snd (face_counts c0)) + Z.of_nat (List.length seq))%Z
  | Py.Raise e =>
      exists pre m post,
        seq = pre ++ m :: post
        /\ forallb ScrambleSpec.is_base pre = true
        /\ ScrambleSpec.is_base m = false
        /\ e = Py.KeyError (String (SimplifySpec.letter m) "")
  end.
Proof.
  induction seq as [|m seq IH]; intros c0 H6.
  - cbn. unfold CountSpec.half_turns_of. cbn. repeat split; try lia. exact H6.
  - cbn [Py.for_each]. cbv zeta. rewrite first_char_str. cbn [Py.bind].
    pose proof (@increment_face (face_counts c0) m H6) as Hi.
    destruct (ScrambleSpec.is_base m) eqn:Eb.
    + destruct Hi as (items' & -> & K6 & Ks). cbn [Py.bind].
      rewrite half_turn_has_2.
      assert (Hh : CountSpec.half_turns_of (m :: seq)
                   = ((if SimplifySpec.is_half_turn m then 1 else 0)
                      + CountSpec.half_turns_of seq)%Z).
      { unfold CountSpec.half_turns_of. cbn [filter].
        destruct (SimplifySpec.is_half_turn m); cbn [List.length]; lia. }
      destruct (SimplifySpec.is_half_turn m); cbn [Py.bind].
      * match goal with |- context [Py.for_each seq ?f ?c1] =>
          specialize (IH c1 K6); destruct (Py.for_each seq f c1) as [c|e] end.
        -- destruct IH as (A & B & C & D & E & F).
           cbn [total quarter_turns half_turns face_counts] in *.
           cbn [forallb List.length]. rewrite Eb, A, Hh, Ks in *.
           repeat split; try assumption; try lia; try (rewrite F; lia).
        -- destruct IH as (pre & x & post & -> & A & B & C).
           exists (m :: pre), x, post. cbn [forallb]. rewrite Eb, A.
           repeat split; assumption.
      * match goal with |- context [Py.for_each seq ?f ?c1] =>
          specialize (IH c1 K6); destruct (Py.for_each seq f c1) as [c|e] end.
        -- destruct IH as (A & B & C & D & E & F).
           cbn [total quarter_turns half_turns face_counts] in *.
           cbn [forallb List.length]. rewrite Eb, A, Hh, Ks in *.
           repeat split; try assumption; try lia; try (rewrite F; lia).
        -- destruct IH as (pre & x & post & -> & A & B & C).
           exists (m :: pre), x, post. cbn [forallb]. rewrite Eb, A.
           repeat split; assumption.
    + rewrite Hi. cbn [Py.bind]. exists [], m, seq. repeat split. exact Eb.
Qed.

(** ** Cutting and replacing *)

Lemma skipn_cons_nth (seq : list Move.t) : forall i,
  (i < List.length seq)%nat ->
  exists m, Py.get_at seq (Z.of_nat i) = Py.Ok m
            /\ skipn i seq = m :: skipn (S i) seq.
Proof.
  intros i Hi.
  destruct (@get_at_in_range Move.t seq (Z.of_nat i)) as (m & E & Hn); [lia|].
  exists m. split; [exact E|]. rewrite Nat2Z.id in Hn.
  clear E. revert i Hi Hn. induction seq as [|x seq IH]; intros i Hi Hn.
  - destruct i; discriminate Hn.
  - destruct i as [|i]; [now inversion Hn|].
    cbn [skipn]. apply IH; [simpl in Hi; lia | exact Hn].
Qed.

(** The loop of [replace_pattern] copies the moves from [i] on when, at
    every position it tests, the pattern is absent or is also the
    replacement. *)
Lemma replace_loop_copies seq pat rep :
  pat <> [] ->
  (forall j, (j + List.length pat <= List.length seq)%nat ->
             firstn (List.length pat) (skipn j seq) = pat -> rep = pat) ->
  forall tests i acc,
    (i <= List.length seq)%nat -> (List.length seq - i < tests)%nat ->
    replace_loop tests seq pat rep (Z.of_nat i) acc
    = Py.Ok (acc ++ skipn i seq).
Proof.
  intros Hne Hrep. induction tests as [|tests IH]; intros i acc Hi Ht; [lia|].
  cbn [replace_loop]. unfold MoveSequence.__len__.
  destruct (Z.ltb_spec (Z.of_nat i) (Z.of_nat (List.length seq))) as [Hlt|Hge].
  - rewrite slice_suffix, <- Nat2Z.inj_add.
    destruct ((Z.of_nat (i + List.length pat) <=? Z.of_nat (List.length seq))%Z
              && moves_equal (firstn (List.length pat) (skipn i seq)) pat) eqn:C.
    + apply andb_prop in C as [C1 C2]. apply Z.leb_le in C1.
      apply moves_equal_eq in C2.
      assert (Er : rep = pat) by (apply (Hrep i); assumption || lia).
      rewrite IH; [|lia|destruct pat; [congruence | simpl; lia]].
      rewrite Er at 1. rewrite <- app_assoc. f_equal.
      rewrite <- (firstn_skipn (List.length pat) (skipn i seq)).
      rewrite C2, skipn_skipn. now rewrite (Nat.add_comm i).
    + destruct (@skipn_cons_nth seq i) as (m & -> & E); [lia|].
      cbn [Py.bind].
      replace (Z.of_nat i + 1)%Z with (Z.of_nat (S i)) by lia.
      rewrite IH by lia. now rewrite <- app_assoc, E.
  - assert (i = List.length seq) by lia. subst i.
    now rewrite skipn_all, app_nil_r.
Qed.

(** The loop ends by its own test: whatever the replacement, it returns,
    and more tests than [len(sequence) - i + 1] change nothing. *)
Lemma replace_loop_ends seq pat rep :
  pat <> [] ->
  forall tests extra i acc,
    (i <= List.length seq)%nat -> (List.length seq - i < tests)%nat ->
    exists out,
      replace_loop tests seq pat rep (Z.of_nat i) acc = Py.Ok out
      /\ replace_loop (tests + extra) seq pat rep (Z.of_nat i) acc = Py.Ok out.
Proof.
  intros Hne. induction tests as [|tests IH]; intros extra i acc Hi Ht; [lia|].
  cbn [replace_loop Nat.add]. unfold MoveSequence.__len__.
  destruct (Z.ltb_spec (Z.of_nat i) (Z.of_nat (List.length seq))) as [Hlt|Hge].
  - rewrite <- Nat2Z.inj_add.
    destruct ((Z.of_nat (i + List.length pat) <=? Z.of_nat (List.length seq))%Z
              && _) eqn:C.
    + apply andb_prop in C as [C1 _]. apply Z.leb_le in C1.
      apply IH; [lia | destruct pat; [congruence | simpl; lia]].
    + destruct (@skipn_cons_nth seq i) as (m & -> & E); [lia|].
      cbn [Py.bind].
      replace (Z.of_nat i + 1)%Z with (Z.of_nat (S i)) by lia.
      apply IH; lia.
  - eexists. split; reflexivity.
Qed.

(** ** Line wrapping *)

Lemma split_str_moves m ms :
  Py.split (MoveSequence.str (m :: ms)) = map Move.str (m :: ms).
Proof.
  unfold Py.split, MoveSequence.str, Py.re_split_ws.
  change (map Move.str (m :: ms)) with (Move.str m :: map Move.str ms).
  rewrite split_join_tokens by auto using str_is_token, tokens_of_moves.
  change (Move.str m :: map Move.str ms) with (map Move.str (m :: ms)).
  induction (m :: ms) as [|x xs IH]; [reflexivity|].
  cbn [map filter]. destruct x; cbn [Move.str Py.is_empty negb]; now rewrite IH.
Qed.

Lemma weave_no_gaps ts : TextSpec.weave ts [] = Py.join " " ts.
Proof.
  induction ts as [|t [|t2 ts] IH]; try reflexivity.
  rewrite weave_cons2, join_cons2. cbn [tl TextSpec.gap_or_space].
  now rewrite IH.
Qed.

Lemma weave_line line : forall rest gaps,
  line <> [] -> rest <> [] ->
  TextSpec.weave (line ++ rest)
                 (repeat " "%string (Nat.pred (List.length line))
                  ++ String (ascii_of_nat 10) "" :: gaps)
  = (Py.join " " line ++ String (ascii_of_nat 10) ""
       ++ TextSpec.weave rest gaps)%string.
Proof.
  induction line as [|t [|t2 line] IH]; intros rest gaps Hl Hr; [congruence| |].
  - destruct rest as [|r rest]; [congruence|]. reflexivity.
  - change ((t :: t2 :: line) ++ rest) with (t :: t2 :: line ++ rest).
    rewrite weave_cons2, join_cons2.
    change (t2 :: line ++ rest) with ((t2 :: line) ++ rest).
    change (Nat.pred (List.length (t :: t2 :: line)))
      with (S (Nat.pred (List.length (t2 :: line)))).
    cbn [repeat app tl TextSpec.gap_or_space].
    change (t2 :: line ++ rest) with ((t2 :: line) ++ rest).
    rewrite IH by (assumption || discriminate).
    now rewrite !append_assoc.
Qed.

Lemma lines_weave lines :
  lines <> [] -> Forall (fun line => line <> []) lines ->
  exists gaps,
    forallb TextSpec.is_gap gaps = true
    /\ Py.join (String (ascii_of_nat 10) "") (map (Py.join " ") lines)
       = TextSpec.weave (List.concat lines) gaps.
Proof.
  induction lines as [|line [|line2 lines] IH]; intros Hne Hall; [congruence| |].
  - exists []. split; [reflexivity|]. cbn [map Py.join List.concat].
    now rewrite app_nil_r, weave_no_gaps.
  - inversion Hall as [|? ? Hline Hrest]; subst.
    destruct IH as (gaps & Hg & E); [discriminate | assumption |].
    exists (repeat " "%string (Nat.pred (List.length line))
            ++ String (ascii_of_nat 10) "" :: gaps). split.
    + rewrite forallb_app. apply andb_true_intro. split.
      * apply forallb_forall. intros x Hx. apply repeat_spec in Hx. now subst.
      * cbn [forallb]. now rewrite Hg.
    + change (map (Py.join " ") (line :: line2 :: lines))
        with (Py.join " " line :: map (Py.join " ") (line2 :: lines)).
      change (map (Py.join " ") (line2 :: lines))
        with (Py.join " " line2 :: map (Py.join " ") lines) at 1.
      rewrite join_cons2.
      change (Py.join " " line2 :: map (Py.join " ") lines)
        with (map (Py.join " ") (line2 :: lines)).
      rewrite E. change (List.concat (line :: line2 :: lines))
        with (line ++ List.concat (line2 :: lines)).
      rewrite weave_line; [reflexivity | assumption |].
      inversion Hrest; subst. cbn [List.concat].
      destruct line2; [congruence | discriminate].
Qed.

(** The wrapping loop only groups the tokens into non-empty lines. *)
Lemma wrap_loop (line_length moves_per_line : Z) tokens :
  forall groups current current_length,
    Forall (fun line => line <> []) groups ->
    exists groups' current' current_length',
      fold_left
        (fun '(lines, current_line, current_length) move =>
           let move_length :=
             (Z.of_nat (String.length move)
              + match current_line with [] => 0 | _ => 1 end)%Z in
           let '(lines, current_line, current_length) :=
             if (Z.of_nat (List.length current_line) >=? moves_per_line)%Z
                || (current_length + move_length >? line_length)%Z
             then match current_line with
                  | [] => (lines, current_line, current_length)
                  | _ => (lines ++ [Py.join " " current_line], [], 0%Z)
                  end
             else (lines, current_line, current_length) in
           (lines, current_line ++ [move], (current_length + move_length)%Z))
        tokens (map (Py.join " ") groups, current, current_length)
      = (map (Py.join " ") groups', current', current_length')
      /\ Forall (fun line => line <> []) groups'
      /\ List.concat groups' ++ current' = List.concat groups ++ current ++ tokens.
Proof.
  induction tokens as [|t tokens IH]; intros groups current current_length Hg.
  - exists groups, current, current_length. cbn [fold_left].
    now rewrite app_nil_r.
  - cbn [fold_left]. cbv zeta.
    destruct ((Z.of_nat (List.length current) >=? moves_per_line)%Z
              || (current_length
                  + (Z.of_nat (String.length t)
                     + match current with [] => 0 | _ => 1 end)
                  >? line_length)%Z).
    + destruct current as [|c current].
      * destruct (IH groups ([] ++ [t])
                     (current_length + (Z.of_nat (String.length t) + 0))%Z Hg)
          as (g' & c' & l' & E & Hg' & Hc).
        exists g', c', l'. split; [exact E|]. split; [exact Hg'|].
        rewrite Hc. reflexivity.
      * destruct (IH (groups ++ [c :: current]) ([] ++ [t])
                     (0 + (Z.of_nat (String.length t) + 1))%Z)
          as (g' & c' & l' & E & Hg' & Hc).
        { apply Forall_app. split; [exact Hg|]. constructor; [discriminate|constructor]. }
        exists g', c', l'. rewrite map_app in E. split; [exact E|].
        split; [exact Hg'|]. rewrite Hc, concat_app. cbn [List.concat].
        now rewrite app_nil_r, <- !app_assoc.
    + destruct (IH groups (current ++ [t])
                   (current_length
                    + (Z.of_nat (String.length t)
                       + match current with [] => 0 | _ => 1 end))%Z Hg)
        as (g' & c' & l' & E & Hg' & Hc).
      exists g', c', l'. split; [exact E|]. split; [exact Hg'|].
      rewrite Hc. now rewrite <- !app_assoc.
Qed.

Lemma format_moves_weave m ms line_length moves_per_line :
  exists gaps,
    forallb TextSpec.is_gap gaps = true
    /\ format_moves (m :: ms) line_length moves_per_line
       = TextSpec.weave (map Move.str (m :: ms)) gaps.
Proof.
  unfold format_moves.
  change (MoveSequence.__len__ (m :: ms) =? 0)%Z with false. cbv iota.
  rewrite split_str_moves.
  destruct (@wrap_loop line_length moves_per_line (map Move.str (m :: ms))
                       [] [] 0%Z (Forall_nil _))
    as (groups & current & len & E & Hg & Hc).
  cbn [map] in E. cbv zeta. cbn [map]. rewrite E. cbn [List.concat app] in Hc.
  destruct current as [|c current].
  - rewrite app_nil_r in Hc.
    destruct (@lines_weave groups) as (gaps & G & W);
      [destruct groups; [discriminate Hc | discriminate] | exact Hg |].
    exists gaps. split; [exact G|]. rewrite W, Hc. reflexivity.
  - destruct (@lines_weave (groups ++ [c :: current])) as (gaps & G & W).
    + destruct groups; discriminate.
    + apply Forall_app. split; [exact Hg|].
      constructor; [discriminate | constructor].
    + exists gaps. split; [exact G|].
      rewrite map_app in W. cbn [map] in W. rewrite W, concat_app.
      cbn [List.concat]. rewrite app_nil_r, Hc. reflexivity.
Qed.

(** ** Combining *)

Lemma combine_is_concat seqs : forall acc,
  fold_left MoveSequence.extend seqs acc = acc ++ List.concat seqs.
Proof.
  induction seqs as [|s seqs IH]; intros acc; cbn [fold_left List.concat].
  - now rewrite app_nil_r.
  - rewrite IH. unfold MoveSequence.extend. now rewrite app_assoc.
Qed.

Lemma rev_concat {A} (xss : list (list A)) :
  rev (List.concat xss) = List.concat (map (@rev A) (rev xss)).
Proof.
  induction xss as [|xs xss IH]; [reflexivity|].
  cbn [List.concat rev map]. rewrite rev_app_distr, IH, map_app, concat_app.
  cbn [map List.concat]. now rewrite app_nil_r.
Qed.

End NotationTools.

(** X11. [find_patterns] lists exactly the positions at which the pattern
    occurs in the sequence: [i] is reported if and only if the pattern is
    not empty and the sequence is some [i] moves, then the pattern, then
    the rest. *)
Theorem find_patterns_exact :
  forall (sequence pattern : MoveSequence.t) (i : Z),
    In i (Notations.find_patterns sequence pattern)
    <-> pattern <> []
        /\ exists before after,
             sequence = before ++ pattern ++ after
             /\ MoveSequence.__len__ before = i.
Proof. intros sequence pattern i. apply find_patterns_spec. Qed.

(** X12. [count_moves] counts sequences of face turns only.  When it
    returns, every move is a face turn, [total] is the number of moves,
    the half turns and the quarter turns add up to it, and so do the six
    face counts.  When the sequence holds a wide move, it raises
    [KeyError] with the letter of the first one. *)
Theorem count_moves_counts_face_turns :
  forall sequence : MoveSequence.t,
    match Notations.count_moves sequence with
    | Py.Ok c =>
        forallb ScrambleSpec.is_base sequence = true
        /\ Notations.total c = MoveSequence.__len__ sequence
        /\ Notations.half_turns c = CountSpec.half_turns_of sequence
        /\ (Notations.quarter_turns c + Notations.half_turns c)%Z
           = MoveSequence.__len__ sequence
        /\ map fst (Notations.face_counts c) = CountSpec.six_faces
        /\ Py.sum (map snd (Notations.face_counts c))
           = MoveSequence.__len__ sequence
    | Py.Raise e =>
        exists before wide after,
          sequence = before ++ wide :: after
          /\ forallb ScrambleSpec.is_base before = true
          /\ ScrambleSpec.is_base wide = false
          /\ e = Py.KeyError (String (SimplifySpec.letter wide) "")
    end.
Proof.
  intros sequence. unfold Notations.count_moves.
  match goal with |- context [Py.for_each sequence ?f ?c] =>
    pose proof (@count_loop sequence c eq_refl) as H;
    destruct (Py.for_each sequence f c) as [c'|e] end.
  - destruct H as (A & B & C & D & E & F).
    cbn [Notations.total Notations.quarter_turns Notations.half_turns
         Notations.face_counts] in *.
    unfold MoveSequence.__len__ in *. repeat split; try assumption; lia.
  - exact H.
Qed.

(** X13. [extract_subsequence] returns exactly when
    [0 <= start < len(sequence)] and [start <= end <= len(sequence)],
    [end] being the length when it is left out; the result is then the
    [end - start] moves that follow the first [start] moves.  Otherwise
    it raises [ValueError]; in particular it raises for every [start] on
    an empty sequence. *)
Theorem extract_subsequence_bounds :
  forall (sequence : MoveSequence.t) (start : Z) (end_ : option Z),
    let stop := match end_ with
                | Some e => e
                | None => MoveSequence.__len__ sequence
                end in
    match Notations.extract_subsequence sequence start end_ with
    | Py.Ok part =>
        (0 <= start < MoveSequence.__len__ sequence)%Z
        /\ (start <= stop <= MoveSequence.__len__ sequence)%Z
        /\ MoveSequence.__len__ part = (stop - start)%Z
        /\ exists before after,
             sequence = before ++ part ++ after
             /\ MoveSequence.__len__ before = start
    | Py.Raise e =>
        Py.class_of e = Py.ValueErrorClass
        /\ ((start < 0)%Z \/ (MoveSequence.__len__ sequence <= start)%Z
            \/ (stop < start)%Z \/ (MoveSequence.__len__ sequence < stop)%Z)
    end.
Proof.
  intros sequence start end_ stop. unfold Notations.extract_subsequence.
  fold stop. unfold MoveSequence.__len__ in *.
  destruct (Z.ltb_spec start 0); cbn [orb]; [split; [reflexivity | lia]|].
  destruct (Z.geb_spec start (Z.of_nat (List.length sequence)));
    [split; [reflexivity | lia]|].
  destruct (Z.ltb_spec stop start); cbn [orb]; [split; [reflexivity | lia]|].
  destruct (Z.gtb_spec stop (Z.of_nat (List.length sequence)));
    [split; [reflexivity | lia]|].
  split; [lia|]. split; [lia|].
  unfold Py.slice.
  assert (L : List.length (firstn (Z.to_nat (stop - start))
                                  (skipn (Z.to_nat start) sequence))
              = Z.to_nat (stop - start)).
  { apply firstn_length_le. rewrite length_skipn. lia. }
  split; [rewrite L; lia|].
  exists (firstn (Z.to_nat start) sequence),
         (skipn (Z.to_nat (stop - start)) (skipn (Z.to_nat start) sequence)).
  split.
  - now rewrite !firstn_skipn.
  - rewrite firstn_length_le; lia.
Qed.

(** X14. [replace_pattern] always returns a sequence.  Replacing a
    pattern by itself gives the sequence back, and so does any
    replacement when [find_patterns] reports no occurrence of the
    pattern. *)
Theorem replace_pattern_identity_cases :
  forall sequence pattern replacement : MoveSequence.t,
    Notations.replace_pattern sequence pattern pattern = Py.Ok sequence
    /\ match Notations.find_patterns sequence pattern with
       | [] => Notations.replace_pattern sequence pattern replacement
               = Py.Ok sequence
       | _ :: _ => exists out,
                     Notations.replace_pattern sequence pattern replacement
                     = Py.Ok out
       end.
Proof.
  intros sequence pattern replacement. unfold Notations.replace_pattern.
  destruct pattern as [|p pattern].
  { split; reflexivity. }
  change (MoveSequence.__len__ (p :: pattern) =? 0)%Z with false. cbv iota.
  split.
  - change 0%Z with (Z.of_nat 0).
    rewrite replace_loop_copies; try reflexivity; try discriminate; lia.
  - destruct (Notations.find_patterns sequence (p :: pattern)) as [|i rest] eqn:F.
    + change 0%Z with (Z.of_nat 0).
      rewrite replace_loop_copies; try reflexivity; try discriminate; try lia.
      intros j Hj Hm. exfalso.
      destruct (@found_at sequence (p :: pattern) j Hm Hj) as (pre & post & E & L).
      assert (Hin : In (Z.of_nat j) (Notations.find_patterns sequence (p :: pattern))).
      { apply find_patterns_spec. split; [discriminate|].
        exists pre, post. split; [exact E | now rewrite L]. }
      rewrite F in Hin. destruct Hin.
    + change 0%Z with (Z.of_nat 0).
      destruct (@replace_loop_ends sequence (p :: pattern) replacement
                  ltac:(discriminate) (S (List.length sequence)) 0 0 [])
        as (out & E & _); [lia | lia |].
      exists out. exact E.
Qed.

(** X15. Whatever the line length and the number of moves per line,
    the text [format_moves] lays out parses back to the sequence: the
    wrapping only chooses between a space and a line break. *)
Theorem format_moves_parses_back :
  forall (sequence : MoveSequence.t) (line_length moves_per_line : Z),
    MoveSequence.parse
      (Notations.format_moves sequence line_length moves_per_line)
    = Py.Ok sequence.
Proof.
  intros [|m ms] line_length moves_per_line; [reflexivity|].
  destruct (format_moves_weave m ms line_length moves_per_line)
    as (gaps & G & ->).
  change (map Move.str (m :: ms)) with (Move.str m :: map Move.str ms).
  rewrite <- (append_empty_r (TextSpec.weave _ gaps)).
  change (TextSpec.weave (Move.str m :: map Move.str ms) gaps ++ "")%string
    with ("" ++ TextSpec.weave (Move.str m :: map Move.str ms) gaps ++ "")%string.
  rewrite parse_padded_weave; auto using str_is_token, tokens_of_moves.
  apply (map_m_parse_tokens (m :: ms)).
Qed.

(** X16. [combine_sequences] concatenates, so the inverse of a
    combination is the combination of the inverses taken in reverse
    order, and its length is the sum of the lengths. *)
Theorem invert_combined_sequences :
  forall sequences : list MoveSequence.t,
    Notations.invert_sequence (Notations.combine_sequences sequences)
    = Notations.combine_sequences
        (map Notations.invert_sequence (rev sequences))
    /\ MoveSequence.__len__ (Notations.combine_sequences sequences)
       = Py.sum (map MoveSequence.__len__ sequences).
Proof.
  intros sequences.
  unfold Notations.combine_sequences, Notations.invert_sequence.
  rewrite !combine_is_concat. cbn [app]. split.
  - unfold MoveSequence.inverse. rewrite rev_concat, concat_map, map_map.
    reflexivity.
  - unfold MoveSequence.__len__, Py.sum.
    assert (H : forall acc,
               fold_left Z.add
                 (map (fun s : MoveSequence.t => Z.of_nat (List.length s)) sequences)
                 acc
               = (acc + Z.of_nat (List.length (List.concat sequences)))%Z).
    { induction sequences as [|s sequences IH]; intros acc;
        cbn [map fold_left List.concat List.length]; [lia|].
      rewrite IH, length_app. lia. }
    now rewrite H.
Qed.

(* ===================================================================== *)
(** * Properties of the scramble tools *)
(* ===================================================================== *)

Section ScrambleTools.

Import Scramble ScrambleSpec.

Lemma getitem_after (pre : list Move.t) x rest k :
  Z.of_nat (List.length pre) = k ->
  MoveSequence.__getitem__ (pre ++ x :: rest) k = Py.Ok x.
Proof.
  intros <-. unfold MoveSequence.__getitem__, Py.get_at.
  rewrite position_in_range by (rewrite length_app; simpl; lia).
  cbn [Py.bind]. rewrite Nat2Z.id, nth_error_app2 by lia.
  now rewrite Nat.sub_diag.
Qed.

Lemma get_move_face_letter m :
  _get_move_face m = Py.Ok (String (SimplifySpec.letter m) "").
Proof. apply first_char_str. Qed.

Lemma opposite_test x y :
  opt_eqb (get opposite_faces (String (SimplifySpec.letter x) ""))
          (Some (String (SimplifySpec.letter y) ""))
  = opposite_letters x y.
Proof. destruct x, y; reflexivity. Qed.

Lemma adjacent_loop_spec suffix : forall before,
  adjacent_loop (before ++ suffix)
    (map Z.of_nat (seq (List.length before) (List.length suffix - 1)))
  = Py.Ok (SimplifySpec.no_adjacent_same_letter suffix).
Proof.
  induction suffix as [|x [|y rest] IH]; intros before; try reflexivity.
  change (List.length (x :: y :: rest) - 1)%nat with (S (List.length rest)).
  cbn [seq map adjacent_loop].
  rewrite (@getitem_after before x (y :: rest)) by reflexivity.
  cbn [Py.bind]. rewrite get_move_face_letter. cbn [Py.bind].
  replace (before ++ x :: y :: rest) with ((before ++ [x]) ++ y :: rest)
    by now rewrite <- app_assoc.
  rewrite (@getitem_after (before ++ [x]) y rest)
    by (rewrite length_app; simpl; lia).
  cbn [Py.bind]. rewrite get_move_face_letter. cbn [Py.bind].
  rewrite ascii_string_eqb.
  change (SimplifySpec.no_adjacent_same_letter (x :: y :: rest))
    with (negb (SimplifySpec.same_letter x y)
          && SimplifySpec.no_adjacent_same_letter (y :: rest)).
  unfold SimplifySpec.same_letter.
  destruct (Ascii.eqb (SimplifySpec.letter x) (SimplifySpec.letter y));
    [reflexivity|].
  cbn [negb andb]. specialize (IH (before ++ [x])).
  rewrite length_app in IH. cbn [List.length] in IH.
  rewrite Nat.add_1_r in IH.
  replace (S (List.length rest) - 1)%nat with (List.length rest) in IH
    by lia.
  exact IH.
Qed.

Lemma triple_loop_spec suffix : forall before,
  triple_loop (before ++ suffix)
    (map Z.of_nat (seq (List.length before) (List.length suffix - 2)))
  = Py.Ok (no_letter_sandwich suffix).
Proof.
  induction suffix as [|x [|y [|z rest]] IH]; intros before; try reflexivity.
  change (List.length (x :: y :: z :: rest) - 2)%nat
    with (S (List.length rest)).
  cbn [seq map triple_loop].
  rewrite (@getitem_after before x (y :: z :: rest)) by reflexivity.
  cbn [Py.bind]. rewrite get_move_face_letter. cbn [Py.bind].
  replace (before ++ x :: y :: z :: rest)
    with ((before ++ [x]) ++ y :: z :: rest) by now rewrite <- app_assoc.
  rewrite (@getitem_after (before ++ [x]) y (z :: rest))
    by (rewrite length_app; simpl; lia).
  cbn [Py.bind]. rewrite get_move_face_letter. cbn [Py.bind].
  replace ((before ++ [x]) ++ y :: z :: rest)
    with (((before ++ [x]) ++ [y]) ++ z :: rest) by now rewrite <- !app_assoc.
  rewrite (@getitem_after ((before ++ [x]) ++ [y]) z rest)
    by (rewrite !length_app; simpl; lia).
  cbn [Py.bind]. rewrite get_move_face_letter. cbn [Py.bind].
  rewrite ascii_string_eqb, opposite_test.
  change (no_letter_sandwich (x :: y :: z :: rest))
    with (negb (Ascii.eqb (SimplifySpec.letter x) (SimplifySpec.letter z)
                && opposite_letters x y)
          && no_letter_sandwich (y :: z :: rest)).
  destruct (Ascii.eqb (SimplifySpec.letter x) (SimplifySpec.letter z)
            && opposite_letters x y); [reflexivity|].
  cbn [negb andb]. specialize (IH (before ++ [x])).
  rewrite length_app in IH. cbn [List.length] in IH.
  rewrite Nat.add_1_r in IH.
  replace (S (S (List.length rest)) - 2)%nat with (List.length rest) in IH
    by lia.
  rewrite <- !app_assoc in *. exact IH.
Qed.

Lemma is_valid_scramble_spec ms :
  is_valid_scramble ms
  = Py.Ok (SimplifySpec.no_adjacent_same_letter ms && no_letter_sandwich ms).
Proof.
  unfold is_valid_scramble, MoveSequence.__len__.
  destruct ms as [|m ms]; [reflexivity|].
  change (Z.of_nat (List.length (m :: ms)) =? 0)%Z with false. cbv iota.
  unfold Py.range.
  replace (Z.to_nat (Z.of_nat (List.length (m :: ms)) - 1))
    with (List.length (m :: ms) - 1)%nat by lia.
  replace (Z.to_nat (Z.of_nat (List.length (m :: ms)) - 2))
    with (List.length (m :: ms) - 2)%nat by lia.
  pose proof (adjacent_loop_spec (m :: ms) []) as A.
  pose proof (triple_loop_spec (m :: ms) []) as T.
  change ([] ++ m :: ms) with (m :: ms) in A, T.
  change (List.length (@nil Move.t)) with 0%nat in A, T.
  rewrite A. cbn [Py.bind].
  destruct (SimplifySpec.no_adjacent_same_letter (m :: ms)); [|reflexivity].
  cbn [negb andb]. exact T.
Qed.

(** On face turns the letter is the face. *)
Lemma base_shape ms :
  forallb is_base ms = true ->
  SimplifySpec.no_adjacent_same_letter ms = no_adjacent_same_face ms
  /\ no_letter_sandwich ms = no_sandwich ms.
Proof.
  assert (L : forall x, is_base x = true ->
                        SimplifySpec.letter x = SimplifySpec.face x)
    by (intros x; destruct x; (reflexivity || discriminate)).
  induction ms as [|x [|y [|z rest]] IH]; intros Hb; try (split; reflexivity).
  - cbn [forallb] in Hb. apply andb_prop in Hb as [Hx Hb].
    apply andb_prop in Hb as [Hy _].
    cbn [SimplifySpec.no_adjacent_same_letter no_adjacent_same_face].
    unfold SimplifySpec.same_letter. rewrite (L x Hx), (L y Hy). now split.
  - assert (Hrest : forallb is_base (y :: z :: rest) = true)
      by (cbn [forallb] in Hb; now apply andb_prop in Hb as [_ Hb]).
    destruct (IH Hrest) as [IH1 IH2].
    cbn [forallb] in Hb. apply andb_prop in Hb as [Hx Hb].
    apply andb_prop in Hb as [Hy Hb]. apply andb_prop in Hb as [Hz _].
    split.
    + change (SimplifySpec.no_adjacent_same_letter (x :: y :: z :: rest))
        with (negb (SimplifySpec.same_letter x y)
              && SimplifySpec.no_adjacent_same_letter (y :: z :: rest)).
      change (no_adjacent_same_face (x :: y :: z :: rest))
        with (negb (Ascii.eqb (SimplifySpec.face x) (SimplifySpec.face y))
              && no_adjacent_same_face (y :: z :: rest)).
      unfold SimplifySpec.same_letter. now rewrite IH1, (L x Hx), (L y Hy).
    + change (no_letter_sandwich (x :: y :: z :: rest))
        with (negb (Ascii.eqb (SimplifySpec.letter x) (SimplifySpec.letter z)
                    && opposite_letters x y)
              && no_letter_sandwich (y :: z :: rest)).
      change (no_sandwich (x :: y :: z :: rest))
        with (negb (Ascii.eqb (SimplifySpec.face x) (SimplifySpec.face z)
                    && Ascii.eqb (opposite (SimplifySpec.face x))
                                 (SimplifySpec.face y))
              && no_sandwich (y :: z :: rest)).
      unfold opposite_letters.
      now rewrite IH2, Hx, (L x Hx), (L y Hy), (L z Hz).
Qed.

(** What the generator promises, for any draws. *)
Lemma generate_scramble_tracked draws length :
  exists moves,
    generate_scramble draws length = Py.Ok moves
    /\ Z.of_nat (List.length moves) = Z.max 0 length
    /\ forallb is_base moves = true
    /\ is_valid_scramble moves = Py.Ok true.
Proof.
  unfold generate_scramble. destruct (length <=? 0)%Z eqn:E.
  - exists []. apply Z.leb_le in E. repeat split. simpl. lia.
  - apply Z.leb_gt in E.
    destruct (@scramble_loop_tracked draws (Z.to_nat length) 0 None None [])
      as (moves & Hm & Hlen & Hb & Ha & Hs).
    { constructor; reflexivity. }
    exists moves. split; [exact Hm|]. split; [rewrite Hlen; simpl; lia|].
    split; [exact Hb|]. rewrite is_valid_scramble_spec.
    destruct (base_shape moves Hb) as [-> ->]. now rewrite Ha, Hs.
Qed.

Lemma get_in {V} (items : list (string * V)) key v :
  get items key = Some v -> In (key, v) items.
Proof.
  induction items as [|[k x] items IH]; [discriminate|]. simpl.
  destruct (String.eqb_spec k key) as [->|_].
  - intros H. inversion H. now left.
  - intros H. right. now apply IH.
Qed.

Lemma get_none {V} (items : list (string * V)) key :
  get items key = None -> ~ In key (map fst items).
Proof.
  induction items as [|[k x] items IH]; [intros _ []|]. simpl.
  destruct (String.eqb_spec k key) as [->|Hne]; [discriminate|].
  intros H [E|Hin]; [now apply Hne | now apply IH].
Qed.

End ScrambleTools.

Section Generators.

Import ScrambleGenerator.

Lemma next_scramble_valid draws used length :
  exists scramble,
    next_scramble draws used length
    = Py.Ok (scramble, (used + 2 * List.length scramble)%nat)
    /\ Z.of_nat (List.length scramble) = Z.max 0 length
    /\ Scramble.is_valid_scramble scramble = Py.Ok true.
Proof.
  unfold next_scramble.
  destruct (generate_scramble_tracked (fun k => draws (used + k)%nat) length)
    as (moves & -> & Hlen & _ & Hv).
  exists moves. now repeat split.
Qed.

Lemma remember_bound self scramble :
  max_history (remember self scramble) = max_history self
  /\ (Z.of_nat (List.length (last_scrambles (remember self scramble)))
      <= Z.max (max_history self)
               (Z.of_nat (List.length (last_scrambles self))))%Z
  /\ forall other, In other (last_scrambles (remember self scramble)) ->
                   other = scramble \/ In other (last_scrambles self).
Proof.
  unfold remember. cbn [max_history last_scrambles].
  split; [reflexivity|].
  destruct (Z.gtb_spec (Z.of_nat (List.length (last_scrambles self ++ [scramble])))
                       (max_history self)) as [H|H].
  - split.
    + rewrite length_app in H. cbn [List.length] in H.
      destruct (last_scrambles self) as [|h t]; cbn [app tl List.length] in *;
        [lia|]. rewrite length_app. cbn [List.length]. lia.
    + intros other Hin.
      assert (Hin' : In other (last_scrambles self ++ [scramble])).
      { destruct (last_scrambles self ++ [scramble]); [destruct Hin | now right]. }
      apply in_app_or in Hin' as [Hin'|[<-|[]]]; auto.
  - split; [lia|]. intros other Hin.
    apply in_app_or in Hin as [Hin|[<-|[]]]; auto.
Qed.

Lemma generate_loop_valid draws length avoid self attempts : forall used,
  exists scramble used',
    generate_loop attempts self draws used length avoid
    = Py.Ok (scramble, remember self scramble, used')
    /\ Z.of_nat (List.length scramble) = Z.max 0 length
    /\ Scramble.is_valid_scramble scramble = Py.Ok true
    /\ (used <= used')%nat.
Proof.
  induction attempts as [|attempts IH]; intros used; cbn [generate_loop];
    destruct (next_scramble_valid draws used length) as (s & -> & Hl & Hv);
    cbn [Py.bind].
  - exists s, (used + 2 * List.length s)%nat. repeat split; auto. lia.
  - destruct (negb avoid || negb (known s (last_scrambles self))).
    + exists s, (used + 2 * List.length s)%nat. repeat split; auto. lia.
    + destruct (IH (used + 2 * List.length s)%nat) as (s' & u' & E & A & B & C).
      exists s', u'. repeat split; auto. lia.
Qed.

Lemma reachable_history self :
  ScrambleSpec.reachable self ->
  max_history self = 100%Z
  /\ (List.length (last_scrambles self) <= 100)%nat
  /\ Forall (fun s => Scramble.is_valid_scramble s = Py.Ok true)
            (last_scrambles self).
Proof.
  induction 1 as [|self draws used length avoid scramble self' used' _ IH E
                  |self _ IH].
  - repeat split; [cbn; lia | constructor].
  - destruct IH as (M & L & V). unfold generate in E.
    destruct (generate_loop_valid draws length avoid self 50 used)
      as (s & u & E' & _ & Hv & _).
    rewrite E' in E. inversion E; subst.
    destruct (remember_bound self scramble) as (M' & L' & V').
    split; [congruence|]. split; [lia|].
    apply Forall_forall. intros other Hin. apply V' in Hin as [->|Hin];
      [exact Hv|]. rewrite Forall_forall in V. now apply V.
  - destruct IH as (M & _ & _). repeat split; [exact M | cbn; lia | constructor].
Qed.

End Generators.

(** X17. [is_valid_scramble] never raises, and it answers [True] exactly
    when no two adjacent moves carry the same notation letter and no
    three consecutive moves carry a face letter, the letter of the
    opposite face, and the first letter again.  Letters are compared as
    written, so a wide move and the face turn of the same face pass as
    different faces. *)
Theorem is_valid_scramble_exact :
  forall scramble : MoveSequence.t,
    Scramble.is_valid_scramble scramble
    = Py.Ok (SimplifySpec.no_adjacent_same_letter scramble
             && ScrambleSpec.no_letter_sandwich scramble).
Proof. intros scramble. apply is_valid_scramble_spec. Qed.

(** X18. Whatever the random draws and the requested length, the
    scramble [generate_scramble] returns is accepted by
    [is_valid_scramble]. *)
Theorem generated_scrambles_are_valid :
  forall (draws : nat -> nat) (length : Z),
    (scramble <- Scramble.generate_scramble draws length ;;
     Scramble.is_valid_scramble scramble) = Py.Ok true.
Proof.
  intros draws length.
  destruct (generate_scramble_tracked draws length) as (moves & -> & _ & _ & H).
  exact H.
Qed.

(** X19. [generate_pattern_scramble] looks the name up in lower case.
    For eight of its ten pattern names it returns a non-empty sequence of
    face turns.  For the two names whose notation uses slice moves,
    checkerboard and h_pattern, it raises [ValueError], as it does, with
    another message, for every name that is not in the table. *)
Theorem pattern_scramble_outcomes :
  forall pattern_name : string,
    match Scramble.generate_pattern_scramble pattern_name with
    | Py.Ok moves =>
        In (Py.lower pattern_name)
           ["cube_in_cube"; "superflip"; "four_spots"; "six_spots"; "cross";
            "plus"; "tetris"; "anaconda"]%string
        /\ forallb ScrambleSpec.is_base moves = true
        /\ moves <> []
    | Py.Raise e =>
        (In (Py.lower pattern_name) ["checkerboard"; "h_pattern"]%string
         /\ e = Py.ValueError
                  "Invalid move sequence: Invalid move notation: M2")
        \/ (~ In (Py.lower pattern_name) (map fst Scramble.patterns)
            /\ e = Py.ValueError ("Unknown pattern: " ++ pattern_name)%string)
    end.
Proof.
  intros pattern_name. unfold Scramble.generate_pattern_scramble.
  destruct (Scramble.get Scramble.patterns (Py.lower pattern_name))
    as [text|] eqn:G.
  - apply get_in in G. generalize dependent (Py.lower pattern_name).
    intros key G. cbn [Scramble.patterns In] in G.
    repeat (destruct G as [G|G];
            [inversion G; subst; vm_compute;
             first [ left; split; [tauto | reflexivity]
                   | split; [tauto | split; [reflexivity | discriminate]] ]|]).
    destruct G.
  - right. split; [now apply get_none | reflexivity].
Qed.

(** X20. [ScrambleGenerator.generate] always returns: a scramble of the
    requested length that [is_valid_scramble] accepts.  The call leaves
    [max_history] as it was, and the history no longer than the larger
    of [max_history] and its length before the call. *)
Theorem generator_returns_valid_scrambles :
  forall (self : ScrambleGenerator.t) (draws : nat -> nat) (used : nat)
         (length : Z) (avoid_repetition : bool),
    exists scramble self' used',
      ScrambleGenerator.generate self draws used length avoid_repetition
      = Py.Ok (scramble, self', used')
      /\ MoveSequence.__len__ scramble = Z.max 0 length
      /\ Scramble.is_valid_scramble scramble = Py.Ok true
      /\ ScrambleGenerator.max_history self'
         = ScrambleGenerator.max_history self
      /\ (Z.of_nat (List.length (ScrambleGenerator.last_scrambles self'))
          <= Z.max (ScrambleGenerator.max_history self)
                   (Z.of_nat (List.length
                                (ScrambleGenerator.last_scrambles self))))%Z.
Proof.
  intros self draws used length avoid. unfold ScrambleGenerator.generate.
  destruct (generate_loop_valid draws length avoid self 50 used)
    as (s & u & E & Hl & Hv & _).
  destruct (remember_bound self s) as (M & L & _).
  exists s, (ScrambleGenerator.remember self s), u. repeat split; auto.
Qed.

(** X21. The history of a [ScrambleGenerator] stays bounded: a generator
    obtained from a new one by any calls of [generate] and
    [clear_history] remembers at most 100 scrambles, all of them
    accepted by [is_valid_scramble]. *)
Theorem generator_history_bounded :
  forall self : ScrambleGenerator.t,
    ScrambleSpec.reachable self ->
    ScrambleGenerator.max_history self = 100%Z
    /\ (List.length (ScrambleGenerator.last_scrambles self) <= 100)%nat
    /\ Forall (fun s => Scramble.is_valid_scramble s = Py.Ok true)
              (ScrambleGenerator.last_scrambles self).
Proof. intros self H. now apply reachable_history. Qed.

Lemma generator_history_bounded_witness :
  ScrambleGenerator.max_history
    (ScrambleGenerator.remember ScrambleGenerator.__init__ [Move.R]) = 100%Z
  /\ (List.length
        (ScrambleGenerator.last_scrambles
           (ScrambleGenerator.remember ScrambleGenerator.__init__ [Move.R]))
      <= 100)%nat
  /\ Forall (fun s => Scramble.is_valid_scramble s = Py.Ok true)
            (ScrambleGenerator.last_scrambles
               (ScrambleGenerator.remember ScrambleGenerator.__init__ [Move.R])).
Proof.
  apply (@generator_history_bounded
           (ScrambleGenerator.remember ScrambleGenerator.__init__ [Move.R])).
  apply (@ScrambleSpec.reach_generate ScrambleGenerator.__init__
           (fun _ => 0%nat) 0%nat 1%Z true [Move.R] _ 2%nat
           ScrambleSpec.reach_new).
  reflexivity.
Defined.

(* ===================================================================== *)
(** * Properties of the move bodies and of the search *)
(* ===================================================================== *)

Section MoveBodies.

Import CubeState Legal.

Lemma map_nth_seq (xs : list Z) :
  map (fun i => nth (Z.to_nat i) xs 0%Z) (CubeState.range (List.length xs)) = xs.
Proof.
  unfold CubeState.range. rewrite map_map.
  apply nth_ext with (d := 0%Z) (d' := 0%Z).
  - now rewrite length_map, length_seq.
  - intros n Hn. rewrite length_map, length_seq in Hn.
    rewrite (nth_indep _ 0%Z (nth (Z.to_nat (Z.of_nat 0)) xs 0%Z))
      by now rewrite length_map, length_seq.
    rewrite (map_nth (fun x => nth (Z.to_nat (Z.of_nat x)) xs 0%Z)).
    rewrite seq_nth by assumption. now rewrite Nat2Z.id.
Qed.

Lemma pick_permutation positions xs :
  Validators._is_valid_permutation positions (List.length xs) = true ->
  Permutation (pick positions xs) xs.
Proof.
  intros H. apply is_valid_permutation_iff in H.
  unfold pick.
  apply (Permutation_map (fun i => nth (Z.to_nat i) xs 0%Z)) in H.
  now rewrite map_nth_seq in H.
Qed.

Lemma forallb_permutation {A} (f : A -> bool) xs ys :
  Permutation xs ys -> forallb f xs = forallb f ys.
Proof.
  induction 1 as [|x xs ys _ IH|x y xs|xs ys zs _ IH1 _ IH2]; simpl.
  - reflexivity.
  - now rewrite IH.
  - destruct (f x), (f y); reflexivity.
  - congruence.
Qed.

Lemma sum_permutation xs ys : Permutation xs ys -> Py.sum xs = Py.sum ys.
Proof.
  induction 1 as [|x xs ys _ IH|x y xs|xs ys zs _ IH1 _ IH2].
  - reflexivity.
  - now rewrite !sum_cons, IH.
  - rewrite !sum_cons. lia.
  - congruence.
Qed.

Lemma valid_permutation_permutation xs ys n :
  Permutation xs ys ->
  Validators._is_valid_permutation xs n = Validators._is_valid_permutation ys n.
Proof.
  intros H.
  destruct (Validators._is_valid_permutation xs n) eqn:X;
    destruct (Validators._is_valid_permutation ys n) eqn:Y; try reflexivity.
  - apply is_valid_permutation_iff in X.
    assert (Y' : Validators._is_valid_permutation ys n = true)
      by (apply is_valid_permutation_iff;
          eapply perm_trans; [apply Permutation_sym, H | exact X]).
    congruence.
  - apply is_valid_permutation_iff in Y.
    assert (X' : Validators._is_valid_permutation xs n = true)
      by (apply is_valid_permutation_iff; eapply perm_trans; [exact H | exact Y]).
    congruence.
Qed.

(** Whatever only rearranges the entries keeps the data model, the
    bijections and both orientation sums. *)
Lemma same_entries_invariants s' s :
  same_entries s' s ->
  well_typed s' = well_typed s
  /\ bijections s' = bijections s
  /\ Py.sum (corner_orient s') = Py.sum (corner_orient s)
  /\ Py.sum (edge_orient s') = Py.sum (edge_orient s).
Proof.
  intros (P1 & P2 & P3 & P4). unfold well_typed, bijections.
  rewrite (Permutation_length P1), (Permutation_length P2),
    (Permutation_length P3), (Permutation_length P4),
    (forallb_permutation _ P1), (forallb_permutation _ P2),
    (forallb_permutation _ P3), (forallb_permutation _ P4),
    (valid_permutation_permutation 8 P1),
    (valid_permutation_permutation 12 P3),
    (sum_permutation P2), (sum_permutation P4).
  repeat split; reflexivity.
Qed.

(** The R and the U body written as rearrangements. *)
Lemma r_turn_picks s :
  well_typed s = true ->
  r_turn s
  = Py.Ok (Build (pick [3; 1; 2; 7; 0; 5; 6; 4]%Z (corner_perm s))
                 (pick [3; 1; 2; 7; 0; 5; 6; 4]%Z (corner_orient s))
                 (pick [8; 1; 2; 3; 11; 5; 6; 7; 4; 9; 10; 0]%Z (edge_perm s))
                 (pick [8; 1; 2; 3; 11; 5; 6; 7; 4; 9; 10; 0]%Z (edge_orient s))).
Proof.
  intros H. destruct (well_typed_lengths s H) as (H1 & H2 & H3 & H4).
  destruct s as [cp co ep eo]. simpl in H1, H2, H3, H4.
  explode_list cp H1. explode_list co H2.
  explode_list ep H3. explode_list eo H4. reflexivity.
Qed.

Lemma u_turn_picks s :
  well_typed s = true ->
  u_turn s
  = Py.Ok (Build (pick [1; 2; 3; 0; 4; 5; 6; 7]%Z (corner_perm s))
                 (pick [1; 2; 3; 0; 4; 5; 6; 7]%Z (corner_orient s))
                 (pick [1; 2; 3; 0; 4; 5; 6; 7; 8; 9; 10; 11]%Z (edge_perm s))
                 (pick [1; 2; 3; 0; 4; 5; 6; 7; 8; 9; 10; 11]%Z (edge_orient s))).
Proof.
  intros H. destruct (well_typed_lengths s H) as (H1 & H2 & H3 & H4).
  destruct s as [cp co ep eo]. simpl in H1, H2, H3, H4.
  explode_list cp H1. explode_list co H2.
  explode_list ep H3. explode_list eo H4. reflexivity.
Qed.

Lemma picks_same_entries s c e :
  well_typed s = true ->
  Validators._is_valid_permutation c 8 = true ->
  Validators._is_valid_permutation e 12 = true ->
  same_entries (Build (pick c (corner_perm s)) (pick c (corner_orient s))
                      (pick e (edge_perm s)) (pick e (edge_orient s))) s.
Proof.
  intros H Hc He. destruct (well_typed_lengths s H) as (H1 & H2 & H3 & H4).
  unfold same_entries. cbn [corner_perm corner_orient edge_perm edge_orient].
  repeat split; apply pick_permutation; congruence.
Qed.

(** The F body: both permutation arrays are rearranged as by a turn of
    the front face; every corner orientation that moves gets one twist
    more, and the edge orientations stored at positions 1 and 5 are
    flipped. *)
Lemma f_turn_shape s :
  well_typed s = true ->
  exists co eo,
    f_turn s
    = Py.Ok (Build (pick [4; 0; 2; 3; 5; 1; 6; 7]%Z (corner_perm s)) co
                   (pick [0; 8; 2; 3; 4; 9; 6; 7; 5; 1; 10; 11]%Z (edge_perm s)) eo)
    /\ List.length co = 8%nat /\ List.length eo = 12%nat
    /\ forallb (in_range 0 3) co = true
    /\ forallb (in_range 0 2) eo = true
    /\ ((Py.sum co) mod 3 = (Py.sum (corner_orient s) + 1) mod 3)%Z
    /\ ((Py.sum eo) mod 2 = (Py.sum (edge_orient s)) mod 2)%Z.
Proof.
  intros H. destruct (well_typed_lengths s H) as (H1 & H2 & H3 & H4).
  unfold well_typed in H.
  repeat (let T := fresh "T" in apply andb_prop in H as [H T]). clear H.
  destruct s as [cp co ep eo].
  cbn [corner_perm corner_orient edge_perm edge_orient] in *.
  explode_list cp H1. explode_list co H2.
  explode_list ep H3. explode_list eo H4.
  do 2 eexists. split; [reflexivity|].
  split; [reflexivity|]. split; [reflexivity|].
  cbn [forallb] in T, T1.
  repeat (let R := fresh "R" in apply andb_prop in T as [R T]).
  repeat (let R := fresh "R" in apply andb_prop in T1 as [R T1]).
  clear T T1 T0 T2.
  unfold in_range in *.
  repeat match goal with
  | R : _ && _ = true |- _ =>
      let A := fresh "A" in let B := fresh "B" in
      apply andb_prop in R as [A B]; apply Z.leb_le in A; apply Z.ltb_lt in B
  end.
  cbn [forallb existsb Nat.eqb orb nth]. unfold Py.sum. cbn [fold_left].
  repeat split.
  - rewrite !andb_true_iff, !Z.leb_le, !Z.ltb_lt.
    repeat split; try assumption; apply Z.mod_pos_bound; lia.
  - rewrite !andb_true_iff, !Z.leb_le, !Z.ltb_lt.
    repeat split; try assumption; apply Z.mod_pos_bound; lia.
  - Z.div_mod_to_equations. lia.
  - Z.div_mod_to_equations. lia.
Qed.

Lemma f_turn_four_times s :
  well_typed s = true ->
  exists co,
    (s1 <- f_turn s ;; s2 <- f_turn s1 ;; s3 <- f_turn s2 ;; f_turn s3)
    = Py.Ok (Build (corner_perm s) co (edge_perm s) (edge_orient s))
    /\ co = map (fun '(i, o) =>
                   if existsb (Z.eqb i) [0; 1; 4; 5]%Z
                   then ((o + 1) mod 3)%Z else o)
                (enumerate (corner_orient s)).
Proof.
  intros H. destruct (well_typed_lengths s H) as (H1 & H2 & H3 & H4).
  unfold well_typed in H.
  repeat (let T := fresh "T" in apply andb_prop in H as [H T]). clear H.
  destruct s as [cp co ep eo].
  cbn [corner_perm corner_orient edge_perm edge_orient] in *.
  explode_list cp H1. explode_list co H2.
  explode_list ep H3. explode_list eo H4.
  cbn [forallb] in T, T1.
  repeat (let R := fresh "R" in apply andb_prop in T as [R T]).
  repeat (let R := fresh "R" in apply andb_prop in T1 as [R T1]).
  clear T T1 T0 T2.
  unfold in_range in *.
  repeat match goal with
  | R : _ && _ = true |- _ =>
      let A := fresh "A" in let B := fresh "B" in
      apply andb_prop in R as [A B]; apply Z.leb_le in A; apply Z.ltb_lt in B
  end.
  eexists. split; [|reflexivity].
  cbv -[Z.add Z.modulo]. do 2 f_equal.
  - repeat (f_equal; try (Z.div_mod_to_equations; lia)).
  - repeat (f_equal; try (Z.div_mod_to_equations; lia)).
Qed.

End MoveBodies.

Section SearchStops.

Import IDAStarSolver.

Variable self : IDAStarSolver.t.
Variable w : IDAStarSolver.world.
Variable state : CubeState.t.
Hypothesis two_corners : (2 <= List.length (CubeState.corner_perm state))%nat.

Lemma try_moves_stops search path remaining : forall min_bound now,
  try_moves search state path remaining min_bound now
  = Some (Py.Raise ambiguous_truth)
  \/ try_moves search state path remaining min_bound now
     = Some (Py.Ok (NewBound min_bound, now)).
Proof.
  induction remaining as [|move rest IH]; intros min_bound now.
  - now right.
  - cbn [try_moves].
    assert (Hskip : exists b,
               match last_of path with
               | Some previous => _is_redundant move previous
               | None => Py.Ok false
               end = Py.Ok b).
    { destruct (last_of path); [apply is_redundant_total | now exists false]. }
    destruct Hskip as [[|] ->]; [apply IH|].
    unfold CubeState.apply. rewrite (apply_move_raises state move two_corners).
    now left.
Qed.

Lemma search_stops budget g limit path visited now :
  _search (S budget) self w state g limit path visited now
  = Some (Py.Raise ambiguous_truth)
  \/ (exists b now',
        _search (S budget) self w state g limit path visited now
        = Some (Py.Ok (NewBound b, now')))
  \/ CubeState.is_solved state = true.
Proof.
  cbn [_search]. destruct (must_stop self w now) as [stop now'].
  destruct stop; [right; left; eauto|].
  destruct (bound_ltb limit _); [right; left; eauto|].
  destruct (CubeState.is_solved state); [now right; right|].
  destruct (existsb _ visited); [right; left; eauto|].
  match goal with |- context [try_moves ?s state path ?ms ?b ?n] =>
    destruct (try_moves_stops s path ms b n) as [-> | ->] end;
    [now left | right; left; eauto].
Qed.

Lemma solve_loop_stops depths budget :
  CubeState.is_solved state = false ->
  forall limit now,
  exists e,
    solve_loop depths (S budget) self w state limit now = Some (Py.Raise e)
    /\ In e [cancelled_error; timeout_error; depth_error; ambiguous_truth].
Proof.
  intros Hs. induction depths as [|depths IH]; intros limit now.
  - eexists. split; [reflexivity|]. simpl. tauto.
  - cbn [solve_loop]. destruct (cancelled w now).
    { eexists. split; [reflexivity|]. simpl. tauto. }
    destruct (negb _).
    { eexists. split; [reflexivity|]. simpl. tauto. }
    destruct (search_stops budget 0 limit [] [] (S (S now)))
      as [-> | [(b & now' & ->) | Hsolved]].
    + eexists. split; [reflexivity|]. simpl. tauto.
    + apply IH.
    + congruence.
Qed.

End SearchStops.


(** X22. No move can be applied: on every state with two corner entries
    or more, so on every state of the data model, [apply_move] raises
    the [ValueError] of [numpy] for every one of the 36 moves, and
    [apply_to] raises it for every sequence that is not empty; the empty
    sequence gives the state back. *)
Theorem moves_cannot_be_applied :
  forall (state : CubeState.t) (move : Move.t) (moves : MoveSequence.t),
    (2 <= List.length (CubeState.corner_perm state))%nat ->
    CubeState.apply_move state move = Py.Raise ambiguous_truth
    /\ CubeState.apply move state = Py.Raise ambiguous_truth
    /\ CubeState.apply_to (move :: moves) state = Py.Raise ambiguous_truth
    /\ CubeState.apply_to [] state = Py.Ok state.
Proof.
  intros state move moves H.
  pose proof (apply_move_raises state move H) as E.
  repeat split; try exact E.
  unfold CubeState.apply_to. cbn [Py.for_each]. unfold CubeState.apply.
  now rewrite E.
Qed.

Lemma moves_cannot_be_applied_witness :
  CubeState.apply_move Samples.r_turned Move.U = Py.Raise ambiguous_truth
  /\ CubeState.apply Move.U Samples.r_turned = Py.Raise ambiguous_truth
  /\ CubeState.apply_to [Move.U; Move.R] Samples.r_turned
     = Py.Raise ambiguous_truth
  /\ CubeState.apply_to [] Samples.r_turned = Py.Ok Samples.r_turned.
Proof.
  apply (@moves_cannot_be_applied Samples.r_turned Move.U [Move.R]).
  simpl. lia.
Defined.

(** X23. The bodies of the R and the U turn, run on a state of the data
    model, only move entries: each of the four arrays of the result
    holds the entries of the array it came from, so the result is again
    a state of the data model, the permutation arrays are bijections
    exactly when they were, and both orientation sums are unchanged.
    Either body run four times gives the state back. *)
Theorem r_and_u_bodies_rearrange :
  forall s : CubeState.t,
    Legal.well_typed s = true ->
    Forall
      (fun turn =>
         (exists s',
             turn s = Py.Ok s'
             /\ Legal.same_entries s' s
             /\ Legal.well_typed s' = true
             /\ Legal.bijections s' = Legal.bijections s
             /\ Py.sum (CubeState.corner_orient s')
                = Py.sum (CubeState.corner_orient s)
             /\ Py.sum (CubeState.edge_orient s')
                = Py.sum (CubeState.edge_orient s))
         /\ (s1 <- turn s ;; s2 <- turn s1 ;; s3 <- turn s2 ;; turn s3)
            = Py.Ok s)
      [CubeState.r_turn; CubeState.u_turn].
Proof.
  intros s H. repeat constructor.
  - eexists. split; [apply (r_turn_picks s H)|].
    assert (E : Legal.same_entries
                  (CubeState.Build
                     (Legal.pick [3; 1; 2; 7; 0; 5; 6; 4]%Z (CubeState.corner_perm s))
                     (Legal.pick [3; 1; 2; 7; 0; 5; 6; 4]%Z (CubeState.corner_orient s))
                     (Legal.pick [8; 1; 2; 3; 11; 5; 6; 7; 4; 9; 10; 0]%Z (CubeState.edge_perm s))
                     (Legal.pick [8; 1; 2; 3; 11; 5; 6; 7; 4; 9; 10; 0]%Z (CubeState.edge_orient s)))
                  s)
      by (apply picks_same_entries; [exact H | reflexivity | reflexivity]).
    destruct (same_entries_invariants E) as (A & B & C & D).
    repeat split; try apply E; congruence.
  - apply (r_turn_order_four s H).
  - eexists. split; [apply (u_turn_picks s H)|].
    assert (E : Legal.same_entries
                  (CubeState.Build
                     (Legal.pick [1; 2; 3; 0; 4; 5; 6; 7]%Z (CubeState.corner_perm s))
                     (Legal.pick [1; 2; 3; 0; 4; 5; 6; 7]%Z (CubeState.corner_orient s))
                     (Legal.pick [1; 2; 3; 0; 4; 5; 6; 7; 8; 9; 10; 11]%Z (CubeState.edge_perm s))
                     (Legal.pick [1; 2; 3; 0; 4; 5; 6; 7; 8; 9; 10; 11]%Z (CubeState.edge_orient s)))
                  s)
      by (apply picks_same_entries; [exact H | reflexivity | reflexivity]).
    destruct (same_entries_invariants E) as (A & B & C & D).
    repeat split; try apply E; congruence.
  - apply (u_turn_order_four s H).
Qed.

Lemma r_and_u_bodies_rearrange_witness :
  Forall
    (fun turn =>
       (exists s',
           turn Samples.r_turned = Py.Ok s'
           /\ Legal.same_entries s' Samples.r_turned
           /\ Legal.well_typed s' = true
           /\ Legal.bijections s' = Legal.bijections Samples.r_turned
           /\ Py.sum (CubeState.corner_orient s')
              = Py.sum (CubeState.corner_orient Samples.r_turned)
           /\ Py.sum (CubeState.edge_orient s')
              = Py.sum (CubeState.edge_orient Samples.r_turned))
       /\ (s1 <- turn Samples.r_turned ;; s2 <- turn s1 ;;
           s3 <- turn s2 ;; turn s3) = Py.Ok Samples.r_turned)
    [CubeState.r_turn; CubeState.u_turn].
Proof.
  apply (@r_and_u_bodies_rearrange Samples.r_turned). reflexivity.
Defined.

(** X24. The body of the F turn, run on a state of the data model,
    returns a state of the data model whose permutation arrays hold the
    entries they held, so they are bijections exactly when they were,
    and it keeps the edge flip sum even or odd as it was; but it adds 1
    modulo 3 to the corner twist sum.  Run four times it restores both
    permutations and the edge orientations, and leaves the corners at
    positions 0, 1, 4 and 5 with one twist more. *)
Theorem f_body_twists_corners :
  forall s : CubeState.t,
    Legal.well_typed s = true ->
    (exists s',
        CubeState.f_turn s = Py.Ok s'
        /\ Legal.well_typed s' = true
        /\ Permutation (CubeState.corner_perm s') (CubeState.corner_perm s)
        /\ Permutation (CubeState.edge_perm s') (CubeState.edge_perm s)
        /\ Legal.bijections s' = Legal.bijections s
        /\ Legal.flip_ok s' = Legal.flip_ok s
        /\ (Py.sum (CubeState.corner_orient s') mod 3
            = (Py.sum (CubeState.corner_orient s) + 1) mod 3)%Z)
    /\ (s1 <- CubeState.f_turn s ;; s2 <- CubeState.f_turn s1 ;;
        s3 <- CubeState.f_turn s2 ;; CubeState.f_turn s3)
       = Py.Ok (CubeState.Build
                  (CubeState.corner_perm s)
                  (map (fun '(i, o) =>
                          if existsb (Z.eqb i) [0; 1; 4; 5]%Z
                          then ((o + 1) mod 3)%Z else o)
                       (CubeState.enumerate (CubeState.corner_orient s)))
                  (CubeState.edge_perm s) (CubeState.edge_orient s)).
Proof.
  intros s H. split.
  - destruct (f_turn_shape s H) as (co & eo & E & L1 & L2 & R1 & R2 & S1 & S2).
    destruct (well_typed_lengths s H) as (H1 & H2 & H3 & H4).
    assert (P1 : Permutation (Legal.pick [4; 0; 2; 3; 5; 1; 6; 7]%Z (CubeState.corner_perm s))
                             (CubeState.corner_perm s))
      by (apply pick_permutation; rewrite H1; reflexivity).
    assert (P2 : Permutation (Legal.pick [0; 8; 2; 3; 4; 9; 6; 7; 5; 1; 10; 11]%Z
                                         (CubeState.edge_perm s))
                             (CubeState.edge_perm s))
      by (apply pick_permutation; rewrite H3; reflexivity).
    eexists. split; [exact E|].
    cbn [CubeState.corner_perm CubeState.corner_orient
         CubeState.edge_perm CubeState.edge_orient].
    split; [|split; [exact P1 | split; [exact P2 | split; [|split; [|exact S1]]]]].
    + unfold Legal.well_typed in *.
      cbn [CubeState.corner_perm CubeState.corner_orient
           CubeState.edge_perm CubeState.edge_orient].
      rewrite (Permutation_length P1), (Permutation_length P2), L1, L2,
        (forallb_permutation _ P1), (forallb_permutation _ P2), R1, R2.
      rewrite !andb_true_iff in H. rewrite H1, H3.
      destruct H as [[[[[[[_ _] _] _] A] _] B] _]. now rewrite A, B.
    + unfold Legal.bijections.
      cbn [CubeState.corner_perm CubeState.edge_perm].
      now rewrite (valid_permutation_permutation 8 P1),
        (valid_permutation_permutation 12 P2).
    + unfold Legal.flip_ok. cbn [CubeState.edge_orient]. now rewrite S2.
  - destruct (f_turn_four_times s H) as (co & E & ->). exact E.
Qed.

Lemma f_body_twists_corners_witness :
  exists s',
    CubeState.f_turn CubeState.solved = Py.Ok s'
    /\ Legal.well_typed s' = true
    /\ Permutation (CubeState.corner_perm s')
                   (CubeState.corner_perm CubeState.solved)
    /\ Permutation (CubeState.edge_perm s')
                   (CubeState.edge_perm CubeState.solved)
    /\ Legal.bijections s' = Legal.bijections CubeState.solved
    /\ Legal.flip_ok s' = Legal.flip_ok CubeState.solved
    /\ (Py.sum (CubeState.corner_orient s') mod 3
        = (Py.sum (CubeState.corner_orient CubeState.solved) + 1) mod 3)%Z.
Proof.
  apply (@f_body_twists_corners CubeState.solved). reflexivity.
Defined.

(** X25. The search solves nothing: on a state of the data model,
    whatever the other thread and the clock do, [solve] returns a
    sequence only when the state is already solved, and the sequence is
    then empty.  On every other state it raises one of its three errors
    or the [ValueError] that [numpy] raises when the first move is
    applied. *)
Theorem solve_returns_only_on_the_solved_state :
  forall (budget : nat) (self : IDAStarSolver.t) (w : IDAStarSolver.world)
         (state : CubeState.t),
    Legal.well_typed state = true ->
    match IDAStarSolver.solve (S budget) self w state with
    | Some (Py.Ok moves) => state = CubeState.solved /\ moves = []
    | Some (Py.Raise e) =>
        state <> CubeState.solved
        /\ In e [IDAStarSolver.cancelled_error; IDAStarSolver.timeout_error;
                 IDAStarSolver.depth_error; ambiguous_truth]
    | None => False
    end.
Proof.
  intros budget self w state H. unfold IDAStarSolver.solve.
  destruct (CubeState.is_solved state) eqn:E.
  - split; [now apply is_solved_iff | reflexivity].
  - destruct (well_typed_lengths state H) as (H8 & _).
    destruct (@solve_loop_stops self w state ltac:(lia)
                (Z.to_nat (IDAStarSolver.max_depth self)) budget E
                (IDAStarSolver.Finite (IDAStarSolver._heuristic state)) 0%nat)
      as (e & -> & He).
    split; [|exact He]. intros Hs. apply is_solved_iff in Hs. congruence.
Qed.

Lemma solve_returns_only_on_the_solved_state_witness :
  match IDAStarSolver.solve 1 IDAStarSolver.__init__ Samples.world_quiet
                            Samples.r_turned with
  | Some (Py.Ok moves) => Samples.r_turned = CubeState.solved /\ moves = []
  | Some (Py.Raise e) =>
      Samples.r_turned <> CubeState.solved
      /\ In e [IDAStarSolver.cancelled_error; IDAStarSolver.timeout_error;
               IDAStarSolver.depth_error; ambiguous_truth]
  | None => False
  end.
Proof.
  apply (@solve_returns_only_on_the_solved_state
           0 IDAStarSolver.__init__ Samples.world_quiet Samples.r_turned).
  reflexivity.
Defined.

(** X26. [_is_redundant] never raises and does not depend on the order
    of its two moves: it answers [True] exactly when the moves carry the
    same notation letter or the letters of two opposite faces.  So the
    search skips a turn of the opposite face after a face turn in both
    orders. *)
Theorem is_redundant_symmetric :
  forall move1 move2 : Move.t,
    IDAStarSolver._is_redundant move1 move2
    = Py.Ok (SimplifySpec.same_letter move1 move2
             || ScrambleSpec.opposite_letters move1 move2)
    /\ IDAStarSolver._is_redundant move2 move1
       = IDAStarSolver._is_redundant move1 move2.
Proof. intros move1 move2. destruct move1, move2; split; reflexivity. Qed.

(* ===================================================================== *)
(** * From facelets to cubies and back, and to the solver's format *)
(* ===================================================================== *)

Section DecodeEncode.

Import CubeState Stickers.

Lemma colors_equal_eq a : forall b, colors_equal a b = true -> a = b.
Proof.
  induction a as [|x a IH]; intros [|y b]; simpl; intros H;
    try reflexivity; try discriminate.
  apply andb_prop in H as [Hxy Hab]. apply String.eqb_eq in Hxy.
  apply IH in Hab. congruence.
Qed.

(** A corner that [from_facelets] recognises shows the colors it was
    recognised by. *)
Lemma find_corner_sound scheme a b c j o :
  find_corner (scheme_centers scheme) [a; b; c] = Some (j, o) ->
  corner_stickers scheme j o = [a; b; c].
Proof.
  unfold find_corner. intros H.
  apply first_some_found in H as ([k entry] & Hin & H).
  destruct entry as [[[[[sf1 sp1] sf2] sp2] sf3] sp3].
  apply first_some_found in H as (orient & Hor & H).
  destruct (colors_equal _ _) eqn:E; [|discriminate].
  inversion H; subst; clear H. apply colors_equal_eq in E.
  destruct scheme as [cu cd cf cb cr cl].
  cbv in Hin.
  repeat (destruct Hin as [Hin|Hin];
          [inversion Hin; subst; clear Hin;
           simpl in Hor; destruct Hor as [<-|[<-|[<-|[]]]];
           cbv in E; injection E as -> -> ->; reflexivity|]).
  destruct Hin.
Qed.

Lemma find_edge_sound scheme a b j o :
  find_edge (scheme_centers scheme) [a; b] = Some (j, o) ->
  edge_stickers scheme j o = [a; b].
Proof.
  unfold find_edge. intros H.
  apply first_some_found in H as ([k entry] & Hin & H).
  destruct entry as [[[sf1 sp1] sf2] sp2].
  destruct scheme as [cu cd cf cb cr cl].
  cbv in Hin.
  repeat (destruct Hin as [Hin|Hin];
          [inversion Hin; subst; clear Hin;
           cbv -[String.eqb] in H;
           repeat match type of H with
           | context [String.eqb ?x ?y] =>
               destruct (String.eqb_spec x y); cbn [andb] in H
           end;
           try discriminate H; inversion H; subst; reflexivity|]).
  destruct Hin.
Qed.

Lemma decode_encode facelets s scheme :
  from_facelets facelets = Py.Ok s ->
  scheme_centers scheme = centers_of facelets ->
  to_facelets s scheme = Py.Ok facelets.
Proof.
  intros H Hc.
  pose proof (from_facelets_spec facelets) as W. rewrite H in W.
  destruct W as [W L].
  explode_list facelets L.
  unfold from_facelets in H. cbn [List.length Nat.eqb negb] in H.
  unfold centers_of in Hc. cbn [map cell nth] in Hc, H.
  rewrite <- Hc in H.
  cbv -[find_corner find_edge scheme_centers] in H.
  repeat match type of H with
  | context [find_corner ?c ?l] =>
      let j := fresh "j" in let o := fresh "o" in let K := fresh "K" in
      destruct (find_corner c l) as [[j o]|] eqn:K; [|discriminate H];
      apply find_corner_sound in K
  | context [find_edge ?c ?l] =>
      let j := fresh "j" in let o := fresh "o" in let K := fresh "K" in
      destruct (find_edge c l) as [[j o]|] eqn:K; [|discriminate H];
      apply find_edge_sound in K
  end.
  inversion H; subst s; clear H.
  unfold Legal.well_typed in W.
  cbn [corner_perm corner_orient edge_perm edge_orient] in W.
  repeat (let T := fresh "T" in apply andb_prop in W as [W T]). clear W.
  cbn [forallb] in T0, T2.
  repeat (let R := fresh "R" in apply andb_prop in T0 as [R T0]).
  repeat (let R := fresh "R" in apply andb_prop in T2 as [R T2]).
  clear T T0 T1 T2.
  unfold to_facelets.
  repeat (cbn [Py.for_each Py.bind seq];
    match goal with
    | |- context [paint_corner ?s ?sch ?i ?fl] =>
        let c := eval cbv in (nth i (corner_perm s) 0%Z) in
        let o := eval cbv in (nth i (corner_orient s) 0%Z) in
        rewrite (@paint_corner_typed s sch i fl c o eq_refl eq_refl
                   ltac:(assumption))
    end).
  repeat (cbn [Py.for_each Py.bind seq];
    match goal with
    | |- context [paint_edge ?s ?sch ?i ?fl] =>
        let c := eval cbv in (nth i (edge_perm s) 0%Z) in
        let o := eval cbv in (nth i (edge_orient s) 0%Z) in
        rewrite (@paint_edge_typed s sch i fl c o eq_refl eq_refl
                   ltac:(assumption))
    end).
  cbn [Py.for_each Py.bind].
  repeat match goal with K : _ = [_; _; _] |- _ => rewrite K; clear K end.
  repeat match goal with K : _ = [_; _] |- _ => rewrite K; clear K end.
  destruct scheme as [cu cd cf cb cr cl].
  cbv in Hc. injection Hc as -> -> -> -> -> ->.
  reflexivity.
Qed.

End DecodeEncode.

(** X27. [from_facelets] loses nothing: when it returns a state for a
    facelet list, painting that state with [to_facelets] in a scheme
    whose six colors are the six center facelets of the list gives the
    list back, sticker for sticker. *)
Theorem to_facelets_of_from_facelets :
  forall (facelets : list string) (s : CubeState.t) (scheme : ColorScheme.t),
    CubeState.from_facelets facelets = Py.Ok s ->
    Stickers.scheme_centers scheme = Stickers.centers_of facelets ->
    CubeState.to_facelets s scheme = Py.Ok facelets.
Proof. intros facelets s scheme H Hc. now apply decode_encode. Qed.

Lemma to_facelets_of_from_facelets_witness :
  CubeState.to_facelets CubeState.solved ColorScheme.DEFAULT_SCHEME
  = Py.Ok Samples.solved_facelets.
Proof.
  apply (@to_facelets_of_from_facelets
           Samples.solved_facelets CubeState.solved ColorScheme.DEFAULT_SCHEME);
    reflexivity.
Defined.

Section SolverFormat.

Import CubeState Stickers FastSolver.

Lemma dict_set_get items key value k :
  Scramble.get (dict_set items key value) k
  = if String.eqb key k then Some value else Scramble.get items k.
Proof.
  induction items as [|[k0 v0] items IH]; cbn [dict_set Scramble.get].
  - reflexivity.
  - destruct (String.eqb_spec k0 key) as [->|Hne]; cbn [Scramble.get].
    + destruct (String.eqb key k); reflexivity.
    + rewrite IH. destruct (String.eqb_spec k0 k) as [->|Hk]; [|reflexivity].
      destruct (String.eqb_spec key k) as [->|_]; [congruence | reflexivity].
Qed.

(** Every color of the scheme has a face letter in [color_map]. *)
Lemma color_map_get scheme color :
  is_color scheme color ->
  exists letter,
    Scramble.get (color_map scheme) color = Some letter
    /\ In letter CountSpec.six_faces.
Proof.
  intros H. unfold color_map. cbn [fold_left]. rewrite !dict_set_get.
  cbn [Scramble.get]. destruct scheme as [cu cd cf cb cr cl].
  cbn [ColorScheme.U ColorScheme.D ColorScheme.F ColorScheme.B
       ColorScheme.R ColorScheme.L].
  unfold is_color in H. cbn in H.
  assert (E : String.eqb cu color || String.eqb cr color || String.eqb cf color
              || String.eqb cd color || String.eqb cl color
              || String.eqb cb color = true).
  { destruct H as [<-|[<-|[<-|[<-|[<-|[<-|[]]]]]]];
      rewrite String.eqb_refl, ?orb_true_r; reflexivity. }
  destruct (String.eqb cb color); [eexists; split; [reflexivity | simpl; tauto]|].
  destruct (String.eqb cl color); [eexists; split; [reflexivity | simpl; tauto]|].
  destruct (String.eqb cd color); [eexists; split; [reflexivity | simpl; tauto]|].
  destruct (String.eqb cf color); [eexists; split; [reflexivity | simpl; tauto]|].
  destruct (String.eqb cr color); [eexists; split; [reflexivity | simpl; tauto]|].
  destruct (String.eqb cu color); [eexists; split; [reflexivity | simpl; tauto]|].
  discriminate E.
Qed.

Lemma corner_stickers_colors scheme cubie orient :
  Legal.in_range 0 8 cubie = true -> Legal.in_range 0 3 orient = true ->
  exists x y z,
    corner_stickers scheme cubie orient = [x; y; z]
    /\ is_color scheme x /\ is_color scheme y /\ is_color scheme z.
Proof.
  intros Hc Ho. unfold Legal.in_range in Hc, Ho.
  apply andb_prop in Hc as [A B]. apply Z.leb_le in A. apply Z.ltb_lt in B.
  apply andb_prop in Ho as [C D]. apply Z.leb_le in C. apply Z.ltb_lt in D.
  assert (Hcs : (cubie = 0 \/ cubie = 1 \/ cubie = 2 \/ cubie = 3 \/ cubie = 4
                \/ cubie = 5 \/ cubie = 6 \/ cubie = 7)%Z) by lia.
  assert (Hos : (orient = 0 \/ orient = 1 \/ orient = 2)%Z) by lia.
  destruct scheme as [cu cd cf cb cr cl]. unfold is_color.
  destruct Hcs as [-> | [-> | [-> | [-> | [-> | [-> | [-> | ->]]]]]]];
    destruct Hos as [-> | [-> | ->]];
    do 3 eexists; (split; [reflexivity|]); cbn; tauto.
Qed.

Lemma edge_stickers_colors scheme cubie orient :
  Legal.in_range 0 12 cubie = true ->
  exists x y,
    edge_stickers scheme cubie orient = [x; y]
    /\ is_color scheme x /\ is_color scheme y.
Proof.
  intros Hc. unfold Legal.in_range in Hc.
  apply andb_prop in Hc as [A B]. apply Z.leb_le in A. apply Z.ltb_lt in B.
  assert (Hcs : (cubie = 0 \/ cubie = 1 \/ cubie = 2 \/ cubie = 3 \/ cubie = 4
                \/ cubie = 5 \/ cubie = 6 \/ cubie = 7 \/ cubie = 8 \/ cubie = 9
                \/ cubie = 10 \/ cubie = 11)%Z) by lia.
  destruct scheme as [cu cd cf cb cr cl]. unfold is_color, edge_stickers.
  destruct Hcs as [-> | [-> | [-> | [-> | [-> | [-> | [-> | [-> | [-> | [-> | [-> | ->]]]]]]]]]]];
    destruct (orient =? 1)%Z;
    do 2 eexists; (split; [reflexivity|]); cbn; tauto.
Qed.

(** On a state of the data model [to_facelets] returns 54 facelets, all
    in colors of the scheme. *)
Lemma to_facelets_cells s scheme :
  Legal.well_typed s = true ->
  exists facelets,
    to_facelets s scheme = Py.Ok facelets
    /\ List.length facelets = 54%nat
    /\ Forall (is_color scheme) facelets.
Proof.
  intros Ht.
  destruct (well_typed_lengths s Ht) as (L1 & L2 & L3 & L4).
  unfold Legal.well_typed in Ht.
  repeat (let H := fresh "T" in apply andb_prop in Ht as [Ht H]). clear Ht.
  destruct s as [cp co ep eo].
  cbn [corner_perm corner_orient edge_perm edge_orient] in *.
  explode_list cp L1. explode_list co L2. explode_list ep L3. explode_list eo L4.
  cbn [forallb] in T, T0, T1, T2.
  repeat (let R := fresh "R" in apply andb_prop in T0 as [R T0]).
  repeat (let R := fresh "R" in apply andb_prop in T1 as [R T1]).
  repeat (let R := fresh "R" in apply andb_prop in T2 as [R T2]).
  clear T T0 T1 T2.
  unfold to_facelets.
  repeat (cbn [Py.for_each Py.bind seq];
    match goal with
    | |- context [paint_corner ?s ?sch ?i ?fl] =>
        let c := eval cbv in (nth i (corner_perm s) 0%Z) in
        let o := eval cbv in (nth i (corner_orient s) 0%Z) in
        rewrite (@paint_corner_typed s sch i fl c o eq_refl eq_refl
                   ltac:(assumption))
    end).
  repeat (cbn [Py.for_each Py.bind seq];
    match goal with
    | |- context [paint_edge ?s ?sch ?i ?fl] =>
        let c := eval cbv in (nth i (edge_perm s) 0%Z) in
        let o := eval cbv in (nth i (edge_orient s) 0%Z) in
        rewrite (@paint_edge_typed s sch i fl c o eq_refl eq_refl
                   ltac:(assumption))
    end).
  cbn [Py.for_each Py.bind].
  repeat match goal with
  | |- context [corner_stickers ?sch ?c ?o] =>
      let x := fresh "x" in let y := fresh "y" in let z := fresh "z" in
      let E := fresh "E" in
      destruct (@corner_stickers_colors sch c o ltac:(assumption)
                  ltac:(assumption)) as (x & y & z & E & ? & ? & ?);
      rewrite E; clear E
  | |- context [edge_stickers ?sch ?c ?o] =>
      let x := fresh "x" in let y := fresh "y" in
      let E := fresh "E" in
      destruct (@edge_stickers_colors sch c o ltac:(assumption))
        as (x & y & E & ? & ?);
      rewrite E; clear E
  end.
  assert (C : Forall (is_color scheme) (scheme_centers scheme))
    by (apply Forall_forall; intros ? Hin; exact Hin).
  cbn [scheme_centers map seq] in C.
  repeat match type of C with
  | Forall _ (_ :: _) =>
      let H := fresh "C" in
      apply Forall_cons_iff in C as [H C]
  end.
  eexists. split; [reflexivity|]. split; [reflexivity|].
  cbv -[is_color ColorScheme.face_color].
  repeat (apply Forall_cons; [assumption|]). apply Forall_nil.
Qed.

Lemma join_letters letters :
  Forall (fun letter => In letter CountSpec.six_faces) letters ->
  String.length (Py.join "" letters) = List.length letters.
Proof.
  induction letters as [|a [|b letters] IH]; intros H; [reflexivity| |].
  - inversion H as [|? ? Ha _]; subst. cbn in Ha.
    destruct Ha as [<-|[<-|[<-|[<-|[<-|[<-|[]]]]]]]; reflexivity.
  - inversion H as [|? ? Ha Hb]; subst. rewrite join_cons2.
    change (List.length (a :: b :: letters))
      with (S (List.length (b :: letters))).
    rewrite <- (IH Hb). cbn in Ha.
    destruct Ha as [<-|[<-|[<-|[<-|[<-|[<-|[]]]]]]]; reflexivity.
Qed.

Lemma convert_colors scheme facelets :
  Forall (is_color scheme) facelets ->
  exists letters,
    _convert_to_kociemba_format facelets scheme = Py.Ok (Py.join "" letters)
    /\ List.length letters = List.length facelets
    /\ Forall (fun letter => In letter CountSpec.six_faces) letters.
Proof.
  intros H. unfold _convert_to_kociemba_format. cbv zeta.
  assert (M : exists letters,
             Py.map_m
               (fun facelet =>
                  match Scramble.get (color_map scheme) facelet with
                  | None =>
                      Py.Raise (Py.ValueError
                        ("Unknown color in facelets: " ++ facelet)%string)
                  | Some letter => Py.Ok letter
                  end) facelets = Py.Ok letters
             /\ List.length letters = List.length facelets
             /\ Forall (fun letter => In letter CountSpec.six_faces) letters).
  { induction H as [|x xs Hx _ IH].
    - exists []. repeat split. constructor.
    - destruct IH as (letters & E & L & A).
      destruct (color_map_get Hx) as (letter & G & Hl).
      exists (letter :: letters). cbn [Py.map_m]. rewrite G. cbn [Py.bind].
      rewrite E. cbn [Py.bind]. repeat split; [simpl; congruence|].
      now constructor. }
  destruct M as (letters & -> & L & A). cbn [Py.bind].
  exists letters. now repeat split.
Qed.

End SolverFormat.

(** X28. The conversion for the Kociemba solver never fails on what
    [to_facelets] returns: for a state of the data model and any color
    scheme, [to_facelets] returns 54 facelets and
    [_convert_to_kociemba_format] turns them into a text of 54 face
    letters. *)
Theorem kociemba_format_of_states :
  forall (s : CubeState.t) (scheme : ColorScheme.t),
    Legal.well_typed s = true ->
    exists facelets letters,
      CubeState.to_facelets s scheme = Py.Ok facelets
      /\ List.length facelets = 54%nat
      /\ FastSolver._convert_to_kociemba_format facelets scheme
         = Py.Ok (Py.join "" letters)
      /\ String.length (Py.join "" letters) = 54%nat
      /\ Forall (fun letter => In letter CountSpec.six_faces) letters.
Proof.
  intros s scheme H.
  destruct (to_facelets_cells s scheme H) as (facelets & E & L & C).
  destruct (convert_colors C) as (letters & K & Ll & A).
  exists facelets, letters. repeat split; try assumption.
  rewrite (join_letters A). congruence.
Qed.

Lemma kociemba_format_of_states_witness :
  exists facelets letters,
    CubeState.to_facelets Samples.r_turned ColorScheme.DEFAULT_SCHEME
    = Py.Ok facelets
    /\ List.length facelets = 54%nat
    /\ FastSolver._convert_to_kociemba_format facelets
         ColorScheme.DEFAULT_SCHEME
       = Py.Ok (Py.join "" letters)
    /\ String.length (Py.join "" letters) = 54%nat
    /\ Forall (fun letter => In letter CountSpec.six_faces) letters.
Proof.
  apply (@kociemba_format_of_states Samples.r_turned ColorScheme.DEFAULT_SCHEME).
  reflexivity.
Defined.

(* ===================================================================== *)
(** * What [validate_facelets] accepts *)
(* ===================================================================== *)

Section CounterItems.

Import Validators ValidationSpec.

Lemma count_up_key x items k :
  In k (map fst (count_up x items)) <-> k = x \/ In k (map fst items).
Proof.
  induction items as [|[k0 n] items IH]; cbn [count_up map fst In].
  - intuition congruence.
  - destruct (String.eqb_spec k0 x) as [->|Hne]; cbn [map fst In].
    + intuition congruence.
    + rewrite IH. intuition congruence.
Qed.

Lemma count_up_nodup x items :
  NoDup (map fst items) -> NoDup (map fst (count_up x items)).
Proof.
  induction items as [|[k0 n] items IH]; cbn [count_up map fst]; intros H.
  - constructor; [intros [] | constructor].
  - inversion H as [|? ? Hnot Hrest]; subst.
    destruct (String.eqb_spec k0 x) as [->|Hne]; cbn [map fst].
    + now constructor.
    + constructor; [|now apply IH].
      rewrite count_up_key. intros [->|Hin]; [congruence | contradiction].
Qed.

Lemma fold_count_up_keys xs : forall items,
  NoDup (map fst items) ->
  NoDup (map fst (fold_left (fun items x => count_up x items) xs items))
  /\ forall k, In k (map fst (fold_left (fun items x => count_up x items)
                                        xs items))
               <-> In k xs \/ In k (map fst items).
Proof.
  induction xs as [|x xs IH]; intros items H; cbn [fold_left].
  - split; [exact H | intros k; simpl; tauto].
  - destruct (IH (count_up x items) (count_up_nodup x items H)) as [N K].
    split; [exact N|]. intros k. rewrite K, count_up_key. simpl.
    intuition congruence.
Qed.

(** The keys of a [Counter] are the elements, each once. *)
Lemma Counter_keys xs :
  NoDup (map fst (Counter xs))
  /\ forall k, In k (map fst (Counter xs)) <-> In k xs.
Proof.
  destruct (fold_count_up_keys xs [] (NoDup_nil _)) as [N K].
  split; [exact N|]. intros k. unfold Counter. rewrite K. simpl. tauto.
Qed.

Lemma recorded_item items : forall c n,
  NoDup (map fst items) -> In (c, n) items -> recorded c items = n.
Proof.
  induction items as [|[k0 n0] items IH]; intros c n N H; [destruct H|].
  cbn [recorded]. inversion N as [|? ? Hnot Hrest]; subst.
  destruct H as [E|H].
  - inversion E; subst. now rewrite String.eqb_refl.
  - destruct (String.eqb_spec k0 c) as [->|_]; [|now apply IH].
    exfalso. apply Hnot. change c with (fst (c, n)). now apply in_map.
Qed.

(** Each item of a [Counter] is an element with its number of
    occurrences. *)
Lemma Counter_item xs c n :
  In (c, n) (Counter xs) -> In c xs /\ n = count_occ string_dec xs c.
Proof.
  intros H. destruct (Counter_keys xs) as [N K]. split.
  - apply K. change c with (fst (c, n)). now apply in_map.
  - rewrite <- (@recorded_item (Counter xs) c n N H). unfold Counter.
    rewrite recorded_fold. simpl. lia.
Qed.

Lemma Counter_length xs :
  List.length (Counter xs) = List.length (nodup string_dec xs).
Proof.
  destruct (Counter_keys xs) as [N K]. rewrite <- (length_map fst).
  apply Permutation_length, NoDup_Permutation;
    [exact N | apply NoDup_nodup |].
  intros k. rewrite K, nodup_In. tauto.
Qed.

Lemma is_nil_report_counts items : forall errors,
  is_nil (report_counts errors items)
  = is_nil errors && forallb (fun '(_, n) => (n =? 9)%nat) items.
Proof.
  induction items as [|[c n] items IH]; intros errors.
  - cbn. now rewrite andb_true_r.
  - cbn [report_counts fold_left forallb].
    fold (report_counts (if negb (n =? 9)%nat
                         then errors ++ [wrong_count c n] else errors) items).
    rewrite IH. destruct (n =? 9)%nat; cbn [negb andb]; [reflexivity|].
    rewrite is_nil_app. cbn. now rewrite !andb_false_r.
Qed.

Lemma counts_all_nine xs :
  forallb (fun '(_, n) => (n =? 9)%nat) (Counter xs) = true
  <-> forall color, In color xs -> count_occ string_dec xs color = 9%nat.
Proof.
  rewrite forallb_forall. split.
  - intros H color Hin.
    assert (Hpos : (0 < count_occ string_dec xs color)%nat)
      by now apply count_occ_In.
    specialize (H _ (Counter_in xs color Hpos)). now apply Nat.eqb_eq in H.
  - intros H [c n] Hin. apply Counter_item in Hin as [Hc ->].
    apply Nat.eqb_eq. now apply H.
Qed.

Lemma well_typed_closed s :
  Legal.well_typed s = true ->
  closed (CubeState.corner_perm s) /\ closed (CubeState.edge_perm s).
Proof.
  intros H. destruct (well_typed_lengths s H) as (H1 & _ & H3 & _).
  unfold Legal.well_typed in H. rewrite !andb_true_iff in H.
  destruct H as [[[[[[[_ _] _] _] A] _] B] _].
  unfold closed. rewrite H1, H3. rewrite forallb_forall in A, B.
  split; apply Forall_forall; intros x Hx;
    [specialize (A x Hx) | specialize (B x Hx)];
    unfold Legal.in_range in *;
    match goal with H : _ && _ = true |- _ =>
      apply andb_prop in H as [P Q]; apply Z.leb_le in P; apply Z.ltb_lt in Q
    end; simpl; lia.
Qed.

Lemma validate_facelets_spec facelets :
  exists errors,
    validate_facelets facelets = Py.Ok (is_nil errors, errors)
    /\ (is_nil errors = true -> checked facelets)
    /\ (decodes_to_bijections facelets ->
        (is_nil errors = true <-> acceptable facelets)).
Proof.
  unfold validate_facelets, acceptable, checked. cbv zeta.
  destruct (Nat.eqb_spec (List.length facelets) 54) as [L|L]; cbn [negb].
  2: { match goal with |- context [Py.Ok (false, ?e)] => exists e end.
       split; [reflexivity|]. cbn.
       split; [discriminate|]. intros _. split; [discriminate | tauto]. }
  fold (wrong_count).
  match goal with |- context [negb (is_nil ?e)] => set (E := e) end.
  assert (N : is_nil E
              = (List.length (nodup string_dec facelets) =? 6)%nat
                && forallb (fun '(_, n) => (n =? 9)%nat) (Counter facelets)).
  { subst E.
    match goal with |- is_nil (fold_left _ _ ?e0) = _ =>
      change (is_nil (report_counts e0 (Counter facelets)) =
              (List.length (nodup string_dec facelets) =? 6)%nat
              && forallb (fun '(_, n) => (n =? 9)%nat) (Counter facelets))
    end.
    rewrite is_nil_report_counts, Counter_length.
    destruct (List.length (nodup string_dec facelets) =? 6)%nat; reflexivity. }
  clearbody E.
  destruct E as [|e E]; cbn [is_nil negb] in *.
  2: { exists (e :: E). split; [reflexivity|]. cbn [is_nil].
       split; [discriminate|]. intros _.
       split; [discriminate|]. intros (_ & A & B & _).
       apply Nat.eqb_eq in A. apply (proj2 (counts_all_nine facelets)) in B.
       rewrite A, B in N. discriminate N. }
  symmetry in N. apply andb_prop in N as [A B].
  apply Nat.eqb_eq in A.
  pose proof (proj1 (counts_all_nine facelets) B) as B'. clear B.
  pose proof (from_facelets_spec facelets) as F.
  destruct (CubeState.from_facelets facelets) as [s|e] eqn:Es.
  - destruct F as [W _]. destruct (well_typed_closed s W) as [C1 C2].
    destruct (permutation_parity_total C1) as (p1 & P1 & _).
    destruct (permutation_parity_total C2) as (p2 & P2 & _).
    rewrite P1, P2. cbn [Py.bind app].
    eexists. split; [reflexivity|].
    assert (T : Legal.twist_ok s
                = (Py.sum (CubeState.corner_orient s) mod 3 =? 0)%Z)
      by reflexivity.
    assert (Fl : Legal.flip_ok s
                 = (Py.sum (CubeState.edge_orient s) mod 2 =? 0)%Z)
      by reflexivity.
    rewrite <- T, <- Fl.
    split.
    + intros H. split; [exact L|]. split; [exact A|]. split; [exact B'|].
      exists s. split; [reflexivity|].
      destruct (Legal.twist_ok s), (Legal.flip_ok s), (p1 =? p2)%Z;
        cbn in H; try discriminate H; auto.
    + intros Hb. specialize (Hb s Es).
      unfold Legal.bijections in Hb. apply andb_prop in Hb as [V1 V2].
      apply is_valid_permutation_iff in V1, V2.
      rewrite (@permutation_parity_correct _ _ V1) in P1.
      rewrite (@permutation_parity_correct _ _ V2) in P2.
      inversion P1 as [Q1]. inversion P2 as [Q2].
      change (Parity.parity (CubeState.corner_perm s)
              =? Parity.parity (CubeState.edge_perm s))%Z
        with (Legal.parity_ok s).
      split.
      * intros H. split; [exact L|]. split; [exact A|]. split; [exact B'|].
        exists s. split; [reflexivity|].
        destruct (Legal.twist_ok s), (Legal.flip_ok s), (Legal.parity_ok s);
          cbn in H; try discriminate H; auto.
      * intros (_ & _ & _ & s' & Es' & Ht & Hf & Hp).
        inversion Es'; subst s'. now rewrite Ht, Hf, Hp.
  - destruct e as [m|m|m]; try discriminate F.
    eexists. split; [reflexivity|]. cbn [app is_nil].
    split; [discriminate|]. intros _.
    split; [discriminate|]. intros (_ & _ & _ & s & Es' & _). discriminate Es'.
Qed.

End CounterItems.

(** X29. [validate_facelets] never raises and answers [True] exactly
    when its error list is empty.  It answers [True] only for lists of
    54 facelets in six colors, each color nine times, that
    [from_facelets] decodes to a state whose twist sum is a multiple of
    3 and whose flip sum is even.  Where the decoded permutations are
    bijections, it answers [True] exactly when, on top of that, the two
    permutations are both even or both odd, counted by their
    inversions. *)
Theorem validate_facelets_exact :
  forall facelets : list string,
    exists errors,
      Validators.validate_facelets facelets
      = Py.Ok (Validators.is_nil errors, errors)
      /\ (errors = [] -> ValidationSpec.checked facelets)
      /\ (ValidationSpec.decodes_to_bijections facelets ->
          (errors = [] <-> ValidationSpec.acceptable facelets)).
Proof.
  intros facelets.
  destruct (validate_facelets_spec facelets) as (errors & E & C & H).
  exists errors. split; [exact E|]. split.
  - intros ->. now apply C.
  - intros Hb. rewrite <- (H Hb). destruct errors; cbn; split; congruence.
Qed.

(** A list that decodes to bijections and is accepted: the solved cube
    in the default colors. *)
Lemma validate_facelets_exact_witness :
  ValidationSpec.decodes_to_bijections Samples.solved_facelets
  /\ Validators.validate_facelets Samples.solved_facelets = Py.Ok (true, [])
  /\ ValidationSpec.acceptable Samples.solved_facelets.
Proof.
  assert (D : ValidationSpec.decodes_to_bijections Samples.solved_facelets).
  { intros s Es. vm_compute in Es. inversion Es. reflexivity. }
  destruct (validate_facelets_exact Samples.solved_facelets)
    as (errors & E & _ & H).
  vm_compute in E. inversion E as [[N Ee]]. subst errors.
  split; [exact D|]. split; [reflexivity|]. now apply (H D).
Defined.

Section AcceptLegal.

Import CubeState Stickers ValidationSpec.

Lemma count_occ_count1 a l c :
  count_occ string_dec (a :: l) c = (count1 a c + count_occ string_dec l c)%nat.
Proof.
  cbn [count_occ]. unfold count1. destruct (string_dec a c); reflexivity.
Qed.

Lemma list_sum_permutation xs ys :
  Permutation xs ys -> list_sum xs = list_sum ys.
Proof.
  induction 1 as [|x xs ys _ IH|x y xs|xs ys zs _ IH1 _ IH2]; simpl; lia.
Qed.

(** Turning a corner does not change which colors it shows. *)
Lemma corner_stickers_count scheme cubie orient :
  Legal.in_range 0 8 cubie = true -> Legal.in_range 0 3 orient = true ->
  exists x y z,
    corner_stickers scheme cubie orient = [x; y; z]
    /\ forall c, count_occ string_dec [x; y; z] c
                 = count_occ string_dec (corner_stickers scheme cubie 0) c.
Proof.
  intros Hc Ho. unfold Legal.in_range in Hc, Ho.
  apply andb_prop in Hc as [A B]. apply Z.leb_le in A. apply Z.ltb_lt in B.
  apply andb_prop in Ho as [C D]. apply Z.leb_le in C. apply Z.ltb_lt in D.
  assert (Hcs : (cubie = 0 \/ cubie = 1 \/ cubie = 2 \/ cubie = 3 \/ cubie = 4
                \/ cubie = 5 \/ cubie = 6 \/ cubie = 7)%Z) by lia.
  assert (Hos : (orient = 0 \/ orient = 1 \/ orient = 2)%Z) by lia.
  destruct scheme as [cu cd cf cb cr cl].
  destruct Hcs as [-> | [-> | [-> | [-> | [-> | [-> | [-> | ->]]]]]]];
    destruct Hos as [-> | [-> | ->]];
    do 3 eexists; (split; [reflexivity|]); intros c;
    cbv -[count_occ string_dec];
    rewrite !count_occ_count1; cbn [count_occ]; lia.
Qed.

Lemma edge_stickers_count scheme cubie orient :
  Legal.in_range 0 12 cubie = true ->
  exists x y,
    edge_stickers scheme cubie orient = [x; y]
    /\ forall c, count_occ string_dec [x; y] c
                 = count_occ string_dec (edge_stickers scheme cubie 0) c.
Proof.
  intros Hc. unfold Legal.in_range in Hc.
  apply andb_prop in Hc as [A B]. apply Z.leb_le in A. apply Z.ltb_lt in B.
  assert (Hcs : (cubie = 0 \/ cubie = 1 \/ cubie = 2 \/ cubie = 3 \/ cubie = 4
                \/ cubie = 5 \/ cubie = 6 \/ cubie = 7 \/ cubie = 8 \/ cubie = 9
                \/ cubie = 10 \/ cubie = 11)%Z) by lia.
  destruct scheme as [cu cd cf cb cr cl]. unfold edge_stickers at 1.
  destruct Hcs as [-> | [-> | [-> | [-> | [-> | [-> | [-> | [-> | [-> | [-> | [-> | ->]]]]]]]]]]];
    destruct (orient =? 1)%Z;
    do 2 eexists; (split; [reflexivity|]); intros c;
    cbv -[count_occ string_dec];
    rewrite !count_occ_count1; cbn [count_occ]; lia.
Qed.

(** The colors of all the cubies of a bijection are the colors of the
    cubies in their home positions. *)
Lemma cubie_colors_sum (colors : Z -> nat) perm n :
  Validators._is_valid_permutation perm n = true ->
  list_sum (map colors perm) = list_sum (map colors (CubeState.range n)).
Proof.
  intros H. apply is_valid_permutation_iff in H.
  now apply list_sum_permutation, Permutation_map.
Qed.

(** In their home positions the corners show each face color four
    times, and so do the edges. *)
Lemma home_corner_colors scheme c :
  list_sum (map (fun j => count_occ string_dec (corner_stickers scheme j 0) c)
                (CubeState.range 8))
  = (4 * count_occ string_dec (scheme_centers scheme) c)%nat.
Proof.
  destruct scheme as [cu cd cf cb cr cl].
  unfold CubeState.range. cbn [seq map list_sum].
  repeat match goal with
  | |- context [corner_stickers ?sch ?j 0%Z] =>
      let l := eval cbv in (corner_stickers sch j 0%Z) in
      change (corner_stickers sch j 0%Z) with l
  end.
  change (scheme_centers (ColorScheme.Build cu cd cf cb cr cl))
    with [cu; cr; cf; cd; cl; cb].
  rewrite !count_occ_count1. cbn [count_occ].
  unfold list_sum. cbn [fold_right]. lia.
Qed.

Lemma home_edge_colors scheme c :
  list_sum (map (fun j => count_occ string_dec (edge_stickers scheme j 0) c)
                (CubeState.range 12))
  = (4 * count_occ string_dec (scheme_centers scheme) c)%nat.
Proof.
  destruct scheme as [cu cd cf cb cr cl].
  unfold CubeState.range. cbn [seq map list_sum].
  repeat match goal with
  | |- context [edge_stickers ?sch ?j 0%Z] =>
      let l := eval cbv in (edge_stickers sch j 0%Z) in
      change (edge_stickers sch j 0%Z) with l
  end.
  change (scheme_centers (ColorScheme.Build cu cd cf cb cr cl))
    with [cu; cr; cf; cd; cl; cb].
  rewrite !count_occ_count1. cbn [count_occ].
  unfold list_sum. cbn [fold_right]. lia.
Qed.

(** On a state of the data model whose permutations are bijections,
    [to_facelets] paints every color of the scheme nine times for each
    face that has it. *)
Lemma facelets_counts s scheme :
  Legal.well_typed s = true -> Legal.bijections s = true ->
  exists facelets,
    to_facelets s scheme = Py.Ok facelets
    /\ forall c, count_occ string_dec facelets c
                 = (9 * count_occ string_dec (scheme_centers scheme) c)%nat.
Proof.
  intros Ht Hb.
  destruct (well_typed_lengths s Ht) as (L1 & L2 & L3 & L4).
  unfold Legal.well_typed in Ht.
  repeat (let H := fresh "T" in apply andb_prop in Ht as [Ht H]). clear Ht.
  unfold Legal.bijections in Hb. apply andb_prop in Hb as [B1 B2].
  destruct s as [cp co ep eo]. destruct scheme as [cu cd cf cb cr cl].
  cbn [corner_perm corner_orient edge_perm edge_orient] in *.
  explode_list cp L1. explode_list co L2. explode_list ep L3. explode_list eo L4.
  cbn [forallb] in T, T0, T1, T2.
  repeat (let R := fresh "R" in apply andb_prop in T0 as [R T0]).
  repeat (let R := fresh "R" in apply andb_prop in T1 as [R T1]).
  repeat (let R := fresh "R" in apply andb_prop in T2 as [R T2]).
  clear T T0 T1 T2.
  unfold to_facelets.
  repeat (cbn [Py.for_each Py.bind seq];
    match goal with
    | |- context [paint_corner ?s ?sch ?i ?fl] =>
        let c := eval cbv in (nth i (corner_perm s) 0%Z) in
        let o := eval cbv in (nth i (corner_orient s) 0%Z) in
        rewrite (@paint_corner_typed s sch i fl c o eq_refl eq_refl
                   ltac:(assumption))
    end).
  repeat (cbn [Py.for_each Py.bind seq];
    match goal with
    | |- context [paint_edge ?s ?sch ?i ?fl] =>
        let c := eval cbv in (nth i (edge_perm s) 0%Z) in
        let o := eval cbv in (nth i (edge_orient s) 0%Z) in
        rewrite (@paint_edge_typed s sch i fl c o eq_refl eq_refl
                   ltac:(assumption))
    end).
  cbn [Py.for_each Py.bind].
  repeat match goal with
  | |- context [corner_stickers ?sch ?c ?o] =>
      let x := fresh "x" in let y := fresh "y" in let z := fresh "z" in
      let E := fresh "E" in let F := fresh "F" in
      destruct (@corner_stickers_count sch c o ltac:(assumption)
                  ltac:(assumption)) as (x & y & z & E & F);
      rewrite E; clear E
  | |- context [edge_stickers ?sch ?c ?o] =>
      let x := fresh "x" in let y := fresh "y" in
      let E := fresh "E" in let F := fresh "F" in
      destruct (@edge_stickers_count sch c o ltac:(assumption))
        as (x & y & E & F);
      rewrite E; clear E
  end.
  eexists. split; [reflexivity|]. intros c.
  pose proof (@cubie_colors_sum
                (fun j => count_occ string_dec
                            (corner_stickers (ColorScheme.Build cu cd cf cb cr cl) j 0) c)
                _ 8 B1) as S1.
  pose proof (@cubie_colors_sum
                (fun j => count_occ string_dec
                            (edge_stickers (ColorScheme.Build cu cd cf cb cr cl) j 0) c)
                _ 12 B2) as S2.
  rewrite home_corner_colors in S1. rewrite home_edge_colors in S2.
  unfold list_sum in S1, S2. cbn [map fold_right] in S1, S2.
  repeat match goal with F : forall c, _ = _ |- _ =>
    specialize (F c); rewrite !count_occ_count1 in F;
    change (count_occ string_dec [] c) with 0%nat in F end.
  match goal with |- count_occ _ ?big c = _ =>
    let L := eval cbv in big in change big with L
  end.
  change (scheme_centers (ColorScheme.Build cu cd cf cb cr cl))
    with [cu; cr; cf; cd; cl; cb].
  change (scheme_centers (ColorScheme.Build cu cd cf cb cr cl))
    with [cu; cr; cf; cd; cl; cb] in S1, S2.
  rewrite !count_occ_count1 in S1, S2.
  change (count_occ string_dec [] c) with 0%nat in S1, S2.
  rewrite !count_occ_count1.
  change (count_occ string_dec [] c) with 0%nat.
  repeat match goal with F : _ = count_occ _ _ _ |- _ => revert F end.
  revert S1 S2.
  repeat match goal with
  | |- context [count_occ string_dec (corner_stickers ?sch ?j 0) c] =>
      generalize (count_occ string_dec (corner_stickers sch j 0) c); intro
  | |- context [count_occ string_dec (edge_stickers ?sch ?j 0) c] =>
      generalize (count_occ string_dec (edge_stickers sch j 0) c); intro
  end.
  intros. lia.
Qed.

End AcceptLegal.

Section LegalFacelets.

Import CubeState Stickers ValidationSpec.

Lemma legal_facelets_acceptable s scheme :
  Legal.legal s = true -> Legal.distinct_colors scheme ->
  exists facelets,
    to_facelets s scheme = Py.Ok facelets
    /\ from_facelets facelets = Py.Ok s
    /\ acceptable facelets.
Proof.
  intros Hl Hd. unfold Legal.legal in Hl. rewrite !andb_true_iff in Hl.
  destruct Hl as [[[[Ht Hb] Hw] Hf] Hp].
  destruct (facelets_counts s scheme Ht Hb) as (facelets & E & C).
  pose proof (round_trip_well_typed s Ht Hd) as R.
  rewrite E in R. cbn [Py.bind] in R.
  exists facelets. split; [exact E|]. split; [exact R|].
  pose proof (from_facelets_spec facelets) as F. rewrite R in F.
  destruct F as [_ Len].
  assert (Nd : NoDup (scheme_centers scheme)) by exact Hd.
  assert (M : forall c, In c facelets <-> In c (scheme_centers scheme)).
  { intros c.
    rewrite (count_occ_In string_dec facelets c),
      (count_occ_In string_dec (scheme_centers scheme) c), C. lia. }
  split; [exact Len|]. split; [|split].
  - transitivity (List.length (scheme_centers scheme)); [|reflexivity].
    apply Permutation_length, NoDup_Permutation;
      [apply NoDup_nodup | exact Nd |].
    intros c. rewrite nodup_In. apply M.
  - intros c Hin. apply M in Hin. rewrite C.
    now rewrite (proj1 (NoDup_count_occ' string_dec _) Nd c Hin).
  - exists s. repeat split; assumption.
Qed.

End LegalFacelets.

(** X30. The facelets of a legal state pass validation: for every legal
    state and every color scheme with six different colors,
    [to_facelets] returns a facelet list that [validate_facelets]
    accepts without an error message. *)
Theorem validate_facelets_accepts_legal_states :
  forall (s : CubeState.t) (scheme : ColorScheme.t),
    Legal.legal s = true ->
    Legal.distinct_colors scheme ->
    exists facelets,
      CubeState.to_facelets s scheme = Py.Ok facelets
      /\ Validators.validate_facelets facelets = Py.Ok (true, []).
Proof.
  intros s scheme Hl Hd.
  destruct (legal_facelets_acceptable s Hl Hd) as (facelets & E & R & A).
  exists facelets. split; [exact E|].
  destruct (validate_facelets_spec facelets) as (errors & V & _ & H).
  assert (D : ValidationSpec.decodes_to_bijections facelets).
  { intros s' Es. rewrite R in Es. inversion Es; subst s'.
    unfold Legal.legal in Hl. rewrite !andb_true_iff in Hl. tauto. }
  apply (H D) in A. destruct errors; [exact V | discriminate A].
Qed.

Lemma validate_facelets_accepts_legal_states_witness :
  exists facelets,
    CubeState.to_facelets Samples.r_turned ColorScheme.DEFAULT_SCHEME
    = Py.Ok facelets
    /\ Validators.validate_facelets facelets = Py.Ok (true, []).
Proof.
  apply (@validate_facelets_accepts_legal_states
           Samples.r_turned ColorScheme.DEFAULT_SCHEME);
    [reflexivity | exact default_scheme_distinct].
Defined.
